(** * MessTrack: undo log, statistics, archiving, storage quota and reminders

    A shallow embedding of the parts of the MessTrack meal-attendance
    tracker that carry logic: the shared data document, the calendar
    arithmetic of a JavaScript [Date], [StatisticsManager], [UndoManager],
    [MessTrack.markAttendance] / [archivePreviousMonth] /
    [checkAndAutoReset], [StorageManager] and
    [NotificationManager.checkScheduledNotifications].

    JavaScript objects used as dictionaries are finite maps keyed by
    strings; arrays are lists; a [Date] is kept by its local calendar
    fields; counters are natural numbers; the undo cursor is an integer
    because it starts at -1. *)

From Stdlib Require Import ZArith Lia Ascii String.
From stdpp Require Import base option list gmap strings pretty sorting.

Open Scope string_scope.
Open Scope list_scope.
Open Scope Z_scope.

(** ** Strings the way the scripts use them *)

(** [s.startsWith(p)]. *)
Definition startsWith (s p : string) : bool := String.prefix p s.

(** [s.padStart(n, c)] for a one-character filler [c]. *)
Definition padStart (n : nat) (c : ascii) (s : string) : string :=
  String.string_of_list_ascii (replicate (n - String.length s) c) +:+ s.

(** [String(n)] for an integer. *)
Definition String_of (n : Z) : string := pretty n.

(** [a < b] on strings compares code units, as [String.ltb] does on the
    ASCII keys the application stores. *)
Definition str_lt (a b : string) : bool := String.ltb a b.

(** [Array.prototype.sort()] without a comparator, on strings. *)
Definition sort (l : list string) : list string := merge_sort String.le l.

(** [Object.keys(o)].  The callers either sort the keys or fold a
    commutative count over them, so the enumeration order of the finite
    map stands for the insertion order of the object. *)
Definition Object_keys {A} (o : gmap string A) : list string :=
  (map_to_list o).*1.

(** ** The local calendar fields of a [Date] *)

Record JsDate := mkDate {
  getFullYear : Z;
  getMonth : Z;     (* 0 = January ... 11 = December *)
  getDate : Z       (* day of the month, from 1 *)
}.

Definition isLeapYear (y : Z) : bool :=
  (y mod 4 =? 0) && (negb (y mod 100 =? 0) || (y mod 400 =? 0)).

Definition daysInMonth (y m : Z) : Z :=
  if m =? 1 then (if isLeapYear y then 29 else 28)
  else if (m =? 3) || (m =? 5) || (m =? 8) || (m =? 10) then 30
  else 31.

(** Day overflow of [MakeDay]: a day of the month past the end of the month
    runs on into the following months. *)
Fixpoint rollDays (fuel : nat) (y m d : Z) : JsDate :=
  match fuel with
  | O => mkDate y m d
  | S fuel' =>
      if d <=? daysInMonth y m then mkDate y m d
      else if m =? 11 then rollDays fuel' (y + 1) 0 (d - daysInMonth y m)
      else rollDays fuel' y (m + 1) (d - daysInMonth y m)
  end.

(** [MakeDay(year, month, date)] for [date >= 1]: the month is first
    brought into 0..11 (carrying into the year), then the day is counted
    on from the first of that month. *)
Definition MakeDay (y m d : Z) : JsDate :=
  rollDays (Z.to_nat d) (y + m / 12) (m mod 12) d.

(** [t.setMonth(m)] keeps the year and the day of the month. *)
Definition setMonth (t : JsDate) (m : Z) : JsDate :=
  MakeDay (getFullYear t) m (getDate t).

(** [t.setFullYear(y)] keeps the month and the day of the month. *)
Definition setFullYear (t : JsDate) (y : Z) : JsDate :=
  MakeDay y (getMonth t) (getDate t).


(** The template
    [`${t.getFullYear()}-${String(t.getMonth() + 1).padStart(2, '0')}`]. *)
Definition monthKeyOf (t : JsDate) : string :=
  String_of (getFullYear t) +:+ "-" +:+ padStart 2 "0" (String_of (getMonth t + 1)).

(** [MessTrack.getTodayString] (app.js). *)
Definition getTodayString (today : JsDate) : string :=
  let year := String_of (getFullYear today) in
  let month := padStart 2 "0" (String_of (getMonth today + 1)) in
  let day := padStart 2 "0" (String_of (getDate today)) in
  year +:+ "-" +:+ month +:+ "-" +:+ day.

(** ** The shared document [app.data] *)

Inductive Meal := Lunch | Dinner.

#[global] Instance Meal_eq_dec : EqDecision Meal.
Proof. solve_decision. Defined.

(** [['lunch', 'dinner'].includes(type)] *)
Definition mealOfString (type : string) : option Meal :=
  if String.eqb type "lunch" then Some Lunch
  else if String.eqb type "dinner" then Some Dinner
  else None.

Record Day := mkDay { lunch : bool; dinner : bool }.

#[global] Instance Day_eq_dec : EqDecision Day.
Proof. solve_decision. Defined.

(** [day[mealType]] and [day[mealType] = b]. *)
Definition getMeal (m : Meal) (day : Day) : bool :=
  match m with Lunch => lunch day | Dinner => dinner day end.

Definition setMeal (m : Meal) (b : bool) (day : Day) : Day :=
  match m with
  | Lunch => mkDay b (dinner day)
  | Dinner => mkDay (lunch day) b
  end.

(** The property names an object made by a literal, a spread or
    [JSON.parse] inherits from [Object.prototype] when it has no own
    property of that name.  Each holds a function or, for [__proto__],
    the prototype itself: a truthy value without a [timestamp]. *)
Definition objectPrototypeNames : list string :=
  [ "constructor"; "__defineGetter__"; "__defineSetter__"; "hasOwnProperty";
    "__lookupGetter__"; "__lookupSetter__"; "isPrototypeOf";
    "propertyIsEnumerable"; "toString"; "valueOf"; "__proto__";
    "toLocaleString" ].

Definition inherited (name : string) : bool :=
  bool_decide (name ∈ objectPrototypeNames).

Record Summary := mkSummary {
  s_lunchCount : nat;
  s_dinnerCount : nat;
  s_totalDays : nat;
  s_percentage : string
}.

Record Settings := mkSettings {
  theme : string;
  notifications : bool;
  lunchTime : string;
  dinnerTime : string;
  githubToken : string
}.

Record Data := mkData {
  attendance : gmap string Day;
  summaries : gmap string Summary;
  notes : gmap string string;
  settings : Settings
}.

(** [((a / p) * 100).toFixed(1)]: one decimal, ties rounded up.  The
    quotient is taken exactly; it coincides with the double-precision
    value whenever that one is exact, as for 3/6. *)
Definition percentFixed1 (a p : nat) : string :=
  let tenths := ((2000 * a + p) / (2 * p))%nat in
  pretty (tenths / 10)%nat +:+ "." +:+ pretty (tenths mod 10)%nat.

(** ** StatisticsManager *)

Module StatisticsManager.

(** A percentage field holds the number 0 or the text of [toFixed(1)]. *)
Inductive Percentage := PNumber (n : nat) | PText (s : string).

Record Stats := mkStats {
  monthKey : string;
  totalDays : nat;
  lunchCount : nat;
  dinnerCount : nat;
  bothMealsCount : nat;
  onlyLunchCount : nat;
  onlyDinnerCount : nat;
  skippedBothCount : nat;
  totalMealsAttended : nat;
  totalPossibleMeals : nat;
  attendancePercentage : Percentage;
  lunchPercentage : Percentage;
  dinnerPercentage : Percentage;
  currentStreak : nat;
  longestStreak : nat
}.

(** [Object.keys(attendance).filter(date => date.startsWith(monthKey)).sort()] *)
Definition monthDates (attendance : gmap string Day) (monthKey : string)
  : list string :=
  sort (List.filter (fun date => startsWith date monthKey) (Object_keys attendance)).

(** The [for ... of] loop of [calculateCurrentStreak].  [None] is the
    [TypeError] of reading [day.lunch] when [attendance[date]] is missing. *)
Fixpoint currentStreakLoop (attendance : gmap string Day)
    (sortedDates : list string) (streak : nat) : option nat :=
  match sortedDates with
  | [] => Some streak
  | date :: rest =>
      match attendance !! date with
      | None => None
      | Some day =>
          if lunch day || dinner day
          then currentStreakLoop attendance rest (S streak)
          else Some streak
      end
  end.

Definition calculateCurrentStreak (dates : list string)
    (attendance : gmap string Day) : option nat :=
  let sortedDates := rev (sort dates) in
  currentStreakLoop attendance sortedDates 0.

(** The [forEach] of [calculateLongestStreak], threading
    [(maxStreak, currentStreak)]. *)
Fixpoint longestStreakLoop (attendance : gmap string Day)
    (sortedDates : list string) (maxStreak currentStreak : nat) : option nat :=
  match sortedDates with
  | [] => Some maxStreak
  | date :: rest =>
      match attendance !! date with
      | None => None
      | Some day =>
          if lunch day || dinner day
          then longestStreakLoop attendance rest
                 (Nat.max maxStreak (S currentStreak)) (S currentStreak)
          else longestStreakLoop attendance rest maxStreak 0
      end
  end.

Definition calculateLongestStreak (dates : list string)
    (attendance : gmap string Day) : option nat :=
  let sortedDates := sort dates in
  longestStreakLoop attendance sortedDates 0 0.

(** The counters updated by the [dates.forEach] of [calculateMonthlyStats]. *)
Record Tally := mkTally {
  t_lunch : nat; t_dinner : nat; t_both : nat;
  t_onlyLunch : nat; t_onlyDinner : nat; t_skipped : nat
}.

Definition tallyDay (day : Day) (t : Tally) : Tally :=
  let hasLunch := lunch day in
  let hasDinner := dinner day in
  let t1 := if hasLunch
            then mkTally (S (t_lunch t)) (t_dinner t) (t_both t)
                         (t_onlyLunch t) (t_onlyDinner t) (t_skipped t)
            else t in
  let t2 := if hasDinner
            then mkTally (t_lunch t1) (S (t_dinner t1)) (t_both t1)
                         (t_onlyLunch t1) (t_onlyDinner t1) (t_skipped t1)
            else t1 in
  if hasLunch && hasDinner then
    mkTally (t_lunch t2) (t_dinner t2) (S (t_both t2))
            (t_onlyLunch t2) (t_onlyDinner t2) (t_skipped t2)
  else if hasLunch then
    mkTally (t_lunch t2) (t_dinner t2) (t_both t2)
            (S (t_onlyLunch t2)) (t_onlyDinner t2) (t_skipped t2)
  else if hasDinner then
    mkTally (t_lunch t2) (t_dinner t2) (t_both t2)
            (t_onlyLunch t2) (S (t_onlyDinner t2)) (t_skipped t2)
  else
    mkTally (t_lunch t2) (t_dinner t2) (t_both t2)
            (t_onlyLunch t2) (t_onlyDinner t2) (S (t_skipped t2)).

Fixpoint tallyLoop (attendance : gmap string Day) (dates : list string)
    (t : Tally) : option Tally :=
  match dates with
  | [] => Some t
  | date :: rest =>
      match attendance !! date with
      | None => None
      | Some day => tallyLoop attendance rest (tallyDay day t)
      end
  end.

(** [calculateMonthlyStats], for the month shown ([this.currentMonth]).
    The weekday, weekly, daily-pattern, comparison and prediction fields
    are presentation data derived from the same counters and are left out. *)
Definition calculateMonthlyStats (currentMonth : JsDate)
    (attendance : gmap string Day) : option Stats :=
  let monthKey := monthKeyOf currentMonth in
  let dates := monthDates attendance monthKey in
  let totalDays := length dates in
  t ← tallyLoop attendance dates (mkTally 0 0 0 0 0 0);
  let totalMealsAttended := (t_lunch t + t_dinner t)%nat in
  let totalPossibleMeals := (totalDays * 2)%nat in
  let attendancePercentage :=
    if (0 <? totalPossibleMeals)%nat
    then PText (percentFixed1 totalMealsAttended totalPossibleMeals)
    else PNumber 0 in
  let lunchPercentage :=
    if (0 <? totalDays)%nat then PText (percentFixed1 (t_lunch t) totalDays)
    else PNumber 0 in
  let dinnerPercentage :=
    if (0 <? totalDays)%nat then PText (percentFixed1 (t_dinner t) totalDays)
    else PNumber 0 in
  currentStreak ← calculateCurrentStreak dates attendance;
  longestStreak ← calculateLongestStreak dates attendance;
  Some (mkStats monthKey totalDays (t_lunch t) (t_dinner t) (t_both t)
          (t_onlyLunch t) (t_onlyDinner t) (t_skipped t)
          totalMealsAttended totalPossibleMeals
          attendancePercentage lunchPercentage dinnerPercentage
          currentStreak longestStreak).

End StatisticsManager.

(** ** UndoManager

    The state is the log, the cursor and the application document.  The
    toasts, the dashboard refresh and the writes to [localStorage]
    ([saveData], [saveHistory]) that the methods also perform do not feed
    back into it; what [saveHistory] writes and what [loadHistory] reads
    are modelled on their own. *)

Module UndoManager.

(** One element of [action.data.changes] of a bulk edit, with the fields
    [undoBulkEdit] and [redoBulkEdit] read.  A change without [newValue]
    (the ones [batchMarkAttendance] records have none) is not of this
    type. *)
Record Change := mkChange {
  c_date : string;
  oldValue : option Day;
  newValue : Day
}.

(** The [{type, data}] object handed to [recordAction], by [type].  The
    last constructor is every other type (such as ['export']), which the
    two dispatchers send to their [default] branch. *)
Inductive Action :=
| mark_attendance (date : string) (mealType : Meal) (previousState : bool)
| unmark_attendance (date : string) (mealType : Meal) (previousState : bool)
| add_note (date note : string)
| edit_note (date : string) (oldNote : option string) (newNote : string)
| delete_note (date note : string)
| bulk_edit (changes : list Change)
| delete_data (attendance : gmap string Day) (notes : gmap string string)
              (summaries : gmap string Summary)
| other_type (type : string).

(** A history element: the action spread, plus [timestamp] and [id]. *)
Record Entry := mkEntry {
  action : Action;
  timestamp : Z;
  id : string
}.

(** The manager together with the application document it edits
    ([this.app.data]). *)
Record t := mk {
  app_data : Data;
  history : list Entry;
  currentIndex : Z
}.

Definition maxHistorySize : nat := 50.

(** What a call hands back: a returned value, or a thrown [TypeError],
    or, for a call that has run the unguarded [this.app.saveData()] on
    the document [d], the value [b] it returns if the four
    [localStorage.setItem] of [saveData] are accepted; if one of them
    throws, its exception leaves the call instead. *)
Inductive Completion :=
| Return (b : bool)
| Throw
| Saves (d : Data) (b : bool).

(** How a call ends once the browser has decided whether the writes of
    [saveData()] on a document throw: [None] is an exception. *)
Definition completes (saveDataThrows : Data → bool) (c : Completion) : option bool :=
  match c with
  | Return b => Some b
  | Throw => None
  | Saves d b => if saveDataThrows d then None else Some b
  end.

(** [a.slice(0, e)]: a negative end counts from the end of the array. *)
Definition slice0 {A} (a : list A) (e : Z) : list A :=
  let len := Z.of_nat (length a) in
  let k := if e <? 0 then Z.max (len + e) 0 else Z.min e len in
  take (Z.to_nat k) a.

(** [a[i]] for an integer [i]; [None] is [undefined]. *)
Definition nthZ {A} (a : list A) (i : Z) : option A :=
  if i <? 0 then None else a !! Z.to_nat i.

(** [recordAction(action)]; [now] and [newId] are what [Date.now()] and
    [generateId()] return during the call. *)
Definition recordAction (action : Action) (now : Z) (newId : string) (u : t) : t :=
  let history1 := slice0 (history u) (currentIndex u + 1) in
  let history2 := history1 ++ [mkEntry action now newId] in
  if (maxHistorySize <? length history2)%nat
  then mk (app_data u) (tail history2) (currentIndex u)
  else mk (app_data u) history2 (currentIndex u + 1).

Definition canUndo (u : t) : bool := 0 <=? currentIndex u.

Definition canRedo (u : t) : bool :=
  currentIndex u <? Z.of_nat (length (history u)) - 1.

(** Truthiness of [notes[date]] and of [oldNote]: present and not empty. *)
Definition truthy (s : option string) : bool :=
  match s with
  | Some s => negb (String.eqb s "")
  | None => false
  end.

Definition withAttendance (f : gmap string Day → gmap string Day) (d : Data) : Data :=
  mkData (f (attendance d)) (summaries d) (notes d) (settings d).

Definition withNotes (f : gmap string string → gmap string string) (d : Data) : Data :=
  mkData (attendance d) (summaries d) (f (notes d)) (settings d).

(** [attendance[date][mealType] = b], after creating a missing record as
    [{ lunch: false, dinner: false }]. *)
Definition createAndSet (date : string) (m : Meal) (b : bool)
    (a : gmap string Day) : gmap string Day :=
  <[date := setMeal m b (default (mkDay false false) (a !! date))]> a.

(** [if (attendance[date]) attendance[date][mealType] = b]. *)
Definition setIfPresent (date : string) (m : Meal) (b : bool)
    (a : gmap string Day) : gmap string Day :=
  alter (setMeal m b) date a.

Definition undoMarkAttendance date m := withAttendance (setIfPresent date m false).
Definition redoMarkAttendance date m := withAttendance (createAndSet date m true).
Definition undoUnmarkAttendance date m := withAttendance (createAndSet date m true).
Definition redoUnmarkAttendance date m := withAttendance (setIfPresent date m false).

Definition undoAddNote (date : string) : Data → Data :=
  withNotes (fun n => if truthy (n !! date) then delete date n else n).
Definition redoAddNote (date note : string) : Data → Data :=
  withNotes (insert date note).

Definition undoEditNote (date : string) (oldNote : option string) : Data → Data :=
  withNotes (fun n =>
    match oldNote with
    | Some o => if truthy oldNote then <[date := o]> n else delete date n
    | None => delete date n
    end).
Definition redoEditNote (date newNote : string) : Data → Data :=
  withNotes (insert date newNote).

Definition undoDeleteNote (date note : string) : Data → Data :=
  withNotes (insert date note).
Definition redoDeleteNote (date : string) : Data → Data :=
  withNotes (fun n => if truthy (n !! date) then delete date n else n).

(** The two [changes.forEach] loops.  Values are copied: no history the
    results below range over installs a record of the log in the
    document and edits it afterwards. *)
Definition undoBulkEdit (changes : list Change) : Data → Data :=
  withAttendance (fun a =>
    foldl (fun a change =>
             match oldValue change with
             | Some v => <[c_date change := v]> a
             | None => delete (c_date change) a
             end) a changes).
Definition redoBulkEdit (changes : list Change) : Data → Data :=
  withAttendance (fun a =>
    foldl (fun a change => <[c_date change := newValue change]> a) a changes).

Definition undoDeleteData (a : gmap string Day) (n : gmap string string)
    (s : gmap string Summary) (d : Data) : Data :=
  mkData a s n (settings d).
Definition redoDeleteData (d : Data) : Data :=
  mkData ∅ ∅ ∅ (settings d).

(** Whether the handler of the action reaches its [this.app.saveData()]:
    four handlers call it only inside their [if]; the [default] branch
    of the dispatchers never does. *)
Definition undoSaves (act : Action) (d : Data) : bool :=
  match act with
  | mark_attendance date _ _ => bool_decide (is_Some (attendance d !! date))
  | add_note date _ => truthy (notes d !! date)
  | other_type _ => false
  | _ => true
  end.

Definition redoSaves (act : Action) (d : Data) : bool :=
  match act with
  | unmark_attendance date _ _ => bool_decide (is_Some (attendance d !! date))
  | delete_note date _ => truthy (notes d !! date)
  | other_type _ => false
  | _ => true
  end.

(** The completion of a call that returns [b] after a handler that did,
    or did not, run [saveData()] on the document [d]. *)
Definition afterHandler (saves : bool) (d : Data) (b : bool) : Completion :=
  if saves then Saves d b else Return b.

Definition executeUndo (act : Action) (d : Data) : Data :=
  match act with
  | mark_attendance date m _ => undoMarkAttendance date m d
  | unmark_attendance date m _ => undoUnmarkAttendance date m d
  | add_note date _ => undoAddNote date d
  | edit_note date oldNote _ => undoEditNote date oldNote d
  | delete_note date note => undoDeleteNote date note d
  | bulk_edit changes => undoBulkEdit changes d
  | delete_data a n s => undoDeleteData a n s d
  | other_type _ => d
  end.

Definition executeRedo (act : Action) (d : Data) : Data :=
  match act with
  | mark_attendance date m _ => redoMarkAttendance date m d
  | unmark_attendance date m _ => redoUnmarkAttendance date m d
  | add_note date note => redoAddNote date note d
  | edit_note date _ newNote => redoEditNote date newNote d
  | delete_note date _ => redoDeleteNote date d
  | bulk_edit changes => redoBulkEdit changes d
  | delete_data _ _ _ => redoDeleteData d
  | other_type _ => d
  end.

(** [undo()].  Reading [.type] of a missing history element throws after
    the cursor has moved.  The handler changes the document before it
    calls [saveData()], and nothing between the handler and [return true]
    changes the manager ([saveHistory] catches its own exceptions), so
    the manager afterwards is the same whether [saveData()] throws or
    not. *)
Definition undo (u : t) : t * Completion :=
  if negb (canUndo u) then (u, Return false)
  else
    match nthZ (history u) (currentIndex u) with
    | Some e =>
        (mk (executeUndo (action e) (app_data u)) (history u) (currentIndex u - 1),
         afterHandler (undoSaves (action e) (app_data u))
                      (executeUndo (action e) (app_data u)) true)
    | None => (mk (app_data u) (history u) (currentIndex u - 1), Throw)
    end.

(** [redo()]. *)
Definition redo (u : t) : t * Completion :=
  if negb (canRedo u) then (u, Return false)
  else
    match nthZ (history u) (currentIndex u + 1) with
    | Some e =>
        (mk (executeRedo (action e) (app_data u)) (history u) (currentIndex u + 1),
         afterHandler (redoSaves (action e) (app_data u))
                      (executeRedo (action e) (app_data u)) true)
    | None => (mk (app_data u) (history u) (currentIndex u + 1), Throw)
    end.

Definition clearHistory (u : t) : t := mk (app_data u) [] (-1).

(** The item under ['messtrack_undo_history']: text that [JSON.parse]
    rejects, or the parsed object with its two optional fields. *)
Inductive StoredHistory :=
| Unparsable
| Parsed (s_history : option (list Entry)) (s_currentIndex : option Z).

(** What [saveHistory] writes. *)
Definition saveHistory (u : t) : StoredHistory :=
  Parsed (Some (history u)) (Some (currentIndex u)).

(** [x || -1] on a number or [undefined]: 0 is falsy. *)
Definition orMinusOne (x : option Z) : Z :=
  match x with
  | Some n => if n =? 0 then -1 else n
  | None => -1
  end.

(** [loadHistory()], on what [localStorage.getItem] returned ([None] is
    [null]). *)
Definition loadHistory (saved : option StoredHistory) (u : t) : t :=
  match saved with
  | None => u
  | Some Unparsable => mk (app_data u) [] (-1)
  | Some (Parsed h ci) => mk (app_data u) (default [] h) (orMinusOne ci)
  end.

(** [new UndoManager(app)]: empty log, cursor -1, then [init()] loads
    what is in storage. *)
Definition constructor (app : Data) (saved : option StoredHistory) : t :=
  loadHistory saved (mk app [] (-1)).

(** [n] calls in a row, whatever each one returns. *)
Definition undoN (n : nat) (u : t) : t := Nat.iter n (fun u => (undo u).1) u.
Definition redoN (n : nat) (u : t) : t := Nat.iter n (fun u => (redo u).1) u.

End UndoManager.

(** ** MessTrack (app.js) *)

Module MessTrack.

Import UndoManager.

(** [markAttendance(type)] with [window.undoManager] installed; [today]
    is the clock reading of the call. *)
Definition markAttendance (today : JsDate) (type : string) (now : Z)
    (newId : string) (u : UndoManager.t) : UndoManager.t :=
  match mealOfString type with
  | None => u
  | Some m =>
      let today := getTodayString today in
      let a0 := attendance (app_data u) in
      let a1 := match a0 !! today with
                | Some _ => a0
                | None => <[today := mkDay false false]> a0
                end in
      let previousState :=
        getMeal m (default (mkDay false false) (a1 !! today)) in
      let a2 := alter (setMeal m (negb previousState)) today a1 in
      let actionType :=
        if negb previousState then mark_attendance else unmark_attendance in
      recordAction (actionType today m previousState) now newId
        (mk (withAttendance (fun _ => a2) (app_data u)) (history u) (currentIndex u))
  end.

(** The counting [forEach] of [archivePreviousMonth]. *)
Definition countMonth (monthKey : string) (entries : list (string * Day))
  : nat * nat * nat :=
  foldl (fun '(lunchCount, dinnerCount, totalDays) '(date, meals) =>
           if startsWith date monthKey
           then ((if lunch meals then S lunchCount else lunchCount),
                 (if dinner meals then S dinnerCount else dinnerCount),
                 S totalDays)
           else (lunchCount, dinnerCount, totalDays))
        (0, 0, 0)%nat entries.

(** The month [archivePreviousMonth] files the summary under:
    [previousMonth.setMonth(previousMonth.getMonth() - 1)] on today's date. *)
Definition archiveMonthKey (today : JsDate) : string :=
  let previousMonth := setMonth today (getMonth today - 1) in
  monthKeyOf previousMonth.

(** [archivePreviousMonth()]; the GitHub sync it may start does not touch
    the document. *)
Definition archivePreviousMonth (today : JsDate) (d : Data) : Data :=
  let monthKey := archiveMonthKey today in
  let '(lunchCount, dinnerCount, totalDays) :=
    countMonth monthKey (map_to_list (attendance d)) in
  if (0 <? totalDays)%nat then
    let totalPossibleMeals := (totalDays * 2)%nat in
    let totalAttended := (lunchCount + dinnerCount)%nat in
    let percentage := percentFixed1 totalAttended totalPossibleMeals in
    let summary := mkSummary lunchCount dinnerCount totalDays percentage in
    mkData (attendance d) (<[monthKey := summary]> (summaries d)) (notes d)
           (settings d)
  else d.

(** [checkAndAutoReset()]; [lastReset] is the item
    ['messtrack_last_reset'] ([None] is [null]). *)
Definition checkAndAutoReset (today : JsDate) (st : Data * option string)
  : Data * option string :=
  let '(d, lastReset) := st in
  let currentMonth := monthKeyOf today in
  if decide (lastReset = Some currentMonth) then (d, lastReset)
  else
    let d' := if decide (attendance d = ∅) then d
              else archivePreviousMonth today d in
    (d', Some currentMonth).

End MessTrack.

(** ** StorageManager *)

Module StorageManager.

(** The [name] of what [localStorage.setItem] threw. *)
Inductive ErrorName :=
| QuotaExceededError
| NS_ERROR_DOM_QUOTA_REACHED
| OtherError (name : string).

Definition isQuotaError (e : ErrorName) : bool :=
  match e with
  | QuotaExceededError | NS_ERROR_DOM_QUOTA_REACHED => true
  | OtherError _ => false
  end.

(** [Date.prototype.toISOString().split('T')[0]], the calendar fields
    of the date standing for its UTC ones. *)
Definition isoDate (t : JsDate) : string :=
  padStart 4 "0" (String_of (getFullYear t)) +:+ "-" +:+
  padStart 2 "0" (String_of (getMonth t + 1)) +:+ "-" +:+
  padStart 2 "0" (String_of (getDate t)).

(** [cutoffDate] of [cleanOldData]: two years before [now]. *)
Definition cutoffDate (now : JsDate) : string :=
  let twoYearsAgo := setFullYear now (getFullYear now - 2) in
  isoDate twoYearsAgo.

Section Browser.

(** The JSON values kept under the date keys of a stored document. *)
Context {V : Type}.

(** A stored text, by what [JSON.parse] makes of it: an object keyed by
    strings, an array (an element [None] is [null]), a number or a
    boolean (kept as its text), a string, [null], or a text that is not
    JSON. *)
Inductive Item :=
| Doc (o : gmap string V)
| Arr (a : list (option V))
| Atom (text : string)
| Str (s : string)
| Null
| Text (s : string).

Definition Storage := gmap string Item.

(** The browser decides whether a write fails, from what is stored and
    what is written; a write that does not fail replaces the item. *)
Variable setItemError : Storage → string → Item → option ErrorName.

Definition setItem (st : Storage) (key : string) (value : Item)
  : ErrorName + Storage :=
  match setItemError st key value with
  | Some e => inl e
  | None => inr (<[key := value]> st)
  end.

(** [JSON.parse(localStorage.getItem(key) || '{}')]: the value parsed,
    or [None] for the [SyntaxError] of a text that is not JSON.  A
    missing item and the empty text stand for ['{}']. *)
Definition parseItem (st : Storage) (key : string) : option Item :=
  match st !! key with
  | None => Some (Doc ∅)
  | Some (Text s) => if String.eqb s "" then Some (Doc ∅) else None
  | Some item => Some item
  end.

(** The entries the two [forEach] loops delete, and the ones they keep. *)
Definition isOld (cutoffDate : string) (date : string) : bool :=
  str_lt date cutoffDate.

Definition keepRecent (cutoffDate : string) (o : gmap string V) : gmap string V :=
  filter (fun kv => isOld cutoffDate kv.1 = false) o.

Definition countOld (cutoffDate : string) (o : gmap string V) : nat :=
  size (filter (fun kv : string * V => isOld cutoffDate kv.1 = true) o).

(** The keys [Object.keys] gives for an array or a string of [n]
    elements: the indices, as texts. *)
Definition indexKeys (n : nat) : list string :=
  (fun i => String_of (Z.of_nat i)) <$> seq 0 n.

(** One of the two [Object.keys(value).forEach] loops, on a parsed
    value: the value as [JSON.stringify] will write it, and how much the
    loop added to [cleaned].  A deleted array element is written as
    [null].  [None] is a [TypeError]: of [Object.keys(null)], or of
    deleting a character of a string (the class body is strict code). *)
Definition cleanValue (cutoffDate : string) (value : Item) : option (Item * nat) :=
  match value with
  | Doc o => Some (Doc (keepRecent cutoffDate o), countOld cutoffDate o)
  | Arr a =>
      Some (Arr (imap (fun i x => if isOld cutoffDate (String_of (Z.of_nat i))
                                  then None else x) a),
            length (List.filter (isOld cutoffDate) (indexKeys (length a))))
  | Atom text => Some (Atom text, 0%nat)
  | Str s =>
      if existsb (isOld cutoffDate) (indexKeys (String.length s)) then None
      else Some (Str s, 0%nat)
  | Null => None
  | Text _ => None
  end.

(** [cleanOldData()]: the storage afterwards and the number returned.
    Every exception inside is caught and turned into 0. *)
Definition cleanOldData (now : JsDate) (st : Storage) : Storage * nat :=
  let cutoffDate := cutoffDate now in
  match parseItem st "messtrack_attendance", parseItem st "messtrack_notes" with
  | Some attendance, Some notes =>
      match cleanValue cutoffDate attendance with
      | None => (st, 0%nat)
      | Some (attendance', cleanedAttendance) =>
          match cleanValue cutoffDate notes with
          | None => (st, 0%nat)
          | Some (notes', cleanedNotes) =>
              let cleaned := (cleanedAttendance + cleanedNotes)%nat in
              if (0 <? cleaned)%nat then
                match setItem st "messtrack_attendance" attendance' with
                | inl _ => (st, 0%nat)
                | inr st1 =>
                    match setItem st1 "messtrack_notes" notes' with
                    | inl _ => (st1, 0%nat)
                    | inr st2 => (st2, cleaned)
                    end
                end
              else (st, cleaned)
          end
      end
  | _, _ => (st, 0%nat)
  end.

Inductive Outcome := Returned (b : bool) | Rethrown (e : ErrorName).

(** A finished call of [safeSetItem]: the storage, the toasts shown, how
    the call ended, and how many times the call itself invoked
    [localStorage.setItem(key, value)]. *)
Record Run := mkRun {
  storage : Storage;
  toasts : list string;
  outcome : Outcome;
  attempts : nat
}.

(** The toast of [safeSetItem], as the bytes of its UTF-8 text. *)
Definition storageFullToast : string :=
  "⚠️ Storage full. Please export and clear old data.".

(** [safeSetItem(key, value)]; [messTrack] tells whether
    [window.messTrack] is set. *)
Definition safeSetItem (now : JsDate) (messTrack : bool)
    (key : string) (value : Item) (st : Storage) : Run :=
  match setItem st key value with
  | inr st' => mkRun st' [] (Returned true) 1
  | inl e =>
      if isQuotaError e then
        let '(st1, cleaned) := cleanOldData now st in
        if (0 <? cleaned)%nat then
          match setItem st1 key value with
          | inr st2 => mkRun st2 [] (Returned true) 2
          | inl retryError => mkRun st1 [] (Returned false) 2
          end
        else
          mkRun st1 (if messTrack then [storageFullToast] else [])
                (Returned false) 1
      else mkRun st [] (Rethrown e) 1
  end.

End Browser.

Arguments Item : clear implicits.
Arguments Storage : clear implicits.
Arguments Run : clear implicits.

End StorageManager.

(** ** NotificationManager *)

Module NotificationManager.

Record Scheduled := mkScheduled {
  n_id : string;
  mealType : string;
  time : string;
  title : string;
  body : string
}.

Record t := mk {
  permission : string;
  scheduledNotifications : list Scheduled;
  lastCheckedMinute : option string
}.

(** A reading of [new Date()]: the calendar date and the time of day. *)
Record Clock := mkClock {
  day : JsDate;
  getHours : Z;
  getMinutes : Z
}.

Definition currentTimeOf (now : Clock) : string :=
  padStart 2 "0" (String_of (getHours now)) +:+ ":" +:+
  padStart 2 "0" (String_of (getMinutes now)).

(** [attendance && attendance[notification.mealType]], as a truth value,
    where [attendance] is today's record: the flag of a meal, the
    truthy inherited property for a name of [Object.prototype], and
    [undefined] for any other name. *)
Definition isMarked (attendance : gmap string Day) (today mealType : string) : bool :=
  match attendance !! today with
  | None => false
  | Some d =>
      match mealOfString mealType with
      | Some m => getMeal m d
      | None => inherited mealType
      end
  end.

(** [checkScheduledNotifications()]: the manager afterwards and the
    reminders sent, in order (each one through [showNotification] and
    [showInAppNotification]). *)
Definition checkScheduledNotifications (now : Clock)
    (attendance : gmap string Day) (nm : t) : t * list Scheduled :=
  let currentTime := currentTimeOf now in
  let today := getTodayString (day now) in
  if decide (lastCheckedMinute nm = Some currentTime) then (nm, [])
  else
    (mk (permission nm) (scheduledNotifications nm) (Some currentTime),
     List.filter (fun notification =>
                    String.eqb (time notification) currentTime &&
                    negb (isMarked attendance today (mealType notification)))
                 (scheduledNotifications nm)).

(** A run of checks, each with the clock reading and the attendance map
    of its moment; the reminders of every check are collected. *)
Fixpoint checks (cs : list (Clock * gmap string Day)) (nm : t)
  : t * list (list Scheduled) :=
  match cs with
  | [] => (nm, [])
  | (now, attendance) :: rest =>
      let '(nm1, sent) := checkScheduledNotifications now attendance nm in
      let '(nm2, sents) := checks rest nm1 in
      (nm2, sent :: sents)
  end.

End NotificationManager.

(** * Results *)

(** A list is empty or ends in an element. *)
Lemma snoc_or_nil {X} (l : list X) : l = [] ∨ ∃ l' x, l = l' ++ [x].
Proof. induction l using rev_ind; [by left | right; eauto]. Qed.

(** ** Statistics and streaks *)

Module StatisticsFacts.

Import StatisticsManager.

(** A date counts towards a streak when its record has a meal marked. *)
Definition attended (attendance : gmap string Day) (date : string) : bool :=
  match attendance !! date with
  | Some day => lunch day || dinner day
  | None => false
  end.

(** A fully-skipped date: recorded, with both meals false. *)
Definition skipped (attendance : gmap string Day) (date : string) : bool :=
  match attendance !! date with
  | Some day => negb (lunch day) && negb (dinner day)
  | None => false
  end.



Definition Attended (attendance : gmap string Day) (date : string) : Prop :=
  attended attendance date = true.

Section Runs.

Variable attendance : gmap string Day.

Local Abbreviation A := (Attended attendance).

(** [n] is the length of the longest all-attended suffix of [p]. *)
Definition IsTrailingRun (p : list string) (n : nat) : Prop :=
  (∃ pre run, p = pre ++ run ∧ length run = n ∧ Forall A run) ∧
  (∀ pre run, p = pre ++ run → Forall A run → (length run ≤ n)%nat).

(** [n] is the length of the longest all-attended contiguous stretch of [p]. *)
Definition IsMaxRun (p : list string) (n : nat) : Prop :=
  (∃ pre run post, p = pre ++ run ++ post ∧ length run = n ∧ Forall A run) ∧
  (∀ pre run post, p = pre ++ run ++ post → Forall A run → (length run ≤ n)%nat).

Lemma suffix_snoc_inv (p : list string) d pre run :
  p ++ [d] = pre ++ run →
  run = [] ∨ ∃ run', run = run' ++ [d] ∧ p = pre ++ run'.
Proof.
  destruct (snoc_or_nil run) as [-> | (run' & d' & ->)]; [by left |].
  rewrite app_assoc. intros [-> ->]%app_inj_tail. right; eauto.
Qed.

Lemma trailing_nil : IsTrailingRun [] 0.
Proof.
  split.
  - by exists [], [].
  - intros pre run H _. symmetry in H. apply app_eq_nil in H as [_ ->]. done.
Qed.

Lemma trailing_snoc_attended p n d :
  IsTrailingRun p n → attended attendance d = true →
  IsTrailingRun (p ++ [d]) (S n).
Proof.
  intros [(pre & run & -> & <- & Hrun) Hmax] Hd. split.
  - exists pre, (run ++ [d]). rewrite app_assoc, length_app. simpl.
    split_and!; [done | lia |]. apply Forall_app; split; [done | by constructor].
  - intros pre' run' Heq Hall.
    apply suffix_snoc_inv in Heq as [-> | (run'' & -> & Heq)]; [simpl; lia |].
    apply Forall_app in Hall as [Hall _].
    specialize (Hmax _ _ Heq Hall). rewrite length_app. simpl. lia.
Qed.

Lemma trailing_snoc_missed p n d :
  IsTrailingRun p n → attended attendance d = false →
  IsTrailingRun (p ++ [d]) 0.
Proof.
  intros _ Hd. split.
  - exists (p ++ [d]), []. by rewrite app_nil_r.
  - intros pre' run' Heq Hall.
    apply suffix_snoc_inv in Heq as [-> | (run'' & -> & Heq)]; [done |].
    apply Forall_app in Hall as [_ Hall]. inversion Hall; congruence.
Qed.

Lemma maxrun_nil : IsMaxRun [] 0.
Proof.
  split.
  - by exists [], [], [].
  - intros pre run post H _. symmetry in H.
    apply app_eq_nil in H as [_ H]. apply app_eq_nil in H as [-> _]. done.
Qed.

Lemma maxrun_snoc_attended p mx n d :
  IsMaxRun p mx → IsTrailingRun p n → attended attendance d = true →
  IsMaxRun (p ++ [d]) (Nat.max mx (S n)).
Proof.
  intros [(pre & run & post & Hp & Hlen & Hrun) Hmax] Htr Hd.
  pose proof (trailing_snoc_attended _ _ _ Htr Hd) as [(pre1 & run1 & Hp1 & Hlen1 & Hrun1) Hmax1].
  split.
  - destruct (Nat.max_spec mx (S n)) as [[_ ->] | [_ ->]].
    + exists pre1, run1, []. by rewrite app_nil_r.
    + exists pre, run, (post ++ [d]). rewrite Hp, <- !app_assoc. done.
  - intros pre' run' post' Heq Hall.
    destruct (snoc_or_nil post') as [-> | (post'' & d' & ->)].
    + rewrite app_nil_r in Heq. specialize (Hmax1 _ _ Heq Hall). lia.
    + rewrite !app_assoc in Heq. apply app_inj_tail in Heq as [Heq _].
      rewrite <- app_assoc in Heq. specialize (Hmax _ _ _ Heq Hall). lia.
Qed.

Lemma maxrun_snoc_missed p mx n d :
  IsMaxRun p mx → IsTrailingRun p n → attended attendance d = false →
  IsMaxRun (p ++ [d]) mx.
Proof.
  intros [(pre & run & post & Hp & Hlen & Hrun) Hmax] Htr Hd.
  pose proof (trailing_snoc_missed _ _ _ Htr Hd) as [_ Hmax0].
  split.
  - exists pre, run, (post ++ [d]). rewrite Hp, <- !app_assoc. done.
  - intros pre' run' post' Heq Hall.
    destruct (snoc_or_nil post') as [-> | (post'' & d' & ->)].
    + rewrite app_nil_r in Heq. specialize (Hmax0 _ _ Heq Hall). lia.
    + rewrite !app_assoc in Heq. apply app_inj_tail in Heq as [Heq _].
      rewrite <- app_assoc in Heq. specialize (Hmax _ _ _ Heq Hall). lia.
Qed.

(** The loop of [calculateLongestStreak] keeps both counters exact. *)
Lemma longestStreakLoop_inv l : ∀ p mx n,
  Forall (fun d => is_Some (attendance !! d)) l →
  IsMaxRun p mx → IsTrailingRun p n →
  ∃ r, longestStreakLoop attendance l mx n = Some r ∧ IsMaxRun (p ++ l) r.
Proof.
  induction l as [| d l IH]; intros p mx n Hdom Hmx Htr.
  - exists mx. by rewrite app_nil_r.
  - apply Forall_cons in Hdom as [[day Hday] Hdom]. simpl. rewrite Hday.
    replace (p ++ d :: l) with ((p ++ [d]) ++ l) by by rewrite <- app_assoc.
    destruct (lunch day || dinner day) eqn:Hb.
    + apply IH; [done | |].
      * apply maxrun_snoc_attended; [done.. |]. unfold attended. by rewrite Hday.
      * apply trailing_snoc_attended; [done |]. unfold attended. by rewrite Hday.
    + apply IH; [done | |].
      * eapply maxrun_snoc_missed; [done.. |]. unfold attended. by rewrite Hday.
      * eapply trailing_snoc_missed; [done |]. unfold attended. by rewrite Hday.
Qed.

(** The loop of [calculateCurrentStreak] counts the leading attended
    entries of the list it walks and stops at the first other one. *)
Lemma currentStreakLoop_spec l : ∀ k,
  Forall (fun d => is_Some (attendance !! d)) l →
  ∃ run rest, l = run ++ rest ∧
    currentStreakLoop attendance l k = Some (k + length run)%nat ∧
    Forall A run ∧
    (rest = [] ∨ ∃ d rest', rest = d :: rest' ∧ skipped attendance d = true).
Proof.
  induction l as [| d l IH]; intros k Hdom.
  - exists [], []. simpl. rewrite Nat.add_0_r. auto.
  - apply Forall_cons in Hdom as [[day Hday] Hdom]. simpl. rewrite Hday.
    destruct (lunch day || dinner day) eqn:Hb.
    + destruct (IH (S k) Hdom) as (run & rest & -> & Hloop & Hrun & Hrest).
      exists (d :: run), rest. simpl. rewrite Hloop.
      split_and!; [done | f_equal; lia | | done].
      constructor; [| done]. unfold Attended, attended. by rewrite Hday.
    + exists [], (d :: l). simpl. rewrite Nat.add_0_r.
      split_and!; [done.. |]. right. exists d, l. split; [done |].
      unfold skipped. rewrite Hday.
      apply orb_false_elim in Hb as [-> ->]. done.
Qed.

Lemma skipped_not_attended d :
  skipped attendance d = true → attended attendance d = false.
Proof.
  unfold skipped, attended. destruct (attendance !! d) as [day |]; [| done].
  destruct (lunch day), (dinner day); done.
Qed.

(** A run that starts right after a fully-skipped entry, or at the start
    of the list, is the trailing run. *)
Lemma trailing_of_boundary pre run :
  Forall A run →
  (pre = [] ∨ ∃ pre' d, pre = pre' ++ [d] ∧ skipped attendance d = true) →
  IsTrailingRun (pre ++ run) (length run).
Proof.
  intros Hrun Hpre. split; [by exists pre, run |].
  intros pre2 run2 Heq Hall.
  destruct (decide (length run2 ≤ length run)%nat) as [| Hlt]; [done | exfalso].
  assert (Hlen : (length pre + length run = length pre2 + length run2)%nat).
  { by rewrite <- !length_app, Heq. }
  destruct Hpre as [-> | (pre' & d & -> & Hd)]; [simpl in Hlen; lia |].
  rewrite length_app in Hlen. simpl in Hlen.
  assert (Hlook : (pre2 ++ run2) !! length pre' = Some d).
  { rewrite <- Heq, <- app_assoc. by apply list_lookup_middle. }
  rewrite lookup_app_r in Hlook by lia.
  apply list_elem_of_lookup_2 in Hlook.
  rewrite Forall_forall in Hall. specialize (Hall _ Hlook).
  apply skipped_not_attended in Hd. simpl in Hall. congruence.
Qed.

End Runs.

Lemma sort_recorded (attendance : gmap string Day) (dates : list string) :
  Forall (fun d => is_Some (attendance !! d)) dates →
  Forall (fun d => is_Some (attendance !! d)) (sort dates).
Proof.
  intros H. unfold sort.
  eapply Permutation_Forall; [| exact H]. symmetry. apply merge_sort_Permutation.
Qed.

Lemma sort_sorted (l : list string) : Sorted String.le l → sort l = l.
Proof.
  intros Hl. apply (Sorted_unique String.le); [| done |].
  - apply (Sorted_merge_sort String.le).
  - apply merge_sort_Permutation.
Qed.

Lemma sort_idempotent (l : list string) : sort (sort l) = sort l.
Proof. apply sort_sorted, (Sorted_merge_sort String.le). Qed.

(** The dates of a month are keys of the map, so their records exist. *)
Lemma monthDates_recorded (attendance : gmap string Day) (monthKey : string) :
  Forall (fun d => is_Some (attendance !! d)) (monthDates attendance monthKey).
Proof.
  unfold monthDates. apply sort_recorded, Forall_forall. intros d Hd.
  apply list_elem_of_In, filter_In in Hd as [Hd _].
  apply list_elem_of_In in Hd. unfold Object_keys in Hd.
  apply list_elem_of_fmap in Hd as ([d' day] & -> & Hin).
  apply elem_of_map_to_list in Hin. by exists day.
Qed.

Lemma sort_monthDates (attendance : gmap string Day) (monthKey : string) :
  sort (monthDates attendance monthKey) = monthDates attendance monthKey.
Proof. apply sort_idempotent. Qed.

Lemma monthDates_elem (attendance : gmap string Day) (monthKey date : string) :
  date ∈ monthDates attendance monthKey ↔
  is_Some (attendance !! date) ∧ startsWith date monthKey = true.
Proof.
  unfold monthDates, sort. rewrite merge_sort_Permutation.
  rewrite list_elem_of_In, filter_In, <- list_elem_of_In.
  unfold Object_keys. rewrite list_elem_of_fmap. split.
  - intros [([d day] & -> & Hin) Hpre]. split; [| done].
    apply elem_of_map_to_list in Hin. by exists day.
  - intros [[day Hday] Hpre]. split; [| done].
    exists (date, day). split; [done |]. by apply elem_of_map_to_list.
Qed.

Lemma NoDup_List_filter {X} (f : X → bool) (l : list X) :
  NoDup l → NoDup (List.filter f l).
Proof.
  induction 1 as [| x l Hx _ IH]; simpl; [constructor |].
  destruct (f x); [| done]. constructor; [| done].
  rewrite list_elem_of_In, filter_In, <- list_elem_of_In. tauto.
Qed.

Lemma monthDates_NoDup (attendance : gmap string Day) (monthKey : string) :
  NoDup (monthDates attendance monthKey).
Proof.
  unfold monthDates, sort. rewrite merge_sort_Permutation.
  apply NoDup_List_filter, NoDup_fst_map_to_list.
Qed.

Lemma monthDates_sorted (attendance : gmap string Day) (monthKey : string) :
  Sorted String.le (monthDates attendance monthKey).
Proof. apply (Sorted_merge_sort String.le). Qed.

(** The month's dates do not depend on the order in which the keys are
    enumerated: they are the one sorted, duplicate-free list of the keys
    that start with the month. *)
Lemma monthDates_canonical (attendance : gmap string Day) (monthKey : string)
    (l : list string) :
  Sorted String.le l → NoDup l →
  (∀ date, date ∈ l ↔
           is_Some (attendance !! date) ∧ startsWith date monthKey = true) →
  l = monthDates attendance monthKey.
Proof.
  intros Hsorted Hnodup Hmem.
  apply (Sorted_unique String.le); [done | apply monthDates_sorted |].
  apply NoDup_Permutation; [done | apply monthDates_NoDup |].
  intros date. by rewrite Hmem, monthDates_elem.
Qed.

(** On any list of recorded dates, [calculateCurrentStreak] returns the
    length of the trailing attended run of the sorted list. *)
Lemma calculateCurrentStreak_spec (attendance : gmap string Day) (dates : list string) :
  Forall (fun d => is_Some (attendance !! d)) dates →
  ∃ pre run, sort dates = pre ++ run ∧
    calculateCurrentStreak dates attendance = Some (length run) ∧
    Forall (Attended attendance) run ∧
    (pre = [] ∨ ∃ pre' d, pre = pre' ++ [d] ∧ skipped attendance d = true).
Proof.
  intros Hdom. apply sort_recorded in Hdom.
  apply Forall_rev in Hdom.
  destruct (currentStreakLoop_spec attendance _ 0%nat Hdom)
    as (run & rest & Heq & Hloop & Hrun & Hrest).
  exists (rev rest), (rev run). split_and!.
  - rewrite <- rev_app_distr, <- Heq. by rewrite rev_involutive.
  - unfold calculateCurrentStreak. by rewrite Hloop, length_rev.
  - by apply Forall_rev.
  - destruct Hrest as [-> | (d & rest' & -> & Hd)]; [by left | right].
    exists (rev rest'), d. done.
Qed.

(** On any list of recorded dates, [calculateLongestStreak] returns the
    longest attended stretch of the sorted list. *)
Lemma calculateLongestStreak_spec (attendance : gmap string Day) (dates : list string) :
  Forall (fun d => is_Some (attendance !! d)) dates →
  ∃ l, calculateLongestStreak dates attendance = Some l ∧
       IsMaxRun attendance (sort dates) l.
Proof.
  intros Hdom. apply sort_recorded in Hdom.
  destruct (longestStreakLoop_inv attendance (sort dates) [] 0 0 Hdom)%nat
    as (r & Hr & Hmax); [apply maxrun_nil | apply trailing_nil |].
  by exists r.
Qed.


Definition january2024 : gmap string Day :=
  <["2024-01-01" := mkDay true false]>
  (<["2024-01-02" := mkDay false false]>
  (<["2024-01-03" := mkDay true true]> ∅)).




(** C5: with January 2024 shown and the three-day map of the example,
    [calculateMonthlyStats] returns lunchCount 2, dinnerCount 1,
    bothMealsCount 1, onlyLunchCount 1, skippedBothCount 1 and the
    attendance percentage 50.0 (as the text ["50.0"] of [toFixed(1)]). *)
Theorem monthlyStats_january_example (dayOfMonth : Z) :
  ∃ stats,
    calculateMonthlyStats (mkDate 2024 0 dayOfMonth) january2024 = Some stats ∧
    lunchCount stats = 2%nat ∧ dinnerCount stats = 1%nat ∧
    bothMealsCount stats = 1%nat ∧ onlyLunchCount stats = 1%nat ∧
    skippedBothCount stats = 1%nat ∧
    totalMealsAttended stats = 3%nat ∧ totalPossibleMeals stats = 6%nat ∧
    attendancePercentage stats = PText "50.0".
Proof. eexists. split; [vm_compute; reflexivity |]. repeat split. Qed.

End StatisticsFacts.

(** ** The undo log *)

Module UndoFacts.

Import UndoManager.

(** The log seen from its cursor: the entries up to the cursor (the
    undoable ones) and the entries past it (the redoable ones). *)
Definition ofZipper (d : Data) (front back : list Entry) : t :=
  mk d (front ++ back) (Z.of_nat (length front) - 1).

(** The cursor points into the log (or just before it) and the log is
    within capacity. *)
Definition wf (u : t) : Prop :=
  -1 ≤ currentIndex u < Z.of_nat (length (history u)) ∧
  (length (history u) ≤ maxHistorySize)%nat.

(** The capacity rule of [recordAction]. *)
Definition cap (l : list Entry) : list Entry :=
  if (maxHistorySize <? length l)%nat then tail l else l.

Definition someData : Data :=
  mkData ∅ ∅ ∅ (mkSettings "light" false "12:00" "19:00" "").

(** The calls a client can make on the manager. *)
Inductive Call :=
| CallRecord (a : Action) (now : Z) (newId : string)
| CallUndo
| CallRedo
| CallClear.

Definition call (u : t) (c : Call) : t :=
  match c with
  | CallRecord a now newId => recordAction a now newId u
  | CallUndo => (undo u).1
  | CallRedo => (redo u).1
  | CallClear => clearHistory u
  end.

Definition run (cs : list Call) (u : t) : t := foldl call u cs.

(** [n] recordings in a row. *)
Definition recordAll (acts : list (Action * Z * string)) (u : t) : t :=
  foldl (fun u '(a, now, newId) => recordAction a now newId u) u acts.

Lemma wf_zipper u :
  wf u →
  u = ofZipper (app_data u)
        (take (Z.to_nat (currentIndex u + 1)) (history u))
        (drop (Z.to_nat (currentIndex u + 1)) (history u)).
Proof.
  destruct u as [d h ci]. unfold wf, ofZipper. simpl. intros [Hci Hlen].
  rewrite take_drop, length_take. f_equal. lia.
Qed.

Lemma zipper_wf d front back :
  (length (front ++ back) ≤ maxHistorySize)%nat → wf (ofZipper d front back).
Proof.
  unfold wf, ofZipper. simpl. rewrite !length_app. lia.
Qed.

Lemma wf_zipper_ex u :
  wf u → ∃ front back,
    u = ofZipper (app_data u) front back ∧
    (length (front ++ back) ≤ maxHistorySize)%nat.
Proof.
  intros Hwf. eexists _, _. split; [by apply wf_zipper |].
  rewrite take_drop. apply Hwf.
Qed.

Lemma length_cap l : (length l ≤ S maxHistorySize)%nat → (length (cap l) ≤ maxHistorySize)%nat.
Proof.
  unfold cap. destruct (Nat.ltb_spec maxHistorySize (length l)); [| lia].
  destruct l; simpl in *; lia.
Qed.

Lemma cap_suffix l : cap l `suffix_of` l.
Proof.
  unfold cap. destruct (maxHistorySize <? length l)%nat; [| done].
  destruct l as [| x l]; [done |]. by exists [x].
Qed.

Lemma slice0_front (front back : list Entry) :
  slice0 (front ++ back) (Z.of_nat (length front) - 1 + 1) = front.
Proof.
  unfold slice0. destruct (Z.ltb_spec (Z.of_nat (length front) - 1 + 1) 0); [lia |].
  rewrite length_app. apply take_app_length'. lia.
Qed.

Lemma recordAction_zipper d front back a now newId :
  (length front ≤ maxHistorySize)%nat →
  recordAction a now newId (ofZipper d front back)
  = ofZipper d (cap (front ++ [mkEntry a now newId])) [].
Proof.
  intros Hlen. unfold recordAction, ofZipper, cap. simpl.
  rewrite slice0_front.
  destruct (Nat.ltb_spec maxHistorySize (length (front ++ [mkEntry a now newId]))) as [Hlt | Hle];
    rewrite app_nil_r; f_equal.
  - rewrite length_app in Hlt. simpl in Hlt.
    destruct front as [| x front]; simpl in *; [unfold maxHistorySize in *; lia |].
    rewrite length_app. simpl. lia.
  - rewrite length_app. simpl. lia.
Qed.

Lemma nthZ_middle (front back : list Entry) e :
  nthZ (front ++ e :: back) (Z.of_nat (length front)) = Some e.
Proof.
  unfold nthZ. destruct (Z.ltb_spec (Z.of_nat (length front)) 0); [lia |].
  rewrite Nat2Z.id. by apply list_lookup_middle.
Qed.

Lemma undo_zipper_snoc d front e back :
  undo (ofZipper d (front ++ [e]) back)
  = (ofZipper (executeUndo (action e) d) front (e :: back),
     afterHandler (undoSaves (action e) d) (executeUndo (action e) d) true).
Proof.
  unfold undo, ofZipper, canUndo. simpl. rewrite length_app. simpl.
  destruct (Z.leb_spec 0 (Z.of_nat (length front + 1) - 1)); [simpl | lia].
  replace (Z.of_nat (length front + 1) - 1) with (Z.of_nat (length front)) by lia.
  rewrite <- app_assoc. simpl. rewrite nthZ_middle. done.
Qed.

Lemma undo_zipper_nil d back :
  undo (ofZipper d [] back) = (ofZipper d [] back, Return false).
Proof. done. Qed.

Lemma redo_zipper_cons d front e back :
  redo (ofZipper d front (e :: back))
  = (ofZipper (executeRedo (action e) d) (front ++ [e]) back,
     afterHandler (redoSaves (action e) d) (executeRedo (action e) d) true).
Proof.
  unfold redo, ofZipper, canRedo. simpl. rewrite !length_app. simpl.
  destruct (Z.ltb_spec (Z.of_nat (length front) - 1)
              (Z.of_nat (length front + S (length back)) - 1)); [simpl | lia].
  replace (Z.of_nat (length front) - 1 + 1) with (Z.of_nat (length front)) by lia.
  rewrite nthZ_middle, <- app_assoc. simpl. do 2 f_equal. lia.
Qed.

Lemma redo_zipper_nil d front :
  redo (ofZipper d front []) = (ofZipper d front [], Return false).
Proof.
  unfold redo, ofZipper, canRedo. simpl. rewrite app_nil_r.
  destruct (Z.ltb_spec (Z.of_nat (length front) - 1)
              (Z.of_nat (length front) - 1)); [lia | done].
Qed.

Lemma canRedo_zipper_nil d front : canRedo (ofZipper d front []) = false.
Proof.
  unfold canRedo, ofZipper. simpl. rewrite app_nil_r. apply Z.ltb_irrefl.
Qed.

Lemma canRedo_zipper_cons d front e back :
  canRedo (ofZipper d front (e :: back)) = true.
Proof.
  unfold canRedo, ofZipper. simpl. rewrite length_app. simpl.
  apply Z.ltb_lt. lia.
Qed.

(** Every call keeps the cursor in range and the log within capacity. *)
Lemma call_wf u c : wf u → wf (call u c).
Proof.
  intros Hwf. destruct (wf_zipper_ex u Hwf) as (front & back & -> & Hlen).
  simpl. rewrite length_app in Hlen.
  destruct c as [a now newId | | |]; simpl.
  - rewrite recordAction_zipper by lia. apply zipper_wf.
    rewrite app_nil_r. apply length_cap. rewrite length_app. simpl. lia.
  - destruct (snoc_or_nil front) as [-> | (front' & e & ->)].
    + rewrite undo_zipper_nil. apply zipper_wf. simpl. lia.
    + rewrite undo_zipper_snoc. apply zipper_wf.
      rewrite length_app in *. simpl in *. lia.
  - destruct back as [| e back].
    + rewrite redo_zipper_nil. apply zipper_wf. rewrite app_nil_r. lia.
    + rewrite redo_zipper_cons. apply zipper_wf.
      rewrite !length_app in *. simpl in *. lia.
  - unfold wf, clearHistory. simpl. lia.
Qed.

Lemma run_wf cs : ∀ u, wf u → wf (run cs u).
Proof.
  induction cs as [| c cs IH]; intros u Hwf; [done |].
  simpl. apply IH. by apply call_wf.
Qed.

Lemma constructor_fresh_wf app : wf (constructor app None).
Proof. unfold wf, constructor. simpl. lia. Qed.

(** A reload that finds what the manager saved last keeps the log within
    capacity and the cursor in range as well. *)
Lemma reload_wf (app : Data) (u : t) :
  wf u → wf (constructor app (Some (saveHistory u))).
Proof.
  unfold wf, constructor, saveHistory, loadHistory, orMinusOne. simpl.
  intros [Hci Hlen]. destruct (Z.eqb_spec (currentIndex u) 0); lia.
Qed.

(** [n] recordings numbered from 1. *)
Definition numbered (n : nat) : list Call :=
  (fun i => CallRecord (other_type "export") (Z.of_nat i) "action") <$> seq 1 n.

(** Fifty-one recordings leave fifty entries, the first recording gone. *)
Example fifty_one_recordings :
  length (history (run (numbered 51) (constructor someData None))) = 50%nat ∧
  currentIndex (run (numbered 51) (constructor someData None)) = 49 ∧
  (timestamp <$> head (history (run (numbered 51) (constructor someData None)))) = Some 2 ∧
  (timestamp <$> last (history (run (numbered 51) (constructor someData None)))) = Some 51.
Proof. vm_compute. done. Qed.

(** C7: from a manager constructed with nothing saved, after any sequence
    of recordAction, undo, redo and clearHistory calls the history holds
    at most 50 entries, it still does after one more recordAction, and a
    recording made with the cursor on the 50th entry drops the oldest
    entry and appends the new one. *)
Theorem history_within_capacity (app : Data) (cs : list Call)
    (a : Action) (now : Z) (newId : string) :
  (length (history (run cs (constructor app None))) ≤ 50)%nat ∧
  (length (history (recordAction a now newId (run cs (constructor app None)))) ≤ 50)%nat ∧
  (currentIndex (run cs (constructor app None)) = 49 →
   history (recordAction a now newId (run cs (constructor app None)))
   = tail (history (run cs (constructor app None))) ++ [mkEntry a now newId]).
Proof.
  pose proof (run_wf cs _ (constructor_fresh_wf app)) as Hwf.
  pose proof (call_wf _ (CallRecord a now newId) Hwf) as Hwf'.
  split_and!; [apply Hwf | apply Hwf' |].
  intros Hci. destruct (wf_zipper_ex _ Hwf) as (front & back & Hu & Hlen).
  rewrite Hu in Hci |- *. rewrite length_app in Hlen.
  unfold ofZipper in Hci. simpl in Hci. unfold maxHistorySize in Hlen.
  assert (back = []) as -> by (destruct back; [done | simpl in Hlen; lia]).
  rewrite recordAction_zipper by (unfold maxHistorySize; lia).
  unfold ofZipper, cap. simpl. rewrite !app_nil_r.
  destruct (Nat.ltb_spec maxHistorySize (length (front ++ [mkEntry a now newId]))) as [_ | Hle].
  - destruct front; [simpl in Hci; lia | done].
  - rewrite length_app in Hle. unfold maxHistorySize in Hle. simpl in Hle. lia.
Qed.

(** The document after undoing the entries of [l], last one first, and
    after redoing them, first one first. *)
Definition undoAll (l : list Entry) (d : Data) : Data :=
  foldr (fun e d => executeUndo (action e) d) d l.

Definition redoAll (l : list Entry) (d : Data) : Data :=
  foldl (fun d e => executeRedo (action e) d) d l.

Lemma undoN_S n u : undoN (S n) u = undoN n (undo u).1.
Proof. unfold undoN. by rewrite Nat.iter_succ_r. Qed.

Lemma redoN_S n u : redoN (S n) u = redoN n (redo u).1.
Proof. unfold redoN. by rewrite Nat.iter_succ_r. Qed.

Lemma undoN_add n m u : undoN (n + m) u = undoN m (undoN n u).
Proof. unfold undoN. by rewrite Nat.add_comm, Nat.iter_add. Qed.

Lemma redoN_add n m u : redoN (n + m) u = redoN m (redoN n u).
Proof. unfold redoN. by rewrite Nat.add_comm, Nat.iter_add. Qed.

Lemma undoN_zipper l : ∀ d front back,
  undoN (length l) (ofZipper d (front ++ l) back)
  = ofZipper (undoAll l d) front (l ++ back).
Proof.
  induction l as [| e l IH] using rev_ind; intros d front back.
  - simpl. by rewrite app_nil_r.
  - rewrite length_app, Nat.add_comm. simpl length. simpl Nat.add.
    rewrite undoN_S, app_assoc, undo_zipper_snoc. simpl.
    rewrite IH. unfold undoAll. rewrite foldr_app. simpl.
    by rewrite <- app_assoc.
Qed.

Lemma undoN_exhausted n d back :
  undoN n (ofZipper d [] back) = ofZipper d [] back.
Proof.
  induction n as [| n IH]; [done |].
  by rewrite undoN_S, undo_zipper_nil.
Qed.

Lemma redoN_zipper l : ∀ d front back,
  redoN (length l) (ofZipper d front (l ++ back))
  = ofZipper (redoAll l d) (front ++ l) back.
Proof.
  induction l as [| e l IH]; intros d front back.
  - simpl. by rewrite app_nil_r.
  - simpl length. rewrite redoN_S. simpl app. rewrite redo_zipper_cons. simpl.
    rewrite IH. by rewrite <- app_assoc.
Qed.

Lemma redoN_exhausted n d front :
  redoN n (ofZipper d front []) = ofZipper d front [].
Proof.
  induction n as [| n IH]; [done |].
  by rewrite redoN_S, redo_zipper_nil.
Qed.

(** Recordings leave the document alone and the cursor on the last entry. *)
Lemma recordAll_zipper acts : ∀ d front,
  (length front ≤ maxHistorySize)%nat →
  ∃ front', recordAll acts (ofZipper d front []) = ofZipper d front' [] ∧
            (length front' ≤ maxHistorySize)%nat.
Proof.
  induction acts as [| [[a now] newId] acts IH]; intros d front Hlen.
  - by exists front.
  - simpl. rewrite recordAction_zipper by done. apply IH.
    apply length_cap. rewrite length_app. simpl. lia.
Qed.

(** C2: after any recordings on a fresh manager and M undos that all find
    an entry to undo (1 <= M <= entries in the history), redo is available;
    recording a new action then leaves the entries before the cursor
    followed by the new entry, so the M undone entries are gone, canRedo()
    is false and redo() returns false without changing anything. *)
Theorem record_after_undo_discards_redo (app : Data)
    (acts : list (Action * Z * string)) (M : nat)
    (a : Action) (now : Z) (newId : string) :
  (1 ≤ M ≤ length (history (recordAll acts (constructor app None))))%nat →
  canRedo (undoN M (recordAll acts (constructor app None))) = true ∧
  history (recordAction a now newId (undoN M (recordAll acts (constructor app None))))
  = take (length (history (recordAll acts (constructor app None))) - M)
         (history (recordAll acts (constructor app None)))
    ++ [mkEntry a now newId] ∧
  canRedo (recordAction a now newId (undoN M (recordAll acts (constructor app None))))
  = false ∧
  redo (recordAction a now newId (undoN M (recordAll acts (constructor app None))))
  = (recordAction a now newId (undoN M (recordAll acts (constructor app None))),
     Return false).
Proof.
  change (constructor app None) with (ofZipper app [] []).
  destruct (recordAll_zipper acts app []) as (h & Hrec & Hcap); [simpl; lia |].
  rewrite Hrec.
  assert (Hhist : history (ofZipper app h []) = h).
  { unfold ofZipper. simpl. apply app_nil_r. }
  rewrite Hhist. intros [HM1 HM2].
  assert (∃ front l, h = front ++ l ∧ length l = M) as (front & l & -> & Hl).
  { exists (take (length h - M) h), (drop (length h - M) h).
    split; [by rewrite take_drop | rewrite length_drop; lia]. }
  rewrite length_app in Hcap, HM2.
  replace (take (length (front ++ l) - M) (front ++ l)) with front
    by (symmetry; apply take_app_length'; rewrite length_app; lia).
  assert (Hundo : undoN M (ofZipper app (front ++ l) [])
                  = ofZipper (undoAll l app) front l).
  { rewrite <- Hl, undoN_zipper. by rewrite app_nil_r. }
  rewrite Hundo.
  rewrite recordAction_zipper by lia.
  assert (Hcapid : cap (front ++ [mkEntry a now newId]) = front ++ [mkEntry a now newId]).
  { unfold cap.
    destruct (Nat.ltb_spec maxHistorySize (length (front ++ [mkEntry a now newId]))) as [Hlt |]; [| done].
    rewrite length_app in Hlt. simpl in Hlt. lia. }
  rewrite Hcapid. split_and!.
  - destruct l as [| e l]; [simpl in Hl; lia |]. apply canRedo_zipper_cons.
  - unfold ofZipper. simpl. by rewrite app_nil_r.
  - apply canRedo_zipper_nil.
  - apply redo_zipper_nil.
Qed.

Definition threeActions : list (Action * Z * string) :=
  [(add_note "2024-01-01" "late", 1, "action_1_a");
   (add_note "2024-01-02" "early", 2, "action_2_b");
   (other_type "export", 3, "action_3_c")].

(** Three recordings, two undos, then a fourth recording. *)
Lemma record_after_undo_discards_redo_example :
  canRedo (undoN 2 (recordAll threeActions (constructor someData None))) = true ∧
  history (recordAction (other_type "export") 4 "action_4_d"
             (undoN 2 (recordAll threeActions (constructor someData None))))
  = take (length (history (recordAll threeActions (constructor someData None))) - 2)
         (history (recordAll threeActions (constructor someData None)))
    ++ [mkEntry (other_type "export") 4 "action_4_d"] ∧
  canRedo (recordAction (other_type "export") 4 "action_4_d"
             (undoN 2 (recordAll threeActions (constructor someData None))))
  = false ∧
  redo (recordAction (other_type "export") 4 "action_4_d"
             (undoN 2 (recordAll threeActions (constructor someData None))))
  = (recordAction (other_type "export") 4 "action_4_d"
             (undoN 2 (recordAll threeActions (constructor someData None))),
     Return false).
Proof.
  apply (record_after_undo_discards_redo someData threeActions 2
           (other_type "export") 4 "action_4_d").
  vm_compute. split; lia.
Defined.

(** C10: a saved history whose [currentIndex] is 0 is loaded with the
    cursor at -1, whatever the entries are: the entries are all there,
    canUndo() is false and undo() returns false.  This is what a manager
    finds on reload after exactly one recorded action. *)
Theorem loadHistory_index_zero_becomes_minus_one (u : t) (h : list Entry)
    (app : Data) (a : Action) (now : Z) (newId : string) :
  currentIndex (loadHistory (Some (Parsed (Some h) (Some 0))) u) = -1 ∧
  history (loadHistory (Some (Parsed (Some h) (Some 0))) u) = h ∧
  canUndo (loadHistory (Some (Parsed (Some h) (Some 0))) u) = false ∧
  undo (loadHistory (Some (Parsed (Some h) (Some 0))) u)
  = (loadHistory (Some (Parsed (Some h) (Some 0))) u, Return false) ∧
  saveHistory (recordAction a now newId (constructor app None))
  = Parsed (Some [mkEntry a now newId]) (Some 0) ∧
  canUndo (recordAction a now newId (constructor app None)) = true ∧
  history (constructor app (Some (saveHistory (recordAction a now newId (constructor app None)))))
  = [mkEntry a now newId] ∧
  canUndo (constructor app (Some (saveHistory (recordAction a now newId (constructor app None)))))
  = false.
Proof. repeat split. Qed.

(** *** Attendance toggles as cell writes *)

(** A write of one meal flag of one date. *)
Definition Write : Type := string * Meal * bool.

(** The cell a mark or unmark entry is about and the value redoing it
    leaves there; undoing it leaves the opposite value. *)
Definition writeOf (e : Entry) : option Write :=
  match action e with
  | mark_attendance date m _ => Some (date, m, true)
  | unmark_attendance date m _ => Some (date, m, false)
  | _ => None
  end.

Definition negW (w : Write) : Write := (w.1.1, w.1.2, negb w.2).

Definition write (a : gmap string Day) (w : Write) : gmap string Day :=
  alter (setMeal w.1.2 w.2) w.1.1 a.

Definition writes (ws : list Write) (a : gmap string Day) : gmap string Day :=
  foldl write a ws.

(** The same writes seen from one record, and from one cell. *)
Definition dayWrite (k : string) (day : Day) (w : Write) : Day :=
  if decide (w.1.1 = k) then setMeal w.1.2 w.2 day else day.

Definition hit (k : string) (mm : Meal) (w : Write) : option bool :=
  if decide (w.1.1 = k ∧ w.1.2 = mm) then Some w.2 else None.

Definition cellWrite (k : string) (mm : Meal) (v : bool) (w : Write) : bool :=
  default v (hit k mm w).

(** The value the last write of [ws] on the cell leaves, if any does. *)
Definition lastTarget (k : string) (mm : Meal) (ws : list Write) : option bool :=
  last (omap (hit k mm) ws).

(** The map shows, in every cell the writes [ws] touch, the value the
    last of them leaves. *)
Definition Consistent (a : gmap string Day) (ws : list Write) : Prop :=
  ∀ k mm b, lastTarget k mm ws = Some b →
    ∃ day, a !! k = Some day ∧ getMeal mm day = b.

Lemma Day_ext (d1 d2 : Day) :
  (∀ mm, getMeal mm d1 = getMeal mm d2) → d1 = d2.
Proof.
  intros H. destruct d1 as [l1 n1], d2 as [l2 n2].
  pose proof (H Lunch). pose proof (H Dinner). simpl in *. congruence.
Qed.

Lemma getMeal_setMeal mm m b day :
  getMeal mm (setMeal m b day) = if decide (m = mm) then b else getMeal mm day.
Proof. destruct mm, m, day; done. Qed.

Lemma writes_lookup ws : ∀ a k,
  writes ws a !! k = (fun day => foldl (dayWrite k) day ws) <$> a !! k.
Proof.
  unfold writes. induction ws as [| w ws IH]; intros a k; simpl.
  - by destruct (a !! k).
  - rewrite IH. unfold write at 1. rewrite lookup_alter.
    destruct (decide (w.1.1 = k)) as [Hk | Hk].
    + rewrite Hk. destruct (a !! k) as [day |]; [simpl | done].
      do 2 f_equal. unfold dayWrite. by rewrite decide_True.
    + destruct (a !! k) as [day |]; [simpl | done].
      do 2 f_equal. unfold dayWrite. by rewrite decide_False.
Qed.

Lemma getMeal_dayWrites k mm ws : ∀ day,
  getMeal mm (foldl (dayWrite k) day ws) = foldl (cellWrite k mm) (getMeal mm day) ws.
Proof.
  induction ws as [| w ws IH]; intros day; [done |]. simpl. rewrite IH. f_equal.
  unfold dayWrite, cellWrite, hit.
  destruct (decide (w.1.1 = k)) as [Hk |].
  - rewrite getMeal_setMeal. destruct (decide (w.1.2 = mm)).
    + by rewrite decide_True.
    + rewrite decide_False by (intros []; congruence). done.
  - rewrite decide_False by (intros []; congruence). done.
Qed.

Lemma cellWrites_last k mm ws v :
  foldl (cellWrite k mm) v ws = default v (lastTarget k mm ws).
Proof.
  unfold lastTarget. induction ws as [| w ws IH] using rev_ind; [done |].
  rewrite foldl_app, omap_app, last_app. simpl. rewrite IH.
  unfold cellWrite. destruct (hit k mm w); done.
Qed.

Lemma hit_negW k mm w : hit k mm (negW w) = negb <$> hit k mm w.
Proof. unfold hit, negW. simpl. by destruct (decide _). Qed.

Lemma lastTarget_undo_None k mm ws :
  lastTarget k mm ws = None → lastTarget k mm (negW <$> rev ws) = None.
Proof.
  unfold lastTarget. rewrite !last_None. revert k mm.
  induction ws as [| w ws IH]; intros k mm; [done |]. simpl.
  rewrite fmap_app, omap_app. simpl. rewrite hit_negW.
  destruct (hit k mm w); [done |]. simpl. intros H.
  by rewrite IH, app_nil_r.
Qed.

(** Undoing consistent toggles last one first, then redoing them first
    one first, gives the map back. *)
Lemma writes_roundtrip a ws :
  Consistent a ws → writes ws (writes (negW <$> rev ws) a) = a.
Proof.
  intros Hcons. apply map_eq. intros k. rewrite !writes_lookup.
  destruct (a !! k) as [day |] eqn:Hk; [| done]. simpl. f_equal.
  apply Day_ext. intros mm. rewrite !getMeal_dayWrites, !cellWrites_last.
  destruct (lastTarget k mm ws) as [b |] eqn:Hlast; simpl.
  - destruct (Hcons _ _ _ Hlast) as (day' & Hday' & <-). congruence.
  - by rewrite lastTarget_undo_None.
Qed.

Lemma Consistent_suffix a ws0 ws : Consistent a (ws0 ++ ws) → Consistent a ws.
Proof.
  intros Hcons k mm b Hlast. apply Hcons. unfold lastTarget in *.
  by rewrite omap_app, last_app, Hlast.
Qed.

Lemma Consistent_present a ws w :
  Consistent a ws → w ∈ ws → is_Some (a !! w.1.1).
Proof.
  intros Hcons Hin.
  destruct (lastTarget w.1.1 w.1.2 ws) as [b |] eqn:Hlast.
  - destruct (Hcons _ _ _ Hlast) as (day & Hday & _). by exists day.
  - unfold lastTarget in Hlast. apply last_None in Hlast.
    apply list_elem_of_split in Hin as (l1 & l2 & ->).
    rewrite omap_app in Hlast. simpl in Hlast. unfold hit at 2 in Hlast.
    rewrite decide_True in Hlast by done.
    by apply app_eq_nil in Hlast as [_ ?].
Qed.

Lemma writes_present ws a k : is_Some (writes ws a !! k) ↔ is_Some (a !! k).
Proof. rewrite writes_lookup. apply fmap_is_Some. Qed.

Lemma createAndSet_present date m b a :
  is_Some (a !! date) → createAndSet date m b a = alter (setMeal m b) date a.
Proof.
  intros [day Hday]. unfold createAndSet. rewrite Hday. simpl.
  apply map_eq. intros k. rewrite lookup_alter.
  destruct (decide (date = k)) as [<- |].
  - by rewrite lookup_insert_eq, Hday.
  - by rewrite lookup_insert_ne.
Qed.

Lemma executeRedo_toggle e w d :
  writeOf e = Some w → is_Some (attendance d !! w.1.1) →
  executeRedo (action e) d = withAttendance (fun a => write a w) d.
Proof.
  unfold writeOf. intros Hw Hpres.
  destruct (action e); simplify_eq; simpl in *.
  - unfold redoMarkAttendance, withAttendance, write. simpl.
    by rewrite createAndSet_present.
  - done.
Qed.

Lemma executeUndo_toggle e w d :
  writeOf e = Some w → is_Some (attendance d !! w.1.1) →
  executeUndo (action e) d = withAttendance (fun a => write a (negW w)) d.
Proof.
  unfold writeOf. intros Hw Hpres.
  destruct (action e); simplify_eq; simpl in *.
  - done.
  - unfold undoUnmarkAttendance, withAttendance, write. simpl.
    by rewrite createAndSet_present.
Qed.

Lemma redoAll_toggles l ws : ∀ d,
  Forall2 (fun e w => writeOf e = Some w) l ws →
  (∀ w, w ∈ ws → is_Some (attendance d !! w.1.1)) →
  redoAll l d = withAttendance (writes ws) d.
Proof.
  intros d H. revert d. induction H as [| e w l ws Hw _ IH]; intros d Hpres.
  - by destruct d.
  - simpl. unfold redoAll in *. simpl.
    rewrite (executeRedo_toggle e w) by (try done; apply Hpres; left).
    rewrite IH; [done |].
    intros w' Hw'. simpl. unfold write. rewrite lookup_alter.
    case_decide as Heq; [rewrite Heq; apply fmap_is_Some |]; apply Hpres; by right.
Qed.

Lemma undoAll_toggles l ws : ∀ d,
  Forall2 (fun e w => writeOf e = Some w) l ws →
  (∀ w, w ∈ ws → is_Some (attendance d !! w.1.1)) →
  undoAll l d = withAttendance (writes (negW <$> rev ws)) d.
Proof.
  intros d H. revert d. induction H as [| e w l ws Hw _ IH]; intros d Hpres.
  - by destruct d.
  - unfold undoAll in *. simpl. rewrite IH by (intros; apply Hpres; by right).
    rewrite (executeUndo_toggle e w); [| done |].
    + unfold withAttendance, writes. simpl. by rewrite fmap_app, foldl_app.
    + simpl. apply writes_present. apply Hpres. by left.
Qed.

(** Undoing and redoing a stretch of toggles that the document is
    consistent with restores the document. *)
Lemma redoAll_undoAll_toggles l ws d :
  Forall2 (fun e w => writeOf e = Some w) l ws →
  Consistent (attendance d) ws →
  redoAll l (undoAll l d) = d.
Proof.
  intros Hl Hcons.
  assert (Hpres : ∀ w, w ∈ ws → is_Some (attendance d !! w.1.1)).
  { intros w Hw. by eapply Consistent_present. }
  rewrite (undoAll_toggles l ws) by done.
  rewrite (redoAll_toggles l ws); [| done |].
  - unfold withAttendance. simpl. rewrite writes_roundtrip by done. by destruct d.
  - intros w Hw. simpl. apply writes_present. by apply Hpres.
Qed.

(** *** Toggles made through [markAttendance] *)

Definition mealName (m : Meal) : string :=
  match m with Lunch => "lunch" | Dinner => "dinner" end.

(** One call of [markAttendance]: the clock's date, the meal, and what
    [Date.now()] and [generateId()] return while it records. *)
Record Toggle := mkToggle {
  t_today : JsDate;
  t_meal : Meal;
  t_now : Z;
  t_id : string
}.

Definition markAll (toggles : list Toggle) (u : t) : t :=
  foldl (fun u tg =>
           MessTrack.markAttendance (t_today tg) (mealName (t_meal tg))
             (t_now tg) (t_id tg) u)
        u toggles.

(** Every stretch at the end of the log that is no longer than the list
    of recorded entries is a stretch at the end of that list. *)
Definition EndsIn (front recorded : list Entry) : Prop :=
  ∀ l, l `suffix_of` front → (length l ≤ length recorded)%nat →
       l `suffix_of` recorded.

Lemma EndsIn_nil front : EndsIn front [].
Proof.
  intros l _ Hlen. destruct l; [done | simpl in Hlen; lia].
Qed.

Lemma EndsIn_record front recorded e :
  EndsIn front recorded → EndsIn (cap (front ++ [e])) (recorded ++ [e]).
Proof.
  intros Hends l Hl Hlen.
  assert (Hl' : l `suffix_of` front ++ [e]) by (etrans; [done | apply cap_suffix]).
  destruct (snoc_or_nil l) as [-> | (l0 & x & ->)]; [apply suffix_nil |].
  pose proof (suffix_snoc_inv_1 _ _ _ _ Hl') as ->.
  apply suffix_snoc_inv_2 in Hl'. apply suffix_snoc, Hends; [done |].
  rewrite !length_app in Hlen. simpl in Hlen. lia.
Qed.

Lemma markAttendance_zipper today m now newId d front back :
  (length front ≤ maxHistorySize)%nat →
  ∃ d' e w,
    MessTrack.markAttendance today (mealName m) now newId (ofZipper d front back)
    = ofZipper d' (cap (front ++ [e])) [] ∧
    writeOf e = Some w ∧
    (∀ ws, Consistent (attendance d) ws → Consistent (attendance d') (ws ++ [w])).
Proof.
  intros Hlen. unfold MessTrack.markAttendance.
  replace (mealOfString (mealName m)) with (Some m) by by destruct m.
  set (key := getTodayString today). simpl app_data.
  set (a0 := attendance d).
  set (a1 := match a0 !! key with
             | Some _ => a0
             | None => <[key := mkDay false false]> a0
             end).
  set (prev := getMeal m (default (mkDay false false) (a1 !! key))).
  set (a2 := alter (setMeal m (negb prev)) key a1).
  set (act := (if negb prev then mark_attendance else unmark_attendance) key m prev).
  exists (withAttendance (fun _ => a2) d), (mkEntry act now newId), (key, m, negb prev).
  split_and!.
  - change (mk (withAttendance (fun _ => a2) d) (history (ofZipper d front back))
              (currentIndex (ofZipper d front back)))
      with (ofZipper (withAttendance (fun _ => a2) d) front back).
    by apply recordAction_zipper.
  - unfold writeOf, act. simpl. by destruct prev.
  - intros ws Hcons k mm b. unfold lastTarget. rewrite omap_app, last_app. simpl.
    assert (Ha1 : ∃ day1, a1 !! key = Some day1 ∧
                          (∀ day, a0 !! key = Some day → day1 = day)).
    { unfold a1. destruct (a0 !! key) as [day |] eqn:Hkey.
      - exists day. split; [done | congruence].
      - exists (mkDay false false). split; [apply lookup_insert_eq | done]. }
    destruct Ha1 as (day1 & Hday1 & Hsame).
    unfold hit at 1. simpl. destruct (decide (key = k ∧ m = mm)) as [[<- <-] | Hne]; simpl.
    + intros [= <-]. exists (setMeal m (negb prev) day1). split.
      * unfold a2. by rewrite lookup_alter_eq, Hday1.
      * rewrite getMeal_setMeal. by rewrite decide_True.
    + intros Hlast. destruct (Hcons k mm b Hlast) as (day & Hday & Hb).
      fold a0 in Hday. destruct (decide (key = k)) as [<- | Hk].
      * exists (setMeal m (negb prev) day). split.
        -- unfold a2. rewrite lookup_alter_eq, Hday1. simpl.
           by rewrite (Hsame _ Hday).
        -- rewrite getMeal_setMeal. rewrite decide_False by naive_solver. done.
      * exists day. split; [| done]. unfold a2. rewrite lookup_alter_ne by done.
        unfold a1. destruct (a0 !! key); [done |]. by rewrite lookup_insert_ne.
Qed.

(** What holds of the manager while toggles are made. *)
Definition TogglesInv (recorded : list Entry) (u : t) : Prop :=
  ∃ d front back ws,
    u = ofZipper d front back ∧
    (length (front ++ back) ≤ maxHistorySize)%nat ∧
    (recorded ≠ [] → back = []) ∧
    EndsIn front recorded ∧
    Forall2 (fun e w => writeOf e = Some w) recorded ws ∧
    Consistent (attendance d) ws.

Lemma markAll_inv toggles : ∀ u recorded,
  TogglesInv recorded u →
  ∃ recorded',
    TogglesInv recorded' (markAll toggles u) ∧
    length recorded' = (length recorded + length toggles)%nat.
Proof.
  induction toggles as [| tg toggles IH]; intros u recorded Hinv.
  - exists recorded. split; [done | simpl; lia].
  - destruct Hinv as (d & front & back & ws & -> & Hlen & Hback & Hends & Hrec & Hcons).
    rewrite length_app in Hlen.
    destruct (markAttendance_zipper (t_today tg) (t_meal tg) (t_now tg) (t_id tg)
                d front back) as (d' & e & w & Hstep & Hw & Hcons'); [lia |].
    simpl. rewrite Hstep.
    destruct (IH (ofZipper d' (cap (front ++ [e])) []) (recorded ++ [e]))
      as (recorded' & Hinv' & Hlen').
    + exists d', (cap (front ++ [e])), [], (ws ++ [w]). split_and!.
      * done.
      * rewrite app_nil_r. apply length_cap. rewrite length_app. simpl. lia.
      * done.
      * by apply EndsIn_record.
      * apply Forall2_app; [done | by constructor].
      * by apply Hcons'.
    + exists recorded'. split; [done |].
      rewrite Hlen', length_app. simpl. lia.
Qed.

Lemma wf_TogglesInv u : wf u → TogglesInv [] u.
Proof.
  intros Hwf. destruct (wf_zipper_ex u Hwf) as (front & back & Hu & Hlen).
  exists (app_data u), front, back, []. split_and!; try done.
  apply EndsIn_nil.
Qed.

(** C1, as stated, fails: recording a mark of lunch on 1 January on an
    empty document, then one undo and one redo, leaves an attendance map
    with that date in it, while before the undo the map was empty. *)
Lemma undo_redo_of_unapplied_record_changes_data :
  attendance (app_data
    (recordAction (mark_attendance "2024-01-01" Lunch false) 1 "action_1_a"
       (constructor someData None))) = ∅ ∧
  attendance (app_data
    (redoN 1 (undoN 1
       (recordAction (mark_attendance "2024-01-01" Lunch false) 1 "action_1_a"
          (constructor someData None)))))
  = {[ "2024-01-01" := mkDay true false ]}.
Proof. split; reflexivity. Qed.

(** C1, amended: start from any manager whose cursor is in range and whose
    log is within capacity; after N attendance toggles made through
    markAttendance (each one applied to the document and then recorded),
    K <= N undos followed by K redos give back exactly the state from
    before the undos: attendance, notes, summaries, settings, log and
    cursor. *)
Theorem toggles_undo_redo_restores (u0 : t) (toggles : list Toggle) (K : nat) :
  wf u0 →
  (K ≤ length toggles)%nat →
  redoN K (undoN K (markAll toggles u0)) = markAll toggles u0.
Proof.
  intros Hwf HK.
  destruct (markAll_inv toggles u0 [] (wf_TogglesInv u0 Hwf))
    as (recorded & Hinv & Hlen).
  simpl in Hlen.
  destruct Hinv as (d & front & back & ws & -> & Hcap & Hback & Hends & Hrec & Hcons).
  destruct (decide (K = 0)%nat) as [-> | HK0]; [done |].
  rewrite Hback in * by (intros ->; simpl in Hlen; lia).
  rewrite app_nil_r in Hcap.
  set (K' := (K `min` length front)%nat).
  assert (∃ f1 l, front = f1 ++ l ∧ length l = K') as (f1 & l & -> & Hl).
  { exists (take (length front - K') front), (drop (length front - K') front).
    split; [by rewrite take_drop | rewrite length_drop; lia]. }
  assert (Hsuf : l `suffix_of` recorded).
  { apply Hends; [by exists f1 | lia]. }
  destruct Hsuf as [r0 ->].
  apply Forall2_app_inv_l in Hrec as (ws0 & wsl & _ & Hrecl & ->).
  apply Consistent_suffix in Hcons.
  assert (Hundo : undoN K (ofZipper d (f1 ++ l) []) = ofZipper (undoAll l d) f1 l).
  { replace K with (length l + (K - length l))%nat by lia.
    rewrite undoN_add, undoN_zipper, app_nil_r.
    destruct (decide (K - length l = 0)%nat) as [-> | Hmore]; [done |].
    assert (f1 = []) as ->.
    { unfold K' in Hl. rewrite length_app in Hl.
      destruct f1; [done | simpl in Hl; lia]. }
    apply undoN_exhausted. }
  assert (Hredo : ∀ d', redoN K (ofZipper d' f1 l)
                        = ofZipper (redoAll l d') (f1 ++ l) []).
  { intros d'. replace K with (length l + (K - length l))%nat by lia.
    pose proof (redoN_zipper l d' f1 []) as Hz. rewrite app_nil_r in Hz.
    by rewrite redoN_add, Hz, redoN_exhausted. }
  rewrite Hundo, Hredo.
  by rewrite (redoAll_undoAll_toggles l wsl).
Qed.

Definition twoToggles : list Toggle :=
  [mkToggle (mkDate 2024 0 1) Lunch 1 "action_1_a";
   mkToggle (mkDate 2024 0 1) Lunch 2 "action_2_b"].

(** Lunch marked and unmarked on 1 January, then two undos and two redos. *)
Lemma toggles_undo_redo_restores_example :
  redoN 2 (undoN 2 (markAll twoToggles (constructor someData None)))
  = markAll twoToggles (constructor someData None).
Proof.
  apply (toggles_undo_redo_restores (constructor someData None) twoToggles 2).
  - unfold wf. simpl. lia.
  - simpl. lia.
Defined.

End UndoFacts.

(** ** Archiving at the start of a month *)

Module ArchiveFacts.

Import MessTrack.


(** Up to the 28th, the key is the month before today's. *)
Lemma archiveMonthKey_early (y m d : Z) :
  0 ≤ m ≤ 11 → 1 ≤ d ≤ 28 →
  archiveMonthKey (mkDate y m d)
  = monthKeyOf (if m =? 0 then mkDate (y - 1) 11 d else mkDate y (m - 1) d).
Proof.
  intros Hm Hd. unfold archiveMonthKey, setMonth, MakeDay. simpl.
  destruct (Z.to_nat d) as [| fuel] eqn:Hfuel; [lia |]. simpl.
  assert (Hdim : ∀ y' m', (d <=? daysInMonth y' m') = true).
  { intros y' m'. apply Z.leb_le. unfold daysInMonth.
    repeat case_match; lia. }
  rewrite Hdim. destruct (Z.eqb_spec m 0) as [-> | Hm0].
  - done.
  - assert (Hdiv : (m - 1) / 12 = 0) by (apply Z.div_small; lia).
    rewrite Hdiv, Z.mod_small by lia. by rewrite Z.add_0_r.
Qed.

(** On a day of the month that the month before does not have, the key
    is today's own month. *)
Lemma archiveMonthKey_late (y m d : Z) :
  1 ≤ m ≤ 11 → daysInMonth y (m - 1) < d ≤ daysInMonth y m →
  archiveMonthKey (mkDate y m d) = monthKeyOf (mkDate y m d).
Proof.
  intros Hm Hd. unfold archiveMonthKey, setMonth, MakeDay. simpl.
  assert (Hdiv : (m - 1) / 12 = 0) by (apply Z.div_small; lia).
  rewrite Hdiv, Z.mod_small, Z.add_0_r by lia.
  assert (Hprev : 28 ≤ daysInMonth y (m - 1)).
  { unfold daysInMonth. repeat case_match; lia. }
  assert (Hcur : daysInMonth y m ≤ 31).
  { unfold daysInMonth. repeat case_match; lia. }
  destruct (Z.to_nat d) as [| [| fuel]] eqn:Hfuel; [lia | lia |].
  simpl.
  destruct (Z.leb_spec d (daysInMonth y (m - 1))); [lia |].
  destruct (Z.eqb_spec (m - 1) 11); [lia |].
  replace (m - 1 + 1) with m by lia.
  destruct (Z.leb_spec (d - daysInMonth y (m - 1)) (daysInMonth y m)); [| lia].
  unfold monthKeyOf. simpl. done.
Qed.

Definition marchLunch : gmap string Day :=
  {[ "2024-03-05" := mkDay true false ]}.

Definition marchLunchAndDinner : gmap string Day :=
  <["2024-03-31" := mkDay true true]> marchLunch.

Definition dataOf (a : gmap string Day) (s : gmap string Summary) : Data :=
  mkData a s ∅ (mkSettings "light" false "12:00" "19:00" "").

(** C6, at the failing input: the application starts on 31 March 2024
    with the last reset noted for February.  The "previous month" it
    computes is March itself (31 February runs on into March), so the
    summary is filed under 2024-03 and nothing under 2024-02.  After
    both meals are marked for 31 March and the application starts again on
    1 April, the summary under 2024-03 is computed again from the live
    attendance and replaced.  Attendance itself is never changed by
    either start. *)
Theorem archive_on_last_day_of_march :
  archiveMonthKey (mkDate 2024 2 31) = "2024-03" ∧
  checkAndAutoReset (mkDate 2024 2 31) (dataOf marchLunch ∅, Some "2024-02")
  = (dataOf marchLunch {[ "2024-03" := mkSummary 1 0 1 "50.0" ]}, Some "2024-03") ∧
  checkAndAutoReset (mkDate 2024 3 1)
    (dataOf marchLunchAndDinner {[ "2024-03" := mkSummary 1 0 1 "50.0" ]},
     Some "2024-03")
  = (dataOf marchLunchAndDinner {[ "2024-03" := mkSummary 2 1 2 "75.0" ]},
     Some "2024-04").
Proof. split_and!; vm_compute; reflexivity. Qed.

End ArchiveFacts.

(** ** Writes against a full storage *)

Module StorageFacts.

Import StorageManager.

Section AnyBrowser.

Context {V : Type}.
Variable setItemError : Storage V → string → Item V → option ErrorName.

(** What the cleanup keeps of a document: the entries whose date is not
    before the cutoff, unchanged. *)
Lemma keepRecent_lookup (cutoff date : string) (o : gmap string V) (v : V) :
  keepRecent cutoff o !! date = Some v ↔
  o !! date = Some v ∧ str_lt date cutoff = false.
Proof. unfold keepRecent. by rewrite map_lookup_filter_Some. Qed.



End AnyBrowser.


(** A browser whose storage holds at most [limit] items and entries:
    every item counts one, plus one per entry of a document and per
    element of an array that is not [null]. *)
Definition weight (st : Storage Day) : nat :=
  map_fold (fun _ item n =>
              match item with
              | Doc o => (n + 1 + size o)%nat
              | Arr a => (n + 1 + length (omap id a))%nat
              | _ => (n + 1)%nat
              end) 0%nat st.

Definition limited (limit : nat) : Storage Day → string → Item Day → option ErrorName :=
  fun st key value =>
    if (limit <? weight (<[key := value]> st))%nat
    then Some QuotaExceededError else None.

Definition noon : JsDate := mkDate 2024 5 15.




Definition withOldDays : Storage Day :=
  {[ "messtrack_attendance" :=
       Doc (<["2021-01-01" := mkDay true true]>
           (<["2021-01-02" := mkDay true true]>
           (<["2021-01-03" := mkDay false true]>
            {[ "2024-06-01" := mkDay true false ]}))) ]}.

(** With room for five units and three old days stored, the first write
    fails, the cleanup deletes the three days, and the one retry succeeds. *)
Example retry_succeeds_after_cleanup :
  setItem (limited 5) withOldDays "messtrack_settings" (Text "{}")
  = inl QuotaExceededError ∧
  (cleanOldData (limited 5) noon withOldDays).2 = 3%nat ∧
  attempts (safeSetItem (limited 5) noon true "messtrack_settings" (Text "{}") withOldDays)
  = 2%nat ∧
  outcome (safeSetItem (limited 5) noon true "messtrack_settings" (Text "{}") withOldDays)
  = Returned true ∧
  storage (safeSetItem (limited 5) noon true "messtrack_settings" (Text "{}") withOldDays)
  = <["messtrack_settings" := Text "{}"]>
      (<["messtrack_notes" := Doc ∅]>
         {[ "messtrack_attendance" := Doc {[ "2024-06-01" := mkDay true false ]} ]}).
Proof. split_and!; vm_compute; reflexivity. Qed.


(** A stored attendance item that is an array of two elements. *)
Definition withArray : Storage Day :=
  {[ "messtrack_attendance" := Arr [Some (mkDay true true); Some (mkDay true false)] ]}.

(** With room for three units and an array of two elements stored as the
    attendance item, the first write fails, the cleanup deletes both
    elements (their keys 0 and 1 are before the cutoff), rewrites the
    item as an array of two [null] and reports 2, and the one retry
    succeeds. *)
Example array_is_cleaned_and_write_retried :
  setItem (limited 3) withArray "messtrack_settings" (Text "{}")
  = inl QuotaExceededError ∧
  (cleanOldData (limited 3) noon withArray).2 = 2%nat ∧
  attempts (safeSetItem (limited 3) noon true "messtrack_settings" (Text "{}") withArray)
  = 2%nat ∧
  outcome (safeSetItem (limited 3) noon true "messtrack_settings" (Text "{}") withArray)
  = Returned true ∧
  storage (safeSetItem (limited 3) noon true "messtrack_settings" (Text "{}") withArray)
  = <["messtrack_settings" := Text "{}"]>
      (<["messtrack_notes" := Doc ∅]>
         {[ "messtrack_attendance" := Arr [None; None] ]}).
Proof. split_and!; vm_compute; reflexivity. Qed.

End StorageFacts.

(** ** Reminders *)

Module NotificationFacts.

Import NotificationManager.

Lemma filter_sublist {X} (f : X → bool) (l : list X) : List.filter f l `sublist_of` l.
Proof.
  induction l as [| x l IH]; simpl; [done |].
  destruct (f x); [by apply sublist_skip | by apply sublist_cons].
Qed.

(** A check in the minute that was checked last changes nothing and sends
    nothing. *)
Lemma check_same_minute (now : Clock) (attendance : gmap string Day) (nm : t) :
  lastCheckedMinute nm = Some (currentTimeOf now) →
  checkScheduledNotifications now attendance nm = (nm, []).
Proof.
  intros H. unfold checkScheduledNotifications. by rewrite decide_True.
Qed.

Lemma check_sets_minute (now : Clock) (attendance : gmap string Day) (nm : t) :
  lastCheckedMinute (checkScheduledNotifications now attendance nm).1
  = Some (currentTimeOf now).
Proof.
  unfold checkScheduledNotifications. by case_decide.
Qed.

Lemma checks_same_minute (minute : string) (cs : list (Clock * gmap string Day)) :
  ∀ nm,
    lastCheckedMinute nm = Some minute →
    Forall (fun c => currentTimeOf c.1 = minute) cs →
    checks cs nm = (nm, replicate (length cs) []).
Proof.
  induction cs as [| [now attendance] cs IH]; intros nm Hnm Hcs; [done |].
  apply Forall_cons in Hcs as [Hnow Hcs]. simpl in Hnow. simpl.
  rewrite check_same_minute by congruence. by rewrite IH.
Qed.

(** C9: every reminder a check sends is scheduled for the current HH:MM
    and is for a meal not marked today; a check sends each scheduled entry
    at most once (what it sends is a sub-list of the schedule); and after
    a check, any number of further checks read at the same HH:MM, whatever
    the attendance is by then, leave the manager as it is and send
    nothing. *)
Theorem reminders_skip_marked_meals_and_checked_minutes
    (now : Clock) (attendance : gmap string Day) (nm : t) :
  (∀ n, n ∈ (checkScheduledNotifications now attendance nm).2 →
        time n = currentTimeOf now ∧
        isMarked attendance (getTodayString (day now)) (mealType n) = false) ∧
  (checkScheduledNotifications now attendance nm).2
    `sublist_of` scheduledNotifications nm ∧
  (∀ cs : list (Clock * gmap string Day),
     Forall (fun c => currentTimeOf c.1 = currentTimeOf now) cs →
     checks cs (checkScheduledNotifications now attendance nm).1
     = ((checkScheduledNotifications now attendance nm).1,
        replicate (length cs) [])).
Proof.
  split_and!.
  - intros n. unfold checkScheduledNotifications.
    case_decide; simpl; [by intros ?%elem_of_nil |].
    intros Hn%list_elem_of_In%filter_In. destruct Hn as [_ Hn].
    apply andb_prop in Hn as [Htime Hmarked].
    apply String.eqb_eq in Htime. apply negb_true_iff in Hmarked. done.
  - unfold checkScheduledNotifications.
    case_decide; simpl; [apply sublist_nil_l | apply filter_sublist].
  - intros cs Hcs. apply (checks_same_minute (currentTimeOf now)); [| done].
    apply check_sets_minute.
Qed.

Definition lunchAtNoon : Scheduled :=
  mkScheduled "lunch_at_time" "lunch" "12:00" "Time for Lunch!"
    "Remember to mark your lunch attendance".

Definition dinnerAtNoon : Scheduled :=
  mkScheduled "dinner_at_time" "dinner" "12:00" "Time for Dinner!"
    "Remember to mark your dinner attendance".

(** At 12:00 with lunch marked and dinner not, only the dinner reminder
    goes out, and a second check at 12:00 sends nothing. *)
Example noon_checks :
  checks [(mkClock (mkDate 2024 0 1) 12 0, {[ "2024-01-01" := mkDay true false ]});
          (mkClock (mkDate 2024 0 1) 12 0, {[ "2024-01-01" := mkDay true false ]})]
         (mk "granted" [lunchAtNoon; dinnerAtNoon] None)
  = (mk "granted" [lunchAtNoon; dinnerAtNoon] (Some "12:00"),
     [[dinnerAtNoon]; []]).
Proof. vm_compute. reflexivity. Qed.

End NotificationFacts.

(** * More of the code *)

(** ** UndoManagerEnhancements (enhanced-module-improvements.js) *)

Module UndoManagerEnhancements.

Import UndoManager.

(** [undoMultiple(count)]: the loop
    [for (i = 0; i < count && this.canUndo(); i++) results.push(this.undo())].
    [saveDataThrows] is the browser's decision on the writes of
    [saveData()].  The second component is the array returned, or [None]
    when an [undo()] threw out of the loop. *)
Fixpoint undoMultiple (saveDataThrows : Data → bool) (count : nat) (u : t)
  : t * option (list bool) :=
  match count with
  | O => (u, Some [])
  | S count' =>
      if canUndo u then
        let '(u1, completion) := undo u in
        match completes saveDataThrows completion with
        | Some b =>
            let '(u2, results) := undoMultiple saveDataThrows count' u1 in
            (u2, cons b <$> results)
        | None => (u1, None)
        end
      else (u, Some [])
  end.

(** [redoMultiple(count)], the same loop over [canRedo()] and [redo()]. *)
Fixpoint redoMultiple (saveDataThrows : Data → bool) (count : nat) (u : t)
  : t * option (list bool) :=
  match count with
  | O => (u, Some [])
  | S count' =>
      if canRedo u then
        let '(u1, completion) := redo u in
        match completes saveDataThrows completion with
        | Some b =>
            let '(u2, results) := redoMultiple saveDataThrows count' u1 in
            (u2, cons b <$> results)
        | None => (u1, None)
        end
      else (u, Some [])
  end.

(** [a.slice(-n)]: the last [n] elements. *)
Definition sliceLast {A} (n : nat) (a : list A) : list A :=
  drop (length a - n) a.

(** [compressHistory()]. *)
Definition compressHistory (u : t) : t :=
  if (100 <? length (history u))%nat then
    let history' := sliceLast 50 (history u) in
    mk (app_data u) history'
       (Z.min (currentIndex u) (Z.of_nat (length history') - 1))
  else u.

End UndoManagerEnhancements.

(** ** More on the undo log *)

Module UndoLogFacts.

Import UndoManager UndoFacts UndoManagerEnhancements.

Lemma canUndo_zipper_nil d back : canUndo (ofZipper d [] back) = false.
Proof. done. Qed.

Lemma canUndo_zipper_snoc d front e back :
  canUndo (ofZipper d (front ++ [e]) back) = true.
Proof.
  unfold canUndo, ofZipper. simpl. rewrite length_app. simpl.
  apply Z.leb_le. lia.
Qed.

Lemma completes_afterHandler saveDataThrows saves d b :
  completes saveDataThrows (afterHandler saves d b) = Some b ∨
  (saveDataThrows d = true ∧
   completes saveDataThrows (afterHandler saves d b) = None).
Proof.
  unfold afterHandler. destruct saves; simpl; [| by left].
  destruct (saveDataThrows d); [by right | by left].
Qed.

Lemma completes_accepting saves d b :
  completes (fun _ => false) (afterHandler saves d b) = Some b.
Proof. by destruct saves. Qed.

(** X1: with the cursor in range and the log within capacity, undo()
    never throws a TypeError: it returns canUndo(), unless the
    saveData() of its handler throws on the document the handler has
    just changed, and then that exception leaves the call.  Either way
    it leaves the log as it is and moves the cursor back by one exactly
    when canUndo() held.  redo() likewise, with canRedo() and the cursor
    moving forward. *)
Theorem undo_redo_return_can (u : t) (saveDataThrows : Data → bool) :
  wf u →
  (completes saveDataThrows (undo u).2 = Some (canUndo u) ∨
   (canUndo u = true ∧ saveDataThrows (app_data (undo u).1) = true ∧
    completes saveDataThrows (undo u).2 = None)) ∧
  completes (fun _ => false) (undo u).2 = Some (canUndo u) ∧
  history (undo u).1 = history u ∧
  currentIndex (undo u).1
    = (if canUndo u then currentIndex u - 1 else currentIndex u) ∧
  wf (undo u).1 ∧
  (completes saveDataThrows (redo u).2 = Some (canRedo u) ∨
   (canRedo u = true ∧ saveDataThrows (app_data (redo u).1) = true ∧
    completes saveDataThrows (redo u).2 = None)) ∧
  completes (fun _ => false) (redo u).2 = Some (canRedo u) ∧
  history (redo u).1 = history u ∧
  currentIndex (redo u).1
    = (if canRedo u then currentIndex u + 1 else currentIndex u) ∧
  wf (redo u).1.
Proof.
  intros Hwf.
  pose proof (call_wf u CallUndo Hwf) as Hwu.
  pose proof (call_wf u CallRedo Hwf) as Hwr. cbn [call] in Hwu, Hwr.
  destruct (wf_zipper_ex u Hwf) as (front & back & Hu & Hlen).
  rewrite Hu in *. clear Hu.
  set (v := ofZipper (app_data u) front back) in *.
  assert (Hundo : (completes saveDataThrows (undo v).2 = Some (canUndo v) ∨
                   (canUndo v = true ∧ saveDataThrows (app_data (undo v).1) = true ∧
                    completes saveDataThrows (undo v).2 = None)) ∧
                  completes (fun _ => false) (undo v).2 = Some (canUndo v) ∧
                  history (undo v).1 = history v ∧
                  currentIndex (undo v).1
                  = (if canUndo v then currentIndex v - 1 else currentIndex v)).
  { unfold v. destruct (snoc_or_nil front) as [-> | (front' & e & ->)].
    - rewrite undo_zipper_nil. split_and!; try done. by left.
    - rewrite undo_zipper_snoc, canUndo_zipper_snoc.
      cbn [fst snd app_data ofZipper history currentIndex].
      rewrite length_app. cbn [length Nat.add].
      split_and!; [| apply completes_accepting | by rewrite <- app_assoc | lia].
      destruct (completes_afterHandler saveDataThrows
                  (undoSaves (action e) (app_data u))
                  (executeUndo (action e) (app_data u)) true) as [H | [H1 H2]];
        [by left | by right]. }
  assert (Hredo : (completes saveDataThrows (redo v).2 = Some (canRedo v) ∨
                   (canRedo v = true ∧ saveDataThrows (app_data (redo v).1) = true ∧
                    completes saveDataThrows (redo v).2 = None)) ∧
                  completes (fun _ => false) (redo v).2 = Some (canRedo v) ∧
                  history (redo v).1 = history v ∧
                  currentIndex (redo v).1
                  = (if canRedo v then currentIndex v + 1 else currentIndex v)).
  { unfold v. destruct back as [| e back].
    - rewrite redo_zipper_nil, canRedo_zipper_nil. split_and!; try done. by left.
    - rewrite redo_zipper_cons, canRedo_zipper_cons.
      cbn [fst snd app_data ofZipper history currentIndex].
      rewrite length_app. cbn [length Nat.add].
      split_and!; [| apply completes_accepting | by rewrite <- app_assoc | lia].
      destruct (completes_afterHandler saveDataThrows
                  (redoSaves (action e) (app_data u))
                  (executeRedo (action e) (app_data u)) true) as [H | [H1 H2]];
        [by left | by right]. }
  destruct Hundo as (? & ? & ? & ?), Hredo as (? & ? & ? & ?). by split_and!.
Qed.

(** A manager after three recordings and one undo. *)
Definition sampleManager : t :=
  undoN 1 (recordAll threeActions (constructor someData None)).

Lemma sampleManager_wf : wf sampleManager.
Proof.
  unfold wf. vm_compute.
  repeat split; first [reflexivity | (intros H; discriminate H) | lia].
Defined.

(** A browser that refuses every write of [saveData()]. *)
Definition storageFull : Data → bool := fun _ => true.

Lemma undo_redo_return_can_example :
  (completes storageFull (undo sampleManager).2 = Some (canUndo sampleManager) ∨
   (canUndo sampleManager = true ∧
    storageFull (app_data (undo sampleManager).1) = true ∧
    completes storageFull (undo sampleManager).2 = None)) ∧
  completes (fun _ => false) (undo sampleManager).2 = Some (canUndo sampleManager) ∧
  history (undo sampleManager).1 = history sampleManager ∧
  currentIndex (undo sampleManager).1
    = (if canUndo sampleManager then currentIndex sampleManager - 1
       else currentIndex sampleManager) ∧
  wf (undo sampleManager).1 ∧
  (completes storageFull (redo sampleManager).2 = Some (canRedo sampleManager) ∨
   (canRedo sampleManager = true ∧
    storageFull (app_data (redo sampleManager).1) = true ∧
    completes storageFull (redo sampleManager).2 = None)) ∧
  completes (fun _ => false) (redo sampleManager).2 = Some (canRedo sampleManager) ∧
  history (redo sampleManager).1 = history sampleManager ∧
  currentIndex (redo sampleManager).1
    = (if canRedo sampleManager then currentIndex sampleManager + 1
       else currentIndex sampleManager) ∧
  wf (redo sampleManager).1.
Proof. apply (undo_redo_return_can sampleManager storageFull). apply sampleManager_wf. Defined.

(** X2: whatever the recorded actions are, K undos followed by K redos
    put the log and the cursor back where they were, provided the K undos
    all find an entry (K <= currentIndex + 1). *)
Theorem undo_redo_restores_log_and_cursor (u : t) (K : nat) :
  wf u →
  Z.of_nat K ≤ currentIndex u + 1 →
  history (redoN K (undoN K u)) = history u ∧
  currentIndex (redoN K (undoN K u)) = currentIndex u ∧
  currentIndex (undoN K u) = currentIndex u - Z.of_nat K.
Proof.
  intros Hwf HK.
  destruct (wf_zipper_ex u Hwf) as (front & back & Hu & Hlen).
  rewrite Hu in *. clear Hu. unfold ofZipper in HK. simpl in HK.
  assert (∃ f1 l, front = f1 ++ l ∧ length l = K) as (f1 & l & -> & <-).
  { exists (take (length front - K) front), (drop (length front - K) front).
    split; [by rewrite take_drop | rewrite length_drop; lia]. }
  rewrite undoN_zipper, redoN_zipper. unfold ofZipper. simpl.
  rewrite !length_app. split_and!; [by rewrite <- app_assoc | done | lia].
Qed.

Lemma undo_redo_restores_log_and_cursor_example :
  history (redoN 2 (undoN 2 sampleManager)) = history sampleManager ∧
  currentIndex (redoN 2 (undoN 2 sampleManager)) = currentIndex sampleManager ∧
  currentIndex (undoN 2 sampleManager) = currentIndex sampleManager - Z.of_nat 2.
Proof.
  apply (undo_redo_restores_log_and_cursor sampleManager 2).
  - apply sampleManager_wf.
  - vm_compute. discriminate.
Defined.

(** X3: what saveHistory writes is read back by loadHistory into the same
    log and cursor, whatever the manager held before loading, as long as
    the saved cursor is not 0. *)
Theorem save_load_roundtrip (u before : t) :
  currentIndex u ≠ 0 →
  history (loadHistory (Some (saveHistory u)) before) = history u ∧
  currentIndex (loadHistory (Some (saveHistory u)) before) = currentIndex u ∧
  constructor (app_data u) (Some (saveHistory u)) = u.
Proof.
  intros Hci. unfold constructor, loadHistory, saveHistory, orMinusOne. simpl.
  destruct (Z.eqb_spec (currentIndex u) 0); [done |]. by destruct u.
Qed.

Lemma save_load_roundtrip_example :
  history (loadHistory (Some (saveHistory sampleManager)) (constructor someData None))
  = history sampleManager ∧
  currentIndex (loadHistory (Some (saveHistory sampleManager)) (constructor someData None))
  = currentIndex sampleManager ∧
  constructor (app_data sampleManager) (Some (saveHistory sampleManager)) = sampleManager.
Proof.
  apply (save_load_roundtrip sampleManager (constructor someData None)).
  vm_compute. discriminate.
Defined.

(** X4: after recordAction on a manager with the cursor in range, the
    new entry is the last one of the log and the cursor is on it, so
    canUndo() is true and canRedo() is false; the application document is
    not touched, and every entry kept from before comes from before the
    old cursor. *)
Theorem recordAction_puts_cursor_on_new_entry (u : t) (a : Action) (now : Z)
    (newId : string) :
  wf u →
  last (history (recordAction a now newId u)) = Some (mkEntry a now newId) ∧
  currentIndex (recordAction a now newId u)
  = Z.of_nat (length (history (recordAction a now newId u))) - 1 ∧
  canUndo (recordAction a now newId u) = true ∧
  canRedo (recordAction a now newId u) = false ∧
  app_data (recordAction a now newId u) = app_data u ∧
  history (recordAction a now newId u)
    `suffix_of` take (Z.to_nat (currentIndex u + 1)) (history u) ++ [mkEntry a now newId].
Proof.
  intros Hwf.
  set (front := take (Z.to_nat (currentIndex u + 1)) (history u)).
  set (e := mkEntry a now newId).
  assert (Hfront : (length front ≤ maxHistorySize)%nat).
  { unfold front. rewrite length_take. destruct Hwf. lia. }
  assert (Hrec : recordAction a now newId u
                 = ofZipper (app_data u) (cap (front ++ [e])) []).
  { rewrite (wf_zipper u Hwf) at 1. by apply recordAction_zipper. }
  rewrite Hrec.
  assert (Hcap : ∃ pre, cap (front ++ [e]) = pre ++ [e]).
  { unfold cap.
    destruct (Nat.ltb_spec maxHistorySize (length (front ++ [e]))) as [Hlt |];
      [| by exists front].
    clearbody front. destruct front as [| x front'].
    - simpl in Hlt. unfold maxHistorySize in Hlt. lia.
    - by exists front'. }
  destruct Hcap as [pre Hcap].
  unfold ofZipper, canUndo, canRedo. simpl. rewrite !app_nil_r.
  split_and!.
  - rewrite Hcap. apply last_snoc.
  - done.
  - rewrite Hcap, length_app. simpl. apply Z.leb_le. lia.
  - apply Z.ltb_irrefl.
  - done.
  - apply cap_suffix.
Qed.

Lemma recordAction_puts_cursor_on_new_entry_example :
  last (history (recordAction (other_type "export") 9 "action_9_z" sampleManager))
  = Some (mkEntry (other_type "export") 9 "action_9_z") ∧
  currentIndex (recordAction (other_type "export") 9 "action_9_z" sampleManager)
  = Z.of_nat (length (history (recordAction (other_type "export") 9 "action_9_z" sampleManager))) - 1 ∧
  canUndo (recordAction (other_type "export") 9 "action_9_z" sampleManager) = true ∧
  canRedo (recordAction (other_type "export") 9 "action_9_z" sampleManager) = false ∧
  app_data (recordAction (other_type "export") 9 "action_9_z" sampleManager)
  = app_data sampleManager ∧
  history (recordAction (other_type "export") 9 "action_9_z" sampleManager)
    `suffix_of` take (Z.to_nat (currentIndex sampleManager + 1)) (history sampleManager)
                ++ [mkEntry (other_type "export") 9 "action_9_z"].
Proof.
  apply (recordAction_puts_cursor_on_new_entry sampleManager).
  apply sampleManager_wf.
Defined.

Lemma undoMultiple_zipper saveDataThrows count : ∀ d front back,
  match (undoMultiple saveDataThrows count (ofZipper d front back)).2 with
  | Some results =>
      results = replicate (count `min` length front) true ∧
      (undoMultiple saveDataThrows count (ofZipper d front back)).1
      = undoN count (ofZipper d front back)
  | None =>
      ∃ k, (k < count `min` length front)%nat ∧
           (undoMultiple saveDataThrows count (ofZipper d front back)).1
           = undoN (S k) (ofZipper d front back) ∧
           saveDataThrows (app_data (undoN (S k) (ofZipper d front back))) = true
  end.
Proof.
  induction count as [| count IH]; intros d front back; [done |].
  destruct (snoc_or_nil front) as [-> | (front' & e & ->)].
  - cbn [undoMultiple]. rewrite canUndo_zipper_nil, undoN_exhausted. done.
  - cbn [undoMultiple]. rewrite canUndo_zipper_snoc, undo_zipper_snoc.
    rewrite length_app. cbn [length Nat.add].
    set (d1 := executeUndo (action e) d).
    assert (Hone : ∀ n, undoN (S n) (ofZipper d (front' ++ [e]) back)
                        = undoN n (ofZipper d1 front' (e :: back))).
    { intros n. by rewrite undoN_S, undo_zipper_snoc. }
    destruct (completes_afterHandler saveDataThrows (undoSaves (action e) d) d1 true)
      as [-> | [Hthrows ->]].
    + specialize (IH d1 front' (e :: back)).
      destruct (undoMultiple saveDataThrows count (ofZipper d1 front' (e :: back)))
        as [u2 [results |]]; cbn [fst snd fmap option_fmap option_map] in *.
      * destruct IH as [-> ->]. rewrite Hone. split; [| done].
        replace (S count `min` (length front' + 1))%nat
          with (S (count `min` length front')) by lia.
        done.
      * destruct IH as (k & Hk & -> & Hthrows). exists (S k).
        rewrite Hone. split_and!; [lia | done | done].
    + cbn [fst snd]. exists 0%nat. rewrite Hone. split_and!; [lia | done | done].
Qed.

Lemma redoMultiple_zipper saveDataThrows count : ∀ d front back,
  match (redoMultiple saveDataThrows count (ofZipper d front back)).2 with
  | Some results =>
      results = replicate (count `min` length back) true ∧
      (redoMultiple saveDataThrows count (ofZipper d front back)).1
      = redoN count (ofZipper d front back)
  | None =>
      ∃ k, (k < count `min` length back)%nat ∧
           (redoMultiple saveDataThrows count (ofZipper d front back)).1
           = redoN (S k) (ofZipper d front back) ∧
           saveDataThrows (app_data (redoN (S k) (ofZipper d front back))) = true
  end.
Proof.
  induction count as [| count IH]; intros d front back; [done |].
  destruct back as [| e back].
  - cbn [redoMultiple]. rewrite canRedo_zipper_nil, redoN_exhausted. done.
  - cbn [redoMultiple]. rewrite canRedo_zipper_cons, redo_zipper_cons.
    cbn [length].
    set (d1 := executeRedo (action e) d).
    assert (Hone : ∀ n, redoN (S n) (ofZipper d front (e :: back))
                        = redoN n (ofZipper d1 (front ++ [e]) back)).
    { intros n. by rewrite redoN_S, redo_zipper_cons. }
    destruct (completes_afterHandler saveDataThrows (redoSaves (action e) d) d1 true)
      as [-> | [Hthrows ->]].
    + specialize (IH d1 (front ++ [e]) back).
      destruct (redoMultiple saveDataThrows count (ofZipper d1 (front ++ [e]) back))
        as [u2 [results |]]; cbn [fst snd fmap option_fmap option_map] in *.
      * destruct IH as [-> ->]. rewrite Hone. done.
      * destruct IH as (k & Hk & -> & Hthrows). exists (S k).
        rewrite Hone. split_and!; [lia | done | done].
    + cbn [fst snd]. exists 0%nat. rewrite Hone. split_and!; [lia | done | done].
Qed.

(** X5: with the cursor in range, undoMultiple(count) never throws a
    TypeError.  If it returns, it has reached the state of count undos
    in a row and returns one [true] per entry undone,
    min(count, currentIndex + 1) of them.  Otherwise the saveData() of
    one of those undos threw: the loop stopped there, with that undo and
    the ones before it applied, and nothing is returned.  When every
    write is accepted it returns.  redoMultiple likewise, with the
    entries past the cursor. *)
Theorem undoMultiple_is_undoN (u : t) (count : nat) (saveDataThrows : Data → bool) :
  wf u →
  match (undoMultiple saveDataThrows count u).2 with
  | Some results =>
      results = replicate (count `min` Z.to_nat (currentIndex u + 1)) true ∧
      (undoMultiple saveDataThrows count u).1 = undoN count u
  | None =>
      ∃ k, (k < count `min` Z.to_nat (currentIndex u + 1))%nat ∧
           (undoMultiple saveDataThrows count u).1 = undoN (S k) u ∧
           saveDataThrows (app_data (undoN (S k) u)) = true
  end ∧
  undoMultiple (fun _ => false) count u
  = (undoN count u,
     Some (replicate (count `min` Z.to_nat (currentIndex u + 1)) true)) ∧
  match (redoMultiple saveDataThrows count u).2 with
  | Some results =>
      results = replicate
                  (count `min` (length (history u) - Z.to_nat (currentIndex u + 1)))
                  true ∧
      (redoMultiple saveDataThrows count u).1 = redoN count u
  | None =>
      ∃ k, (k < count `min` (length (history u) - Z.to_nat (currentIndex u + 1)))%nat ∧
           (redoMultiple saveDataThrows count u).1 = redoN (S k) u ∧
           saveDataThrows (app_data (redoN (S k) u)) = true
  end ∧
  redoMultiple (fun _ => false) count u
  = (redoN count u,
     Some (replicate
             (count `min` (length (history u) - Z.to_nat (currentIndex u + 1)))
             true)).
Proof.
  intros Hwf. destruct (wf_zipper_ex u Hwf) as (front & back & Hu & Hlen).
  assert (Hfront : Z.to_nat (currentIndex u + 1) = length front).
  { rewrite Hu. unfold ofZipper. cbn [currentIndex]. lia. }
  assert (Hback : (length (history u) - Z.to_nat (currentIndex u + 1))%nat = length back).
  { rewrite Hfront. rewrite Hu. unfold ofZipper. cbn [history]. rewrite length_app. lia. }
  rewrite Hback, Hfront. rewrite Hu.
  pose proof (undoMultiple_zipper saveDataThrows count (app_data u) front back) as H1.
  pose proof (undoMultiple_zipper (fun _ => false) count (app_data u) front back) as H2.
  pose proof (redoMultiple_zipper saveDataThrows count (app_data u) front back) as H3.
  pose proof (redoMultiple_zipper (fun _ => false) count (app_data u) front back) as H4.
  split_and!; [exact H1 | | exact H3 |].
  - destruct (undoMultiple (fun _ => false) count (ofZipper (app_data u) front back))
      as [u2 [results |]]; cbn [fst snd] in H2.
    + by destruct H2 as [-> ->].
    + by destruct H2 as (k & _ & _ & ?).
  - destruct (redoMultiple (fun _ => false) count (ofZipper (app_data u) front back))
      as [u2 [results |]]; cbn [fst snd] in H4.
    + by destruct H4 as [-> ->].
    + by destruct H4 as (k & _ & _ & ?).
Qed.

Lemma undoMultiple_is_undoN_example :
  match (undoMultiple storageFull 5 sampleManager).2 with
  | Some results =>
      results = replicate (5 `min` Z.to_nat (currentIndex sampleManager + 1)) true ∧
      (undoMultiple storageFull 5 sampleManager).1 = undoN 5 sampleManager
  | None =>
      ∃ k, (k < 5 `min` Z.to_nat (currentIndex sampleManager + 1))%nat ∧
           (undoMultiple storageFull 5 sampleManager).1 = undoN (S k) sampleManager ∧
           storageFull (app_data (undoN (S k) sampleManager)) = true
  end ∧
  undoMultiple (fun _ => false) 5 sampleManager
  = (undoN 5 sampleManager,
     Some (replicate (5 `min` Z.to_nat (currentIndex sampleManager + 1)) true)) ∧
  match (redoMultiple storageFull 5 sampleManager).2 with
  | Some results =>
      results = replicate
                  (5 `min` (length (history sampleManager)
                            - Z.to_nat (currentIndex sampleManager + 1)))
                  true ∧
      (redoMultiple storageFull 5 sampleManager).1 = redoN 5 sampleManager
  | None =>
      ∃ k, (k < 5 `min` (length (history sampleManager)
                         - Z.to_nat (currentIndex sampleManager + 1)))%nat ∧
           (redoMultiple storageFull 5 sampleManager).1 = redoN (S k) sampleManager ∧
           storageFull (app_data (redoN (S k) sampleManager)) = true
  end ∧
  redoMultiple (fun _ => false) 5 sampleManager
  = (redoN 5 sampleManager,
     Some (replicate
             (5 `min` (length (history sampleManager)
                       - Z.to_nat (currentIndex sampleManager + 1)))
             true)).
Proof. apply (undoMultiple_is_undoN sampleManager 5 storageFull). apply sampleManager_wf. Defined.

(** X6: compressHistory leaves a manager whose log is within capacity
    exactly as it is (its threshold of 100 entries is never reached
    there); on a log of more than 100 entries it keeps the last 50, and a
    cursor that was in range stays in range, on the last entry if it was
    on the last entry. *)
Theorem compressHistory_behaviour (u : t) :
  (wf u → compressHistory u = u) ∧
  ((100 < length (history u))%nat →
   -1 ≤ currentIndex u < Z.of_nat (length (history u)) →
   history (compressHistory u) = drop (length (history u) - 50) (history u) ∧
   length (history (compressHistory u)) = 50%nat ∧
   wf (compressHistory u) ∧
   (currentIndex u = Z.of_nat (length (history u)) - 1 →
    currentIndex (compressHistory u) = 49)).
Proof.
  unfold compressHistory, sliceLast, wf, maxHistorySize. split.
  - intros [_ Hlen]. destruct (Nat.ltb_spec 100 (length (history u))); [lia | done].
  - intros Hlong Hci. destruct (Nat.ltb_spec 100 (length (history u))); [| lia].
    cbn [history currentIndex]. rewrite length_drop.
    split_and!; [done | lia | lia | lia | lia | lia].
Qed.

End UndoLogFacts.

(** ** More on attendance toggles *)

Module ToggleFacts.

Import UndoManager UndoFacts.

(** The "initialize if needed" step of [markAttendance]. *)
Definition withRecord (key : string) (a : gmap string Day) : gmap string Day :=
  match a !! key with
  | Some _ => a
  | None => <[key := mkDay false false]> a
  end.

(** The attendance map after the toggle, and the action it records. *)
Definition toggled (key : string) (m : Meal) (a : gmap string Day) : gmap string Day :=
  alter (setMeal m (negb (getMeal m (default (mkDay false false)
                                       (withRecord key a !! key)))))
        key (withRecord key a).

Definition toggleAction (key : string) (m : Meal) (a : gmap string Day) : Action :=
  let previousState :=
    getMeal m (default (mkDay false false) (withRecord key a !! key)) in
  (if negb previousState then mark_attendance else unmark_attendance)
    key m previousState.

Lemma markAttendance_explicit today m now newId d front back :
  (length front ≤ maxHistorySize)%nat →
  MessTrack.markAttendance today (mealName m) now newId (ofZipper d front back)
  = ofZipper (withAttendance (fun _ => toggled (getTodayString today) m (attendance d)) d)
      (cap (front ++ [mkEntry (toggleAction (getTodayString today) m (attendance d))
                        now newId]))
      [].
Proof.
  intros Hlen. unfold MessTrack.markAttendance.
  replace (mealOfString (mealName m)) with (Some m) by by destruct m.
  cbn [app_data ofZipper].
  change (mk ?d' (history (ofZipper d front back))
             (currentIndex (ofZipper d front back)))
    with (ofZipper d' front back).
  by rewrite recordAction_zipper.
Qed.

Lemma withRecord_lookup key a :
  withRecord key a !! key = Some (default (mkDay false false) (a !! key)).
Proof.
  unfold withRecord. destruct (a !! key) as [day |] eqn:H; [done |].
  apply lookup_insert_eq.
Qed.

Lemma setMeal_getMeal m day : setMeal m (getMeal m day) day = day.
Proof. by destruct m, day. Qed.

Lemma setMeal_setMeal m b b' day : setMeal m b (setMeal m b' day) = setMeal m b day.
Proof. by destruct m, day. Qed.

Lemma alter_withRecord_id key m a :
  alter (setMeal m (getMeal m (default (mkDay false false) (a !! key)))) key
        (withRecord key a)
  = withRecord key a.
Proof.
  apply map_eq. intros k. rewrite lookup_alter.
  destruct (decide (key = k)) as [<- |]; [| done].
  rewrite withRecord_lookup. simpl. by rewrite setMeal_getMeal.
Qed.

(** Undoing the toggle's own action on the toggled map. *)
Lemma undo_toggled key m a d :
  attendance d = toggled key m a →
  attendance (executeUndo (toggleAction key m a) d) = withRecord key a.
Proof.
  intros Hd. pose proof (withRecord_lookup key a) as HW.
  unfold toggleAction, toggled in *. rewrite HW in Hd |- *. simpl in Hd |- *.
  set (day := default (mkDay false false) (a !! key)) in *.
  pose proof (setMeal_getMeal m day) as Hday.
  destruct (getMeal m day) eqn:Hp; simpl in *.
  - unfold undoUnmarkAttendance, withAttendance, createAndSet. simpl.
    rewrite Hd. apply map_eq. intros k.
    destruct (decide (key = k)) as [<- | Hk].
    + rewrite lookup_insert_eq, lookup_alter_eq, HW. simpl.
      by rewrite setMeal_setMeal, Hday.
    + by rewrite lookup_insert_ne, lookup_alter_ne.
  - unfold undoMarkAttendance, withAttendance, setIfPresent. simpl.
    rewrite Hd. apply map_eq. intros k.
    destruct (decide (key = k)) as [<- | Hk].
    + rewrite !lookup_alter_eq, HW. simpl.
      by rewrite setMeal_setMeal, Hday.
    + by rewrite !lookup_alter_ne.
Qed.

Lemma toggled_present key m a : is_Some (toggled key m a !! key).
Proof.
  unfold toggled. rewrite lookup_alter_eq, withRecord_lookup. by eexists.
Qed.

Lemma undoSaves_toggled key m a d :
  undoSaves (toggleAction key m a) (withAttendance (fun _ => toggled key m a) d) = true.
Proof.
  unfold toggleAction. destruct (getMeal m _); simpl; [done |].
  apply bool_decide_eq_true. apply toggled_present.
Qed.

(** X7: on a manager with the cursor in range, markAttendance followed by
    undo() gives back the attendance map from before the toggle, except
    that a record the toggle had to create stays, with both meals false;
    notes and summaries are as before.  The handler of the undo always
    reaches its saveData(): undo() returns true if those writes are
    accepted, and otherwise the exception of saveData leaves the call,
    with the document already changed back. *)
Theorem markAttendance_then_undo (u : t) (today : JsDate) (m : Meal) (now : Z)
    (newId : string) :
  wf u →
  (undo (MessTrack.markAttendance today (mealName m) now newId u)).2
  = Saves (app_data (undo (MessTrack.markAttendance today (mealName m) now newId u)).1)
          true ∧
  attendance (app_data (undo (MessTrack.markAttendance today (mealName m) now newId u)).1)
  = withRecord (getTodayString today) (attendance (app_data u)) ∧
  notes (app_data (undo (MessTrack.markAttendance today (mealName m) now newId u)).1)
  = notes (app_data u) ∧
  summaries (app_data (undo (MessTrack.markAttendance today (mealName m) now newId u)).1)
  = summaries (app_data u).
Proof.
  intros Hwf. destruct (wf_zipper_ex u Hwf) as (front & back & Hu & Hlen).
  rewrite length_app in Hlen.
  set (key := getTodayString today). set (a := attendance (app_data u)).
  set (e := mkEntry (toggleAction key m a) now newId).
  assert (Hcap : ∃ pre, cap (front ++ [e]) = pre ++ [e]).
  { unfold cap.
    destruct (Nat.ltb_spec maxHistorySize (length (front ++ [e]))) as [Hlt |];
      [| by exists front].
    destruct front as [| x front'].
    - simpl in Hlt. unfold maxHistorySize in Hlt. lia.
    - by exists front'. }
  destruct Hcap as [pre Hcap].
  assert (Hstate : undo (MessTrack.markAttendance today (mealName m) now newId u)
                   = (ofZipper (executeUndo (toggleAction key m a)
                                  (withAttendance (fun _ => toggled key m a) (app_data u)))
                        pre [e],
                      Saves (executeUndo (toggleAction key m a)
                               (withAttendance (fun _ => toggled key m a) (app_data u)))
                            true)).
  { rewrite Hu at 1. rewrite markAttendance_explicit by lia.
    fold key a e. rewrite Hcap. rewrite undo_zipper_snoc.
    cbn [action e]. unfold e. cbn [action]. by rewrite undoSaves_toggled. }
  rewrite Hstate. cbn [fst snd app_data ofZipper].
  split_and!; [done | by apply undo_toggled | |].
  - unfold toggleAction. by destruct (getMeal m _).
  - unfold toggleAction. by destruct (getMeal m _).
Qed.

Lemma markAttendance_then_undo_example :
  (undo (MessTrack.markAttendance (mkDate 2024 0 1) (mealName Lunch) 7 "action_7_q"
           UndoLogFacts.sampleManager)).2
  = Saves (app_data (undo (MessTrack.markAttendance (mkDate 2024 0 1) (mealName Lunch)
                             7 "action_7_q" UndoLogFacts.sampleManager)).1)
          true ∧
  attendance (app_data (undo (MessTrack.markAttendance (mkDate 2024 0 1) (mealName Lunch)
                                7 "action_7_q" UndoLogFacts.sampleManager)).1)
  = withRecord (getTodayString (mkDate 2024 0 1))
      (attendance (app_data UndoLogFacts.sampleManager)) ∧
  notes (app_data (undo (MessTrack.markAttendance (mkDate 2024 0 1) (mealName Lunch)
                           7 "action_7_q" UndoLogFacts.sampleManager)).1)
  = notes (app_data UndoLogFacts.sampleManager) ∧
  summaries (app_data (undo (MessTrack.markAttendance (mkDate 2024 0 1) (mealName Lunch)
                               7 "action_7_q" UndoLogFacts.sampleManager)).1)
  = summaries (app_data UndoLogFacts.sampleManager).
Proof.
  apply (markAttendance_then_undo UndoLogFacts.sampleManager).
  apply UndoLogFacts.sampleManager_wf.
Defined.

Lemma toggled_toggled key m a : toggled key m (toggled key m a) = withRecord key a.
Proof.
  pose proof (withRecord_lookup key a) as HW.
  set (day := default (mkDay false false) (a !! key)) in *.
  assert (HT : toggled key m a !! key
               = Some (setMeal m (negb (getMeal m day)) day)).
  { unfold toggled. by rewrite lookup_alter_eq, HW. }
  assert (HWT : withRecord key (toggled key m a) = toggled key m a).
  { unfold withRecord. by rewrite HT. }
  unfold toggled at 1. rewrite HWT, HT.
  change (default (mkDay false false) (Some ?x)) with x.
  rewrite getMeal_setMeal, decide_True by done. rewrite negb_involutive.
  apply map_eq. intros k. destruct (decide (key = k)) as [<- | Hk].
  - rewrite lookup_alter_eq, HT, HW. simpl.
    by rewrite setMeal_setMeal, setMeal_getMeal.
  - rewrite lookup_alter_ne by done. unfold toggled. by rewrite lookup_alter_ne.
Qed.

(** X8: marking the same meal of the same day twice in a row leaves the
    attendance map as it was (a record created by the first toggle stays,
    with both meals false), and both toggles are recorded: the cursor
    ends at index 1 or later, so two undos are available. *)
Theorem markAttendance_twice (u : t) (today : JsDate) (m : Meal) (now1 now2 : Z)
    (id1 id2 : string) :
  wf u →
  attendance (app_data
    (MessTrack.markAttendance today (mealName m) now2 id2
       (MessTrack.markAttendance today (mealName m) now1 id1 u)))
  = withRecord (getTodayString today) (attendance (app_data u)) ∧
  1 ≤ currentIndex
        (MessTrack.markAttendance today (mealName m) now2 id2
           (MessTrack.markAttendance today (mealName m) now1 id1 u)) ∧
  wf (MessTrack.markAttendance today (mealName m) now2 id2
        (MessTrack.markAttendance today (mealName m) now1 id1 u)).
Proof.
  intros Hwf. destruct (wf_zipper_ex u Hwf) as (front & back & Hu & Hlen).
  rewrite length_app in Hlen.
  set (key := getTodayString today). set (a := attendance (app_data u)).
  set (e1 := mkEntry (toggleAction key m a) now1 id1).
  set (e2 := mkEntry (toggleAction key m (toggled key m a)) now2 id2).
  assert (Hcap1 : ∃ pre, cap (front ++ [e1]) = pre ++ [e1] ∧
                         (length pre < maxHistorySize)%nat).
  { unfold cap.
    destruct (Nat.ltb_spec maxHistorySize (length (front ++ [e1]))) as [Hlt |].
    - destruct front as [| x front'].
      + simpl in Hlt. unfold maxHistorySize in Hlt. lia.
      + exists front'. split; [done |]. simpl in Hlen. lia.
    - exists front. split; [done |]. rewrite length_app in *. simpl in *. lia. }
  destruct Hcap1 as (pre & Hcap1 & Hpre).
  assert (Hstate : MessTrack.markAttendance today (mealName m) now2 id2
                     (MessTrack.markAttendance today (mealName m) now1 id1 u)
                   = ofZipper (withAttendance (fun _ => withRecord key a) (app_data u))
                       (cap ((pre ++ [e1]) ++ [e2])) []).
  { rewrite Hu at 1. rewrite markAttendance_explicit by lia.
    fold key a e1. rewrite Hcap1.
    rewrite markAttendance_explicit by (rewrite length_app; simpl; lia).
    cbn [attendance withAttendance]. fold key e2. rewrite toggled_toggled. done. }
  rewrite Hstate.
  assert (Hcap2 : cap ((pre ++ [e1]) ++ [e2]) = (pre ++ [e1]) ++ [e2]
                  ∨ ∃ pre', cap ((pre ++ [e1]) ++ [e2]) = (pre' ++ [e1]) ++ [e2]
                            ∧ (length pre' < maxHistorySize)%nat).
  { unfold cap.
    destruct (Nat.ltb_spec maxHistorySize (length ((pre ++ [e1]) ++ [e2]))) as [Hlt |];
      [| by left].
    right. rewrite !length_app in Hlt. simpl in Hlt.
    destruct pre as [| x pre'].
    - unfold maxHistorySize in Hlt. simpl in Hlt. lia.
    - exists pre'. split; [done |]. simpl in Hpre. lia. }
  split_and!; [done | |].
  - destruct Hcap2 as [-> | (pre' & -> & _)]; unfold ofZipper;
      cbn [currentIndex]; rewrite !length_app; simpl; lia.
  - apply zipper_wf. rewrite app_nil_r. apply length_cap.
    rewrite !length_app. simpl. lia.
Qed.

Lemma markAttendance_twice_example :
  attendance (app_data
    (MessTrack.markAttendance (mkDate 2024 0 1) (mealName Dinner) 8 "action_8_r"
       (MessTrack.markAttendance (mkDate 2024 0 1) (mealName Dinner) 7 "action_7_q"
          UndoLogFacts.sampleManager)))
  = withRecord (getTodayString (mkDate 2024 0 1))
      (attendance (app_data UndoLogFacts.sampleManager)) ∧
  1 ≤ currentIndex
        (MessTrack.markAttendance (mkDate 2024 0 1) (mealName Dinner) 8 "action_8_r"
           (MessTrack.markAttendance (mkDate 2024 0 1) (mealName Dinner) 7 "action_7_q"
              UndoLogFacts.sampleManager)) ∧
  wf (MessTrack.markAttendance (mkDate 2024 0 1) (mealName Dinner) 8 "action_8_r"
        (MessTrack.markAttendance (mkDate 2024 0 1) (mealName Dinner) 7 "action_7_q"
           UndoLogFacts.sampleManager)).
Proof.
  apply (markAttendance_twice UndoLogFacts.sampleManager).
  apply UndoLogFacts.sampleManager_wf.
Defined.

End ToggleFacts.

(** ** Bulk edit of selected days (app.js) *)

Module BulkEdit.

Import UndoManager.

(** What [bulkMarkMeal(type)] sets in one record, by [type]; a type other
    than the three sets nothing. *)
Definition mealsOf (type : string) (day : Day) : Day :=
  if String.eqb type "lunch" then setMeal Lunch true day
  else if String.eqb type "dinner" then setMeal Dinner true day
  else if String.eqb type "both" then setMeal Dinner true (setMeal Lunch true day)
  else day.

(** One turn of the [selectedDays.forEach] of [bulkMarkMeal]. *)
Definition markDay (type : string) (a : gmap string Day) (dateStr : string)
  : gmap string Day :=
  let a1 := match a !! dateStr with
            | Some _ => a
            | None => <[dateStr := mkDay false false]> a
            end in
  alter (mealsOf type) dateStr a1.

(** [bulkMarkMeal(type)]; [selectedDays] lists the set in insertion
    order.  The number is the count shown in the toast, [None] when the
    call stops at "Please select at least one day". *)
Definition bulkMarkMeal (type : string) (selectedDays : list string) (d : Data)
  : Data * option nat :=
  match selectedDays with
  | [] => (d, None)
  | _ =>
      (withAttendance (fun a => foldl (markDay type) a selectedDays) d,
       Some (length selectedDays))
  end.

(** One turn of the [forEach] of [bulkClearMeals], with its counter. *)
Definition clearDay (st : gmap string Day * nat) (dateStr : string)
  : gmap string Day * nat :=
  match st.1 !! dateStr with
  | Some _ =>
      (alter (fun day => setMeal Dinner false (setMeal Lunch false day)) dateStr st.1,
       S st.2)
  | None => st
  end.

(** [bulkClearMeals()]; [confirmed] is the answer to the [confirm]
    dialog. *)
Definition bulkClearMeals (confirmed : bool) (selectedDays : list string) (d : Data)
  : Data * option nat :=
  match selectedDays with
  | [] => (d, None)
  | _ =>
      if confirmed then
        let '(a, count) := foldl clearDay (attendance d, 0%nat) selectedDays in
        (withAttendance (fun _ => a) d, Some count)
      else (d, None)
  end.

End BulkEdit.

Module BulkEditFacts.

Import UndoManager BulkEdit.

Lemma mealsOf_idem type day : mealsOf type (mealsOf type day) = mealsOf type day.
Proof.
  unfold mealsOf. repeat case_match; by destruct day.
Qed.

Lemma markDay_lookup type a dateStr k :
  markDay type a dateStr !! k
  = if decide (dateStr = k)
    then Some (mealsOf type (default (mkDay false false) (a !! k)))
    else a !! k.
Proof.
  unfold markDay. rewrite lookup_alter.
  destruct (decide (dateStr = k)) as [<- | Hk].
  - destruct (a !! dateStr) as [day |] eqn:Hd; [by rewrite Hd |].
    by rewrite lookup_insert_eq.
  - destruct (a !! dateStr); [done |]. by rewrite lookup_insert_ne.
Qed.

Lemma foldl_markDay_lookup type selectedDays : ∀ a k,
  foldl (markDay type) a selectedDays !! k
  = if decide (k ∈ selectedDays)
    then Some (mealsOf type (default (mkDay false false) (a !! k)))
    else a !! k.
Proof.
  induction selectedDays as [| dateStr rest IH]; intros a k; cbn [foldl].
  - rewrite decide_False; [done |]. apply not_elem_of_nil.
  - rewrite IH, markDay_lookup.
    destruct (decide (dateStr = k)) as [<- | Hk].
    + rewrite (decide_True (P := dateStr ∈ dateStr :: rest)) by left.
      simpl. rewrite mealsOf_idem. by destruct (decide (dateStr ∈ rest)).
    + destruct (decide (k ∈ rest)) as [Hin | Hnin].
      * rewrite decide_True; [done |]. by right.
      * rewrite decide_False; [done |].
        intros [-> | ?]%elem_of_cons; done.
Qed.

(** X9: after bulkMarkMeal(type) on a non-empty selection, every selected
    date has a record in which the meals of [type] are true and the other
    meal is what it was (false when the record is new), every other date
    is exactly as before, and the count shown is the size of the
    selection.  With a type other than lunch, dinner and both nothing is
    set, but missing records of selected dates are still created. *)
Theorem bulkMarkMeal_lookup (type : string) (first : string) (rest : list string)
    (d : Data) (k : string) :
  attendance (bulkMarkMeal type (first :: rest) d).1 !! k
  = (if decide (k ∈ first :: rest)
     then Some (mealsOf type (default (mkDay false false) (attendance d !! k)))
     else attendance d !! k) ∧
  (bulkMarkMeal type (first :: rest) d).2 = Some (S (length rest)) ∧
  notes (bulkMarkMeal type (first :: rest) d).1 = notes d ∧
  summaries (bulkMarkMeal type (first :: rest) d).1 = summaries d.
Proof.
  split_and!; try done.
  unfold bulkMarkMeal. cbn [fst withAttendance attendance].
  apply foldl_markDay_lookup.
Qed.

Lemma foldl_clearDay selectedDays : ∀ a n,
  (∀ k, (foldl clearDay (a, n) selectedDays).1 !! k
        = if decide (k ∈ selectedDays)
          then (fun _ => mkDay false false) <$> a !! k
          else a !! k) ∧
  (foldl clearDay (a, n) selectedDays).2
  = (n + length (List.filter (fun k => bool_decide (is_Some (a !! k))) selectedDays))%nat.
Proof.
  induction selectedDays as [| dateStr rest IH]; intros a n.
  - split; [| simpl; lia]. intros k. cbn [foldl fst].
    rewrite decide_False; [done |]. apply not_elem_of_nil.
  - cbn [foldl].
    assert (Hstep : clearDay (a, n) dateStr
                    = match a !! dateStr with
                      | Some _ =>
                          (alter (fun day => setMeal Dinner false (setMeal Lunch false day))
                             dateStr a, S n)
                      | None => (a, n)
                      end) by done.
    rewrite Hstep. clear Hstep.
    destruct (a !! dateStr) as [day |] eqn:Hd.
    + destruct (IH (alter (fun day => setMeal Dinner false (setMeal Lunch false day))
                      dateStr a) (S n)) as [IHk IHn].
      split.
      * intros k. rewrite IHk, lookup_alter.
        destruct (decide (dateStr = k)) as [<- | Hk].
        -- rewrite (decide_True (P := dateStr ∈ dateStr :: rest)) by left.
           rewrite Hd. simpl. by destruct (decide (dateStr ∈ rest)), day.
        -- destruct (decide (k ∈ rest)) as [Hin | Hnin].
           ++ rewrite decide_True; [done |]. by right.
           ++ rewrite decide_False; [done |].
              intros [-> | ?]%elem_of_cons; done.
      * rewrite IHn. cbn [List.filter]. rewrite Hd.
        rewrite bool_decide_true by eauto. cbn [length].
        assert (Hsame : List.filter
                  (fun k => bool_decide (is_Some
                     (alter (fun day => setMeal Dinner false (setMeal Lunch false day))
                        dateStr a !! k))) rest
                = List.filter (fun k => bool_decide (is_Some (a !! k))) rest).
        { apply filter_ext. intros k. apply bool_decide_ext.
          rewrite lookup_alter. destruct (decide (dateStr = k)) as [<- |]; [| done].
          by rewrite fmap_is_Some. }
        rewrite Hsame. lia.
    + destruct (IH a n) as [IHk IHn]. split.
      * intros k. rewrite IHk.
        destruct (decide (dateStr = k)) as [<- | Hk].
        -- rewrite (decide_True (P := dateStr ∈ dateStr :: rest)) by left.
           rewrite Hd. by destruct (decide (dateStr ∈ rest)).
        -- destruct (decide (k ∈ rest)) as [Hin | Hnin].
           ++ rewrite decide_True; [done |]. by right.
           ++ rewrite decide_False; [done |].
              intros [-> | ?]%elem_of_cons; done.
      * rewrite IHn. cbn [List.filter]. rewrite Hd.
        rewrite bool_decide_false by (intros [? ?]; done). done.
Qed.

(** X10: a confirmed bulkClearMeals() on a non-empty selection sets both
    meals to false in the records of the selected dates that have one,
    creates no record, leaves every other date as before, and counts the
    selected dates that had a record; declined, it changes nothing. *)
Theorem bulkClearMeals_lookup (first : string) (rest : list string) (d : Data)
    (k : string) :
  attendance (bulkClearMeals true (first :: rest) d).1 !! k
  = (if decide (k ∈ first :: rest)
     then (fun _ => mkDay false false) <$> attendance d !! k
     else attendance d !! k) ∧
  (bulkClearMeals true (first :: rest) d).2
  = Some (length (List.filter (fun k => bool_decide (is_Some (attendance d !! k)))
                    (first :: rest))) ∧
  dom (attendance (bulkClearMeals true (first :: rest) d).1) = dom (attendance d) ∧
  bulkClearMeals false (first :: rest) d = (d, None).
Proof.
  unfold bulkClearMeals.
  destruct (foldl_clearDay (first :: rest) (attendance d) 0) as [Hk Hn].
  destruct (foldl clearDay (attendance d, 0%nat) (first :: rest)) as [a count] eqn:Hfold.
  cbn [fst snd withAttendance attendance] in *.
  split_and!; [apply Hk | by rewrite Hn | | done].
  apply set_eq. intros j. rewrite !elem_of_dom, Hk.
  destruct (decide (j ∈ first :: rest)); [by rewrite fmap_is_Some | done].
Qed.

End BulkEditFacts.

(** ** The monthly counters *)

Module StatisticsInvariants.

Import StatisticsManager StatisticsFacts MessTrack.

(** How many of [dates] have a record that satisfies [p]. *)
Definition countDays (p : Day → bool) (attendance : gmap string Day)
    (dates : list string) : nat :=
  length (List.filter (fun date => from_option p false (attendance !! date)) dates).

Definition hasLunch (day : Day) : bool := lunch day.
Definition hasDinner (day : Day) : bool := dinner day.
Definition hasBoth (day : Day) : bool := lunch day && dinner day.
Definition onlyLunch (day : Day) : bool := lunch day && negb (dinner day).
Definition onlyDinner (day : Day) : bool := negb (lunch day) && dinner day.
Definition hasNone (day : Day) : bool := negb (lunch day) && negb (dinner day).
Definition hasAny (day : Day) : bool := lunch day || dinner day.

Lemma countDays_cons p attendance date rest :
  countDays p attendance (date :: rest)
  = ((if from_option p false (attendance !! date) then 1 else 0)
     + countDays p attendance rest)%nat.
Proof. unfold countDays. simpl. by case_match. Qed.

Lemma countDays_app p attendance l1 l2 :
  countDays p attendance (l1 ++ l2)
  = (countDays p attendance l1 + countDays p attendance l2)%nat.
Proof.
  induction l1 as [| date l1 IH]; [done |].
  rewrite <- app_comm_cons, !countDays_cons, IH. lia.
Qed.

Lemma length_filter_Permutation {X} (f : X → bool) (l l' : list X) :
  l ≡ₚ l' → length (List.filter f l) = length (List.filter f l').
Proof.
  induction 1 as [| x l l' _ IH | x y l | l l' l'' _ IH1 _ IH2]; simpl.
  - done.
  - destruct (f x); simpl; by rewrite IH.
  - by destruct (f x), (f y).
  - by rewrite IH1.
Qed.

Lemma tallyLoop_counts attendance dates : ∀ t,
  Forall (fun d => is_Some (attendance !! d)) dates →
  ∃ t', tallyLoop attendance dates t = Some t' ∧
    t_lunch t' = (t_lunch t + countDays hasLunch attendance dates)%nat ∧
    t_dinner t' = (t_dinner t + countDays hasDinner attendance dates)%nat ∧
    t_both t' = (t_both t + countDays hasBoth attendance dates)%nat ∧
    t_onlyLunch t' = (t_onlyLunch t + countDays onlyLunch attendance dates)%nat ∧
    t_onlyDinner t' = (t_onlyDinner t + countDays onlyDinner attendance dates)%nat ∧
    t_skipped t' = (t_skipped t + countDays hasNone attendance dates)%nat.
Proof.
  induction dates as [| date rest IH]; intros t Hrec.
  - exists t. unfold countDays. simpl. split_and!; [done | lia ..].
  - apply Forall_cons in Hrec as [[day Hday] Hrest].
    destruct (IH (tallyDay day t) Hrest) as (t' & Ht' & H1 & H2 & H3 & H4 & H5 & H6).
    exists t'. simpl. rewrite Hday. split; [done |].
    rewrite !countDays_cons, Hday, H1, H2, H3, H4, H5, H6.
    unfold hasLunch, hasDinner, hasBoth, onlyLunch, onlyDinner, hasNone, tallyDay.
    destruct day as [[] []]; simpl; lia.
Qed.

Lemma countDays_partition attendance dates :
  Forall (fun d => is_Some (attendance !! d)) dates →
  (countDays hasBoth attendance dates + countDays onlyLunch attendance dates
   + countDays onlyDinner attendance dates + countDays hasNone attendance dates
   = length dates)%nat ∧
  (countDays hasAny attendance dates + countDays hasNone attendance dates
   = length dates)%nat.
Proof.
  induction 1 as [| date rest [day Hday] _ IH]; [done |].
  rewrite !countDays_cons, Hday. simpl.
  unfold hasBoth, onlyLunch, onlyDinner, hasNone, hasAny in *.
  destruct day as [[] []]; simpl; lia.
Qed.

Lemma countDays_meals attendance dates :
  countDays hasLunch attendance dates
  = (countDays hasBoth attendance dates + countDays onlyLunch attendance dates)%nat ∧
  countDays hasDinner attendance dates
  = (countDays hasBoth attendance dates + countDays onlyDinner attendance dates)%nat ∧
  (countDays hasLunch attendance dates ≤ length dates)%nat ∧
  (countDays hasDinner attendance dates ≤ length dates)%nat.
Proof.
  induction dates as [| date rest IH]; [done |].
  rewrite !countDays_cons. simpl.
  unfold hasLunch, hasDinner, hasBoth, onlyLunch, onlyDinner in *.
  destruct (attendance !! date) as [[[] []] |]; simpl; lia.
Qed.

Lemma countDays_run attendance run :
  Forall (Attended attendance) run → countDays hasAny attendance run = length run.
Proof.
  induction 1 as [| date rest Hdate _ IH]; [done |].
  rewrite countDays_cons, IH. unfold Attended, attended in Hdate.
  unfold hasAny. destruct (attendance !! date); simpl in *; [| done].
  by rewrite Hdate.
Qed.

(** [calculateMonthlyStats] returns on every map, and what its fields
    are in terms of the month's dates. *)
Lemma monthlyStats_returns (currentMonth : JsDate) (attendance : gmap string Day) :
  ∃ stats,
    calculateMonthlyStats currentMonth attendance = Some stats ∧
    monthKey stats = monthKeyOf currentMonth ∧
    totalDays stats = length (monthDates attendance (monthKey stats)) ∧
    lunchCount stats
    = countDays hasLunch attendance (monthDates attendance (monthKey stats)) ∧
    dinnerCount stats
    = countDays hasDinner attendance (monthDates attendance (monthKey stats)) ∧
    bothMealsCount stats
    = countDays hasBoth attendance (monthDates attendance (monthKey stats)) ∧
    onlyLunchCount stats
    = countDays onlyLunch attendance (monthDates attendance (monthKey stats)) ∧
    onlyDinnerCount stats
    = countDays onlyDinner attendance (monthDates attendance (monthKey stats)) ∧
    skippedBothCount stats
    = countDays hasNone attendance (monthDates attendance (monthKey stats)) ∧
    totalMealsAttended stats = (lunchCount stats + dinnerCount stats)%nat ∧
    totalPossibleMeals stats = (totalDays stats * 2)%nat ∧
    (∃ pre run, monthDates attendance (monthKey stats) = pre ++ run ∧
                currentStreak stats = length run ∧
                Forall (Attended attendance) run) ∧
    IsMaxRun attendance (monthDates attendance (monthKey stats)) (longestStreak stats) ∧
    (if (totalDays stats =? 0)%nat
     then attendancePercentage stats = PNumber 0 ∧
          lunchPercentage stats = PNumber 0 ∧
          dinnerPercentage stats = PNumber 0
     else attendancePercentage stats
          = PText (percentFixed1 (totalMealsAttended stats) (totalPossibleMeals stats)) ∧
          lunchPercentage stats
          = PText (percentFixed1 (lunchCount stats) (totalDays stats)) ∧
          dinnerPercentage stats
          = PText (percentFixed1 (dinnerCount stats) (totalDays stats))).
Proof.
  unfold calculateMonthlyStats.
  set (key := monthKeyOf currentMonth).
  set (dates := monthDates attendance key).
  pose proof (monthDates_recorded attendance key) as Hrec. fold dates in Hrec.
  destruct (tallyLoop_counts attendance dates (mkTally 0 0 0 0 0 0) Hrec)
    as (t & Ht & H1 & H2 & H3 & H4 & H5 & H6).
  destruct (calculateCurrentStreak_spec attendance _ Hrec)
    as (pre & run & Heq & Hc & Hrun & _).
  destruct (calculateLongestStreak_spec attendance _ Hrec) as (l & Hl & Hmax).
  unfold dates in Heq, Hmax. rewrite sort_monthDates in Heq, Hmax. fold dates in Heq, Hmax.
  rewrite Ht, Hc, Hl. cbn [mbind option_bind]. eexists. split; [reflexivity |].
  cbn [monthKey totalDays lunchCount dinnerCount bothMealsCount onlyLunchCount
       onlyDinnerCount skippedBothCount totalMealsAttended totalPossibleMeals
       attendancePercentage lunchPercentage dinnerPercentage currentStreak
       longestStreak].
  fold dates. simpl in H1, H2, H3, H4, H5, H6.
  split_and!; try done.
  - by exists pre, run.
  - destruct (length dates) as [| n]; done.
Qed.

(** X11: calculateMonthlyStats returns for every attendance map and month
    shown.  The four exclusive counters (both, only lunch, only dinner,
    none) add up to totalDays; lunchCount and dinnerCount are the sums of
    the counters they cover and never exceed totalDays; attended meals
    never exceed the possible ones; the current streak is at most the
    longest one, and the longest streak plus the fully skipped days is at
    most totalDays.  The attendance percentage is the number 0 exactly
    when the month has no record, and a text otherwise. *)
Theorem monthlyStats_invariants (currentMonth : JsDate) (attendance : gmap string Day) :
  ∃ stats,
    calculateMonthlyStats currentMonth attendance = Some stats ∧
    (bothMealsCount stats + onlyLunchCount stats + onlyDinnerCount stats
     + skippedBothCount stats = totalDays stats)%nat ∧
    lunchCount stats = (bothMealsCount stats + onlyLunchCount stats)%nat ∧
    dinnerCount stats = (bothMealsCount stats + onlyDinnerCount stats)%nat ∧
    (lunchCount stats ≤ totalDays stats)%nat ∧
    (dinnerCount stats ≤ totalDays stats)%nat ∧
    (totalMealsAttended stats ≤ totalPossibleMeals stats)%nat ∧
    (currentStreak stats ≤ longestStreak stats)%nat ∧
    (longestStreak stats + skippedBothCount stats ≤ totalDays stats)%nat ∧
    (if (totalDays stats =? 0)%nat
     then attendancePercentage stats = PNumber 0
     else ∃ text, attendancePercentage stats = PText text).
Proof.
  destruct (monthlyStats_returns currentMonth attendance)
    as (stats & Hstats & _ & Htotal & Hlunch & Hdinner & Hboth & HoL & HoD & Hnone
        & Hatt & Hposs & (pre & run & Heq & Hc & Hrun) & Hmax & Hpct).
  exists stats. split; [done |].
  set (dates := monthDates attendance (monthKey stats)) in *.
  pose proof (monthDates_recorded attendance (monthKey stats)) as Hrec. fold dates in Hrec.
  destruct (countDays_partition attendance dates Hrec) as [Hpart Hany].
  destruct (countDays_meals attendance dates) as (Hl1 & Hd1 & Hl2 & Hd2).
  assert (Hlong : (longestStreak stats ≤ countDays hasAny attendance dates)%nat).
  { destruct Hmax as [(pre' & run' & post' & Heq' & Hlen & Hrun') _].
    rewrite Heq', !countDays_app, (countDays_run attendance run' Hrun'). lia. }
  split_and!; try lia.
  - rewrite Hc. destruct Hmax as [_ Hmax]. apply (Hmax pre run []); [| done].
    by rewrite app_nil_r.
  - destruct (totalDays stats =? 0)%nat; [tauto |].
    destruct Hpct as [Hpct _]. eauto.
Qed.

Lemma countMonth_from key entries : ∀ a b c,
  foldl (fun '(lunchCount, dinnerCount, totalDays) '(date, meals) =>
           if startsWith date key
           then ((if lunch meals then S lunchCount else lunchCount),
                 (if dinner meals then S dinnerCount else dinnerCount),
                 S totalDays)
           else (lunchCount, dinnerCount, totalDays))
        (a, b, c) entries
  = ((a + length (List.filter (fun e : string * Day =>
                                 startsWith e.1 key && lunch e.2) entries))%nat,
     (b + length (List.filter (fun e : string * Day =>
                                 startsWith e.1 key && dinner e.2) entries))%nat,
     (c + length (List.filter (fun e : string * Day => startsWith e.1 key)
                    entries))%nat).
Proof.
  induction entries as [| [date meals] rest IH]; intros a b c.
  - simpl. repeat f_equal; lia.
  - cbn [foldl List.filter fst snd].
    destruct (startsWith date key), (lunch meals), (dinner meals);
      rewrite IH; simpl; repeat f_equal; lia.
Qed.

Lemma countDays_entries (p : Day → bool) attendance key (entries : list (string * Day)) :
  (∀ e, e ∈ entries → attendance !! e.1 = Some e.2) →
  countDays p attendance
    (List.filter (fun date => startsWith date key) entries.*1)
  = length (List.filter (fun e : string * Day => startsWith e.1 key && p e.2) entries).
Proof.
  induction entries as [| [date meals] rest IH]; intros Hin; [done |].
  cbn [fmap list_fmap List.filter fst snd].
  assert (Hrest : ∀ e, e ∈ rest → attendance !! e.1 = Some e.2).
  { intros e He. apply Hin. by right. }
  specialize (IH Hrest). fold (@fmap list _ _ _ (@fst string Day) rest).
  destruct (startsWith date key); simpl; [| exact IH].
  pose proof (Hin (date, meals) ltac:(left)) as Hdate. simpl in Hdate.
  rewrite countDays_cons, IH, Hdate. simpl.
  by destruct (p meals).
Qed.

Lemma countDays_monthDates (p : Day → bool) attendance key :
  countDays p attendance (monthDates attendance key)
  = length (List.filter (fun e : string * Day => startsWith e.1 key && p e.2)
              (map_to_list attendance)).
Proof.
  unfold monthDates, Object_keys, sort, countDays.
  rewrite (length_filter_Permutation _ _ _ (merge_sort_Permutation String.le _)).
  apply (countDays_entries p attendance key).
  intros [date meals] He. by apply elem_of_map_to_list in He.
Qed.

Lemma countDays_all attendance dates :
  Forall (fun d => is_Some (attendance !! d)) dates →
  countDays (fun _ => true) attendance dates = length dates.
Proof.
  unfold countDays. induction 1 as [| date rest [day Hday] _ IH]; [done |].
  simpl. rewrite Hday. simpl. by rewrite IH.
Qed.

Lemma length_month_entries (attendance : gmap string Day) key :
  length (List.filter (fun e : string * Day => startsWith e.1 key)
            (map_to_list attendance))
  = length (monthDates attendance key).
Proof.
  rewrite <- (countDays_all attendance) by apply monthDates_recorded.
  rewrite countDays_monthDates. f_equal.
  apply filter_ext. intros e. by rewrite andb_true_r.
Qed.

(** X12: the monthly summary that archivePreviousMonth files and the
    statistics of the same month agree.  For the month the archive
    computes from today's date, calculateMonthlyStats returns; if that
    month has no record the archive changes nothing, and otherwise the
    summary stored under the month's key has the lunchCount, dinnerCount
    and totalDays of the statistics and, as its percentage, the text of
    their attendancePercentage. *)
Theorem archived_summary_agrees_with_statistics (today : JsDate) (d : Data) :
  ∃ stats,
    calculateMonthlyStats (setMonth today (getMonth today - 1)) (attendance d)
    = Some stats ∧
    monthKey stats = archiveMonthKey today ∧
    (if (totalDays stats =? 0)%nat
     then archivePreviousMonth today d = d
     else ∃ percentage,
            attendancePercentage stats = PText percentage ∧
            summaries (archivePreviousMonth today d) !! monthKey stats
            = Some (mkSummary (lunchCount stats) (dinnerCount stats)
                      (totalDays stats) percentage)).
Proof.
  destruct (monthlyStats_returns (setMonth today (getMonth today - 1)) (attendance d))
    as (stats & Hstats & Hkey & Htotal & Hlunch & Hdinner & _ & _ & _ & _
        & Hatt & Hposs & _ & _ & Hpct).
  exists stats. split; [done |]. split; [done |].
  unfold archivePreviousMonth, countMonth.
  rewrite countMonth_from. cbn [Nat.add].
  fold (archiveMonthKey today) in Hkey.
  rewrite <- !(countDays_monthDates _ (attendance d)).
  rewrite length_month_entries, <- Hkey, <- Htotal, Hkey.
  rewrite Hkey in Hlunch, Hdinner.
  change (countDays hasLunch) with (countDays lunch) in Hlunch.
  change (countDays hasDinner) with (countDays dinner) in Hdinner.
  rewrite <- Hlunch, <- Hdinner.
  destruct (Nat.eqb_spec (totalDays stats) 0) as [H0 | H0].
  - rewrite H0. done.
  - destruct (Nat.ltb_spec 0 (totalDays stats)) as [_ | ?]; [| lia].
    destruct Hpct as [Hpct _]. eexists. split; [exact Hpct |].
    cbn [summaries]. rewrite lookup_insert_eq.
    by rewrite Hatt, Hposs.
Qed.

End StatisticsInvariants.

(** ** Redoing and undoing one action *)

Module ActionFacts.

Import UndoManager.

(** The document [d] is one in which [act] can have been recorded: the
    action's fields say what [d] holds at the place the action changes. *)
Definition Describes (act : Action) (d : Data) : Prop :=
  match act with
  | mark_attendance date m _ =>
      ∃ day, attendance d !! date = Some day ∧ getMeal m day = false
  | unmark_attendance date m _ =>
      ∃ day, attendance d !! date = Some day ∧ getMeal m day = true
  | add_note date note => notes d !! date = None ∧ note ≠ ""
  | edit_note date oldNote _ => notes d !! date = oldNote ∧ oldNote ≠ Some ""
  | delete_note date note => notes d !! date = Some note
  | bulk_edit changes =>
      Forall (fun c => oldValue c = attendance d !! c_date c) changes
  | delete_data a n s => a = attendance d ∧ n = notes d ∧ s = summaries d
  | other_type _ => True
  end.

Lemma undoBulk_lookup (a : gmap string Day) (changes : list Change) :
  ∀ (b : gmap string Day) (k : string),
  Forall (fun c => oldValue c = a !! c_date c) changes →
  foldl (fun (a : gmap string Day) change =>
           match oldValue change with
           | Some v => <[c_date change := v]> a
           | None => delete (c_date change) a
           end) b changes !! k
  = if decide (k ∈ c_date <$> changes) then a !! k else b !! k.
Proof.
  induction changes as [| c rest IH]; intros b k Hold.
  - cbn [foldl fmap list_fmap]. rewrite decide_False; [done |]. apply not_elem_of_nil.
  - apply Forall_cons in Hold as [Hc Hrest].
    cbn [foldl]. rewrite IH by done. rewrite fmap_cons.
    destruct (decide (k ∈ c_date <$> rest)) as [Hin | Hnin].
    + rewrite decide_True; [done |]. by right.
    + destruct (decide (k = c_date c)) as [-> | Hk].
      * rewrite decide_True by left.
        destruct (oldValue c) as [v |].
        -- by rewrite lookup_insert_eq.
        -- by rewrite lookup_delete_eq.
      * rewrite decide_False by (intros [? | ?]%elem_of_cons; done).
        destruct (oldValue c) as [v |].
        -- by rewrite lookup_insert_ne.
        -- by rewrite lookup_delete_ne.
Qed.

Lemma redoBulk_lookup (changes : list Change) : ∀ (a : gmap string Day) k,
  k ∉ c_date <$> changes →
  foldl (fun (a : gmap string Day) change => <[c_date change := newValue change]> a)
    a changes !! k
  = a !! k.
Proof.
  induction changes as [| c rest IH]; intros a k Hk; [done |].
  rewrite fmap_cons in Hk. apply not_elem_of_cons in Hk as [Hk1 Hk2].
  cbn [foldl]. rewrite IH by done. by rewrite lookup_insert_ne.
Qed.

(** X13: redoing an action and then undoing it gives back the document,
    for each of the eight kinds of action, whenever the action describes
    the document it is applied to: the record exists and the meal is
    unmarked (marked) for mark_attendance (unmark_attendance); no note is
    there and the new note is not empty for add_note; oldNote is the
    note there and is not the empty text for edit_note; note is the note
    there for delete_note; every change's oldValue is the record there
    for bulk_edit; the three maps are the document's for delete_data. *)
Theorem executeUndo_inverts_executeRedo (act : Action) (d : Data) :
  Describes act d → executeUndo act (executeRedo act d) = d.
Proof.
  destruct d as [a s n st]. destruct act as
    [date m prev | date m prev | date note | date oldNote newNote | date note
     | changes | a' n' s' | type]; simpl.
  - intros (day & Hday & Hm).
    unfold undoMarkAttendance, redoMarkAttendance, withAttendance. simpl. f_equal.
    unfold setIfPresent, createAndSet. apply map_eq. intros k.
    rewrite lookup_alter. destruct (decide (date = k)) as [<- | Hk].
    + rewrite lookup_insert_eq, Hday. simpl. f_equal.
      destruct m, day as [l dn]; simpl in *; by subst.
    + by rewrite lookup_insert_ne.
  - intros (day & Hday & Hm).
    unfold undoUnmarkAttendance, redoUnmarkAttendance, withAttendance. simpl. f_equal.
    unfold setIfPresent, createAndSet. apply map_eq. intros k.
    destruct (decide (date = k)) as [<- | Hk].
    + rewrite lookup_insert_eq, lookup_alter_eq, Hday. simpl.
      f_equal. destruct m, day as [l dn]; simpl in *; by subst.
    + rewrite lookup_insert_ne by done. by rewrite lookup_alter_ne.
  - intros [Hnone Hnote].
    unfold undoAddNote, redoAddNote, withNotes. simpl. f_equal.
    rewrite lookup_insert_eq. simpl.
    destruct (String.eqb_spec note ""); [done |]. simpl.
    by rewrite delete_insert_id.
  - intros [Hold Hne].
    unfold undoEditNote, redoEditNote, withNotes. simpl. f_equal.
    destruct oldNote as [o |].
    + simpl. destruct (String.eqb_spec o "") as [-> | Ho]; [done |]. simpl.
      rewrite insert_insert_eq. by apply insert_id.
    + by rewrite delete_insert_id.
  - intros Hnote.
    unfold undoDeleteNote, redoDeleteNote, withNotes. simpl. f_equal.
    rewrite Hnote. simpl. destruct (String.eqb_spec note "") as [-> | Ho]; simpl.
    + by apply insert_id.
    + rewrite insert_delete_eq. by apply insert_id.
  - intros Hold.
    unfold undoBulkEdit, redoBulkEdit, withAttendance. simpl in *. f_equal.
    apply map_eq. intros k. rewrite (undoBulk_lookup a) by done.
    destruct (decide (k ∈ c_date <$> changes)); [done |].
    by apply redoBulk_lookup.
  - by intros (-> & -> & ->).
  - done.
Qed.

Definition twoDays : Data :=
  mkData (<["2024-01-01" := mkDay true false]> ∅) ∅
         (<["2024-01-01" := "late"]> ∅) (mkSettings "" false "" "" "").

Definition twoChanges : list Change :=
  [ mkChange "2024-01-01" (Some (mkDay true false)) (mkDay true true);
    mkChange "2024-01-02" None (mkDay false true);
    mkChange "2024-01-01" (Some (mkDay true false)) (mkDay false false) ].

Lemma executeUndo_inverts_executeRedo_example :
  executeUndo (bulk_edit twoChanges) (executeRedo (bulk_edit twoChanges) twoDays)
  = twoDays.
Proof.
  apply (executeUndo_inverts_executeRedo (bulk_edit twoChanges) twoDays).
  simpl. repeat constructor.
Defined.

End ActionFacts.

(** ** Moving the month shown (StatisticsManager.changeStatsMonth,
       MessTrack.changeMonth) *)

Module MonthNavigation.

(** [changeStatsMonth(direction)]:
    [this.currentMonth.setMonth(this.currentMonth.getMonth() + direction)]. *)
Definition changeStatsMonth (direction : Z) (currentMonth : JsDate) : JsDate :=
  setMonth currentMonth (getMonth currentMonth + direction).

(** [changeMonth(direction)] of app.js does the same to
    [this.currentViewMonth]. *)
Definition changeMonth (direction : Z) (currentViewMonth : JsDate) : JsDate :=
  setMonth currentViewMonth (getMonth currentViewMonth + direction).

End MonthNavigation.

Module MonthNavigationFacts.

Import MonthNavigation.

Lemma daysInMonth_bounds (y m : Z) : 28 ≤ daysInMonth y m ≤ 31.
Proof. unfold daysInMonth. repeat case_match; lia. Qed.

Lemma daysInMonth_december (y : Z) : daysInMonth y 11 = 31.
Proof. done. Qed.

(** A day that the target month has is kept. *)
Lemma MakeDay_fits (y m d : Z) :
  1 ≤ d ≤ daysInMonth (y + m / 12) (m mod 12) →
  MakeDay y m d = mkDate (y + m / 12) (m mod 12) d.
Proof.
  intros Hd. unfold MakeDay.
  destruct (Z.to_nat d) as [| fuel] eqn:Hfuel; [lia |]. simpl.
  destruct (Z.leb_spec d (daysInMonth (y + m / 12) (m mod 12))); [done | lia].
Qed.

(** A day of the month (up to 31) that the target month lacks runs on
    into the month after it. *)
Lemma MakeDay_overflows (y m d : Z) :
  daysInMonth (y + m / 12) (m mod 12) < d ≤ 31 →
  MakeDay y m d
  = mkDate (y + m / 12) (m mod 12 + 1) (d - daysInMonth (y + m / 12) (m mod 12)).
Proof.
  intros Hd. unfold MakeDay.
  pose proof (daysInMonth_bounds (y + m / 12) (m mod 12)) as Hb.
  destruct (Z.to_nat d) as [| [| fuel]] eqn:Hfuel; [lia | lia |].
  cbn [rollDays].
  destruct (Z.leb_spec d (daysInMonth (y + m / 12) (m mod 12))); [lia |].
  destruct (Z.eqb_spec (m mod 12) 11) as [H11 | H11].
  { rewrite H11, daysInMonth_december in Hd. lia. }
  pose proof (daysInMonth_bounds (y + m / 12) (m mod 12 + 1)) as Hb'.
  destruct (Z.leb_spec (d - daysInMonth (y + m / 12) (m mod 12))
              (daysInMonth (y + m / 12) (m mod 12 + 1))); [done | lia].
Qed.

(** X14: on a date whose day of the month is at most 28, moving the
    month shown by [direction] months keeps the day, moves the month
    count (12 * year + month) by exactly [direction], and moving back by
    the same number of months returns to the date started from. *)
Theorem changeStatsMonth_round_trip (direction : Z) (t : JsDate) :
  0 ≤ getMonth t ≤ 11 → 1 ≤ getDate t ≤ 28 →
  getDate (changeStatsMonth direction t) = getDate t ∧
  12 * getFullYear (changeStatsMonth direction t) + getMonth (changeStatsMonth direction t)
  = 12 * getFullYear t + getMonth t + direction ∧
  0 ≤ getMonth (changeStatsMonth direction t) ≤ 11 ∧
  changeStatsMonth (- direction) (changeStatsMonth direction t) = t.
Proof.
  intros Hm Hd. destruct t as [y m d]. simpl in *.
  unfold changeStatsMonth, setMonth. simpl.
  assert (Hfit : ∀ y' m', 1 ≤ d ≤ daysInMonth y' m').
  { intros y' m'. pose proof (daysInMonth_bounds y' m'). lia. }
  rewrite MakeDay_fits by apply Hfit. simpl.
  rewrite MakeDay_fits by apply Hfit.
  pose proof (Z.div_mod (m + direction) 12 ltac:(lia)) as Hdm.
  pose proof (Z.mod_pos_bound (m + direction) 12 ltac:(lia)) as Hr.
  split_and!; [done | lia | lia | lia |].
  set (q := (m + direction) / 12) in *. set (r := (m + direction) mod 12) in *.
  assert (Hback : r + - direction = m + (- q) * 12) by lia.
  rewrite Hback, Z.div_add, Z.mod_add by lia.
  rewrite Z.div_small, Z.mod_small by lia. f_equal. lia.
Qed.

Lemma changeStatsMonth_round_trip_example :
  changeStatsMonth (- 14) (changeStatsMonth 14 (mkDate 2024 0 15)) = mkDate 2024 0 15.
Proof.
  apply (changeStatsMonth_round_trip 14 (mkDate 2024 0 15)); simpl; lia.
Defined.

(** X15: on a date whose day of the month (up to 31) the requested month
    does not have, the month shown lands one month past the requested
    one, on the day left over: from 31 January, "next" shows March. *)
Theorem changeStatsMonth_skips_short_month (direction : Z) (t : JsDate) :
  daysInMonth (getFullYear t + (getMonth t + direction) / 12)
              ((getMonth t + direction) mod 12) < getDate t ≤ 31 →
  changeStatsMonth direction t
  = mkDate (getFullYear t + (getMonth t + direction) / 12)
           ((getMonth t + direction) mod 12 + 1)
           (getDate t - daysInMonth (getFullYear t + (getMonth t + direction) / 12)
                                    ((getMonth t + direction) mod 12)) ∧
  changeMonth direction t = changeStatsMonth direction t.
Proof.
  intros Hd. split; [| done].
  unfold changeStatsMonth, setMonth. by apply MakeDay_overflows.
Qed.

Lemma changeStatsMonth_skips_short_month_example :
  changeStatsMonth 1 (mkDate 2024 0 31) = mkDate 2024 2 2.
Proof.
  apply (changeStatsMonth_skips_short_month 1 (mkDate 2024 0 31)).
  vm_compute. split; [reflexivity | discriminate].
Defined.

End MonthNavigationFacts.

(** ** What the storage cleanup and the guarded write leave behind *)

Module StorageFrame.

Import StorageManager StorageFacts.

Section AnyStorage.

Context {V : Type}.
Variable setItemError : Storage V → string → Item V → option ErrorName.

(** The three storages [cleanOldData] can end in. *)
Lemma cleanOldData_cases (now : JsDate) (st : Storage V) :
  (cleanOldData setItemError now st).1 = st ∨
  ∃ att att' n1,
    parseItem st "messtrack_attendance" = Some att ∧
    cleanValue (cutoffDate now) att = Some (att', n1) ∧
    ((cleanOldData setItemError now st).1 = <["messtrack_attendance" := att']> st ∨
     ∃ notes notes' n2,
       parseItem st "messtrack_notes" = Some notes ∧
       cleanValue (cutoffDate now) notes = Some (notes', n2) ∧
       (cleanOldData setItemError now st).1
       = <["messtrack_notes" := notes']> (<["messtrack_attendance" := att']> st)).
Proof.
  unfold cleanOldData, setItem.
  destruct (parseItem st "messtrack_attendance") as [att |]; [| by left].
  destruct (parseItem st "messtrack_notes") as [notes |]; [| by left].
  destruct (cleanValue (cutoffDate now) att) as [[att' n1] |] eqn:Ha; [| by left].
  destruct (cleanValue (cutoffDate now) notes) as [[notes' n2] |] eqn:Hn; [| by left].
  destruct (0 <? _)%nat; [| by left].
  destruct (setItemError st _ _); [by left |].
  destruct (setItemError _ _ _); right; exists att, att', n1;
    (split; [done |]); (split; [done |]); [by left |].
  right. by exists notes, notes', n2.
Qed.

(** What an item found after the cleanup has to do with the storage
    before it: an object is the object parsed there before, without some
    entries dated before the cutoff; an array is the array stored there
    before, with some elements at index keys before the cutoff replaced
    by [null]; anything else was stored there as it is. *)
Definition Kept (cutoff : string) (st : Storage V) (key : string) (item : Item V)
  : Prop :=
  match item with
  | Doc o1 =>
      ∃ o, parseItem st key = Some (Doc o) ∧
           (∀ date v, o1 !! date = Some v → o !! date = Some v) ∧
           (∀ date v, o !! date = Some v → str_lt date cutoff = false →
                      o1 !! date = Some v)
  | Arr a1 =>
      ∃ a, st !! key = Some (Arr a) ∧ length a1 = length a ∧
           ∀ i, a1 !! i = a !! i ∨
                (a1 !! i = Some None ∧ isOld cutoff (String_of (Z.of_nat i)) = true)
  | other => st !! key = Some other
  end.

Lemma Kept_unchanged cutoff (st : Storage V) key item :
  st !! key = Some item → Kept cutoff st key item.
Proof.
  intros Hitem. destruct item as [o | a | text | s' | | s']; try exact Hitem.
  - exists o. split; [| done]. unfold parseItem. by rewrite Hitem.
  - exists a. split_and!; [done | done |]. intros i. by left.
Qed.

Lemma parseItem_stored (st : Storage V) key v :
  parseItem st key = Some v → (∀ o, v ≠ Doc o) → st !! key = Some v.
Proof.
  unfold parseItem. intros Hparse Hdoc.
  destruct (st !! key) as [[o | a | text | s' | | s'] |]; simplify_eq/=; try done.
  - destruct (String.eqb s' ""); simplify_eq/=. by destruct (Hdoc ∅).
  - by destruct (Hdoc ∅).
Qed.

Lemma Kept_cleaned cutoff (st : Storage V) key v item n :
  parseItem st key = Some v → cleanValue cutoff v = Some (item, n) →
  Kept cutoff st key item.
Proof.
  intros Hparse Hclean. destruct v as [o | a | text | s' | | s']; simplify_eq/=.
  - exists o. split; [done |]. split; intros date v.
    + by intros [? _]%keepRecent_lookup.
    + intros. by apply keepRecent_lookup.
  - exists a. split; [by apply parseItem_stored |].
    split; [by rewrite length_imap |]. intros i.
    rewrite list_lookup_imap. destruct (a !! i) as [x |]; simpl; [| by left].
    destruct (isOld cutoff (String_of (Z.of_nat i))); [by right | by left].
  - by apply parseItem_stored.
  - destruct (existsb _ _); simplify_eq/=. by apply parseItem_stored.
Qed.

(** X16: whatever the browser does to the writes, cleanOldData touches
    only the attendance and notes items, and every item found in storage
    afterwards is kept from before: an object is the object parsed there
    before, with no entry added or changed and no entry dated at or
    after the cutoff dropped; an array is the array stored there before,
    of the same length, each element either as it was or, at an index
    key before the cutoff, replaced by null; any other item is as it was
    stored. *)
Theorem cleanOldData_only_drops_old_entries (now : JsDate) (st : Storage V) :
  (∀ key, key ≠ "messtrack_attendance" → key ≠ "messtrack_notes" →
          (cleanOldData setItemError now st).1 !! key = st !! key) ∧
  (∀ key item,
     (cleanOldData setItemError now st).1 !! key = Some item →
     Kept (cutoffDate now) st key item).
Proof.
  destruct (cleanOldData_cases now st)
    as [-> | (att & att' & n1 & Hatt & Ha & [-> | (notes & notes' & n2 & Hnotes & Hn & ->)])];
    unfold Storage in *.
  - split; [done |]. intros key item. apply Kept_unchanged.
  - split.
    + intros key Hk _. by rewrite lookup_insert_ne.
    + intros key item.
      destruct (decide (key = "messtrack_attendance")) as [-> | Hk].
      * rewrite lookup_insert_eq. intros [= <-]. by eapply Kept_cleaned.
      * rewrite lookup_insert_ne by done. apply Kept_unchanged.
  - split.
    + intros key Hk1 Hk2. by rewrite !lookup_insert_ne.
    + intros key item.
      destruct (decide (key = "messtrack_notes")) as [-> | Hk2].
      * rewrite lookup_insert_eq. intros [= <-]. by eapply Kept_cleaned.
      * rewrite lookup_insert_ne by done.
        destruct (decide (key = "messtrack_attendance")) as [-> | Hk1].
        -- rewrite lookup_insert_eq. intros [= <-]. by eapply Kept_cleaned.
        -- rewrite lookup_insert_ne by done. apply Kept_unchanged.
Qed.

(** X17: how a call of safeSetItem can end.  It returns true only with
    the value stored under the key and no toast; it returns false only
    after a quota error, leaving the storage as the cleanup left it; it
    rethrows only an error that is not a quota error, with the storage
    untouched; and it calls setItem for the value once or twice. *)
Theorem safeSetItem_outcomes (now : JsDate) (messTrack : bool)
    (key : string) (value : Item V) (st : Storage V) :
  match outcome (safeSetItem setItemError now messTrack key value st) with
  | Returned true =>
      storage (safeSetItem setItemError now messTrack key value st) !! key
      = Some value ∧
      toasts (safeSetItem setItemError now messTrack key value st) = []
  | Returned false =>
      storage (safeSetItem setItemError now messTrack key value st)
      = (cleanOldData setItemError now st).1 ∧
      ∃ e, setItem setItemError st key value = inl e ∧ isQuotaError e = true
  | Rethrown e =>
      storage (safeSetItem setItemError now messTrack key value st) = st ∧
      setItem setItemError st key value = inl e ∧ isQuotaError e = false
  end ∧
  (1 ≤ attempts (safeSetItem setItemError now messTrack key value st) ≤ 2)%nat.
Proof.
  unfold safeSetItem.
  destruct (setItem setItemError st key value) as [e | st'] eqn:Hfirst.
  - destruct (isQuotaError e) eqn:Hquota.
    + destruct (cleanOldData setItemError now st) as [st1 cleaned].
      destruct (0 <? cleaned)%nat.
      * destruct (setItem setItemError st1 key value) as [e2 | st2] eqn:Hretry; simpl.
        -- split; [eauto | lia].
        -- unfold setItem in Hretry. destruct (setItemError st1 key value); [done |].
           injection Hretry as <-. unfold Storage in *.
           rewrite lookup_insert_eq. split; [done | lia].
      * simpl. split; [eauto | lia].
    + simpl. split; [done | lia].
  - simpl. unfold setItem in Hfirst. destruct (setItemError st key value); [done |].
    injection Hfirst as <-. unfold Storage in *.
    rewrite lookup_insert_eq. split; [done | lia].
Qed.

End AnyStorage.

End StorageFrame.

(** ** The monthly check at start-up and the dashboard summary (app.js) *)

Module MonthlyCheck.

Import MessTrack.

(** [getCurrentMonthSummary()], read at [today]; [updateSummary()] shows
    the same three numbers. *)
Definition getCurrentMonthSummary (today : JsDate) (d : Data) : Summary :=
  let monthKey := monthKeyOf today in
  let '(lunchCount, dinnerCount, totalDays) :=
    countMonth monthKey (map_to_list (attendance d)) in
  let totalPossibleMeals := Nat.max (totalDays * 2) 1 in
  let totalAttended := (lunchCount + dinnerCount)%nat in
  mkSummary lunchCount dinnerCount totalDays
            (percentFixed1 totalAttended totalPossibleMeals).

End MonthlyCheck.

Module MonthlyCheckFacts.

Import MessTrack MonthlyCheck StatisticsManager StatisticsInvariants.


Definition aprilData : Data :=
  mkData (<["2024-03-10" := mkDay true false]> (<["2024-04-02" := mkDay true true]> ∅))
         ∅ ∅ (mkSettings "light" true "12:00" "19:00" "").


(** X19: the dashboard summary of the current month and the statistics
    of that month agree on lunchCount, dinnerCount and totalDays.  When
    the month has a record the two percentages are the same text; when
    it has none the summary shows the text 0.0 (its divisor is raised to
    1) while the statistics hold the number 0. *)
Theorem currentMonthSummary_agrees_with_statistics (today : JsDate) (d : Data) :
  ∃ stats,
    calculateMonthlyStats today (attendance d) = Some stats ∧
    s_lunchCount (getCurrentMonthSummary today d) = lunchCount stats ∧
    s_dinnerCount (getCurrentMonthSummary today d) = dinnerCount stats ∧
    s_totalDays (getCurrentMonthSummary today d) = totalDays stats ∧
    (if (totalDays stats =? 0)%nat
     then s_percentage (getCurrentMonthSummary today d) = "0.0" ∧
          attendancePercentage stats = PNumber 0
     else attendancePercentage stats
          = PText (s_percentage (getCurrentMonthSummary today d))).
Proof.
  destruct (monthlyStats_returns today (attendance d))
    as (stats & Hstats & Hkey & Htotal & Hlunch & Hdinner & _ & _ & _ & _
        & Hatt & Hposs & _ & _ & Hpct).
  exists stats. split; [done |].
  unfold getCurrentMonthSummary, countMonth.
  rewrite countMonth_from. cbn [Nat.add s_lunchCount s_dinnerCount s_totalDays s_percentage].
  rewrite <- !(countDays_monthDates _ (attendance d)).
  rewrite Hkey in Hlunch, Hdinner, Htotal.
  change (countDays hasLunch) with (countDays lunch) in Hlunch.
  change (countDays hasDinner) with (countDays dinner) in Hdinner.
  rewrite length_month_entries, <- Htotal, <- Hlunch, <- Hdinner.
  split_and!; try done.
  destruct (Nat.eqb_spec (totalDays stats) 0) as [H0 | H0].
  - destruct Hpct as [Hpct _]. split; [| done].
    assert (Hl0 : lunchCount stats = 0%nat).
    { pose proof (countDays_meals (attendance d)
                    (monthDates (attendance d) (monthKeyOf today))) as (_ & _ & Hle & _).
      change (countDays hasLunch) with (countDays lunch) in Hle. lia. }
    assert (Hd0 : dinnerCount stats = 0%nat).
    { pose proof (countDays_meals (attendance d)
                    (monthDates (attendance d) (monthKeyOf today))) as (_ & _ & _ & Hle).
      change (countDays hasDinner) with (countDays dinner) in Hle. lia. }
    rewrite H0, Hl0, Hd0. vm_compute. reflexivity.
  - destruct Hpct as [Hpct _]. rewrite Hpct, Hatt, Hposs.
    do 2 f_equal. lia.
Qed.

End MonthlyCheckFacts.

(** ** Times of day: the validator, quiet hours and the minute check *)

Module InputValidator.

(** A character class [[lo-hi]]. *)
Definition inClass (lo hi c : ascii) : bool :=
  (nat_of_ascii lo <=? nat_of_ascii c)%nat && (nat_of_ascii c <=? nat_of_ascii hi)%nat.

(** [isValidTime(timeString)]:
    [/^([01]?[0-9]|2[0-3]):[0-5][0-9]$/.test(timeString)].  The
    expression matches four characters (a one-digit hour) or five;
    [EnhancedValidation.validateSettings] tests [lunchTime] and
    [dinnerTime] with the same expression. *)
Definition isValidTime (timeString : string) : bool :=
  match list_ascii_of_string timeString with
  | [h; c; m1; m2] =>
      inClass "0" "9" h && Ascii.eqb c ":" && inClass "0" "5" m1 && inClass "0" "9" m2
  | [h1; h2; c; m1; m2] =>
      ((inClass "0" "1" h1 && inClass "0" "9" h2)
       || (Ascii.eqb h1 "2" && inClass "0" "3" h2))
      && Ascii.eqb c ":" && inClass "0" "5" m1 && inClass "0" "9" m2
  | _ => false
  end.

End InputValidator.

Module QuietHours.

Import NotificationManager.


End QuietHours.

Module TimeFacts.

Import NotificationManager InputValidator QuietHours.




(** The decimal digit [z] as a character. *)
Definition digit (z : Z) : ascii := ascii_of_nat (48 + Z.to_nat z).

Definition pad2_ok (k : Z) : bool :=
  String.eqb (padStart 2 "0" (String_of k))
             (String (digit (k / 10)) (String (digit (k mod 10)) EmptyString)).

Lemma pad2_all : forallb pad2_ok (seqZ 0 60) = true.
Proof. vm_compute. reflexivity. Qed.

Lemma pad2_spec (k : Z) :
  0 ≤ k < 60 →
  padStart 2 "0" (String_of k)
  = String (digit (k / 10)) (String (digit (k mod 10)) EmptyString).
Proof.
  intros Hk. apply String.eqb_eq.
  pose proof pad2_all as Hall. rewrite forallb_forall in Hall.
  apply Hall. apply list_elem_of_In. apply elem_of_seqZ. lia.
Qed.

Lemma currentTimeOf_digits (now : Clock) :
  0 ≤ getHours now < 24 → 0 ≤ getMinutes now < 60 →
  currentTimeOf now
  = String (digit (getHours now / 10)) (String (digit (getHours now mod 10))
      (String ":" (String (digit (getMinutes now / 10))
         (String (digit (getMinutes now mod 10)) EmptyString)))).
Proof.
  intros Hh Hm. unfold currentTimeOf.
  rewrite !pad2_spec by lia. done.
Qed.

Lemma inClass_digit (lo hi c : ascii) (l h : Z) :
  inClass lo hi c = true →
  Z.of_nat (nat_of_ascii lo) = 48 + l → Z.of_nat (nat_of_ascii hi) = 48 + h →
  0 ≤ l →
  c = digit (Z.of_nat (nat_of_ascii c) - 48) ∧
  l ≤ Z.of_nat (nat_of_ascii c) - 48 ≤ h.
Proof.
  unfold inClass. intros [Hlo Hhi]%andb_prop Hl Hh Hbase.
  apply Nat.leb_le in Hlo, Hhi. split; [| lia].
  unfold digit.
  replace (48 + Z.to_nat (Z.of_nat (nat_of_ascii c) - 48))%nat
    with (nat_of_ascii c) by lia.
  by rewrite ascii_nat_embedding.
Qed.

(** X21: a reminder whose time passes isValidTime can be sent by the
    minute check at some time of day exactly when its time is written
    with five characters.  A time with a one-digit hour, such as 9:30,
    is valid but never equals the zero-padded HH:MM the check compares
    with, so that reminder is never sent. *)
Theorem valid_time_fires_iff_padded (n : Scheduled) (permission : string)
    (scheduled : list Scheduled) :
  isValidTime (time n) = true → n ∈ scheduled →
  ((∃ now attendance,
      (0 ≤ getHours now < 24 ∧ 0 ≤ getMinutes now < 60) ∧
      n ∈ (checkScheduledNotifications now attendance (mk permission scheduled None)).2)
   ↔ String.length (time n) = 5%nat).
Proof.
  intros Hvalid Hn. split.
  - intros (now & attendance & [Hh Hm] & Hsent).
    unfold checkScheduledNotifications in Hsent.
    rewrite decide_False in Hsent by done. simpl in Hsent.
    apply list_elem_of_In, filter_In in Hsent as [_ Hsent].
    apply andb_prop in Hsent as [Htime _]. apply String.eqb_eq in Htime.
    rewrite Htime, currentTimeOf_digits by done. done.
  - intros Hlen. unfold isValidTime in Hvalid.
    destruct (time n) as [| h1 [| h2 [| c [| m1 [| m2 [| ? ?]]]]]] eqn:Htime;
      try discriminate Hlen.
    cbn [list_ascii_of_string] in Hvalid.
    apply andb_prop in Hvalid as [Hvalid Hm2].
    apply andb_prop in Hvalid as [Hvalid Hm1].
    apply andb_prop in Hvalid as [Hhour Hc].
    apply Ascii.eqb_eq in Hc. subst c.
    destruct (inClass_digit _ _ _ 0 5 Hm1 eq_refl eq_refl ltac:(lia)) as [Em1 Bm1].
    destruct (inClass_digit _ _ _ 0 9 Hm2 eq_refl eq_refl ltac:(lia)) as [Em2 Bm2].
    set (a := Z.of_nat (nat_of_ascii h1) - 48) in *.
    set (b := Z.of_nat (nat_of_ascii h2) - 48) in *.
    set (p := Z.of_nat (nat_of_ascii m1) - 48) in *.
    set (q := Z.of_nat (nat_of_ascii m2) - 48) in *.
    assert (Hhours : h1 = digit a ∧ h2 = digit b ∧ 0 ≤ b ≤ 9 ∧ 0 ≤ a ∧ 10 * a + b < 24).
    { apply orb_prop in Hhour as [[H1 H2]%andb_prop | [H1 H2]%andb_prop].
      - destruct (inClass_digit _ _ _ 0 1 H1 eq_refl eq_refl ltac:(lia)) as [E1 B1].
        destruct (inClass_digit _ _ _ 0 9 H2 eq_refl eq_refl ltac:(lia)) as [E2 B2].
        fold a in E1, B1. fold b in E2, B2.
        split_and!; [done | done | lia ..].
      - apply Ascii.eqb_eq in H1.
        destruct (inClass_digit _ _ _ 0 3 H2 eq_refl eq_refl ltac:(lia)) as [E2 B2].
        fold b in E2, B2.
        assert (Ha : a = 2) by (unfold a; rewrite H1; done).
        split_and!; [by rewrite Ha, H1 | done | lia ..]. }
    destruct Hhours as (E1 & E2 & Bb & Ba & Bh).
    exists (mkClock (mkDate 2024 0 1) (10 * a + b) (10 * p + q)), ∅.
    split; [simpl; lia |].
    unfold checkScheduledNotifications. rewrite decide_False by done. simpl.
    apply list_elem_of_In, filter_In. split; [by apply list_elem_of_In |].
    apply andb_true_intro. split.
    + apply String.eqb_eq. rewrite Htime.
      rewrite currentTimeOf_digits by (simpl; lia). simpl.
      replace ((10 * a + b) / 10) with a by (apply Z.div_unique with b; lia).
      replace ((10 * a + b) mod 10) with b by (apply Z.mod_unique with a; lia).
      replace ((10 * p + q) / 10) with p by (apply Z.div_unique with q; lia).
      replace ((10 * p + q) mod 10) with q by (apply Z.mod_unique with p; lia).
      by rewrite <- E1, <- E2, <- Em1, <- Em2.
    + unfold isMarked. by rewrite lookup_empty.
Qed.

Definition lunchAtHalfPastNine : Scheduled :=
  mkScheduled "lunch_at_time" "lunch" "9:30" "Time for Lunch!"
    "Remember to mark your lunch attendance".

Lemma valid_time_fires_iff_padded_example :
  (∃ now attendance,
      (0 ≤ getHours now < 24 ∧ 0 ≤ getMinutes now < 60) ∧
      lunchAtHalfPastNine
      ∈ (checkScheduledNotifications now attendance
           (mk "granted" [lunchAtHalfPastNine] None)).2)
  ↔ String.length (time lunchAtHalfPastNine) = 5%nat.
Proof.
  apply (valid_time_fires_iff_padded lunchAtHalfPastNine "granted" [lunchAtHalfPastNine]).
  - reflexivity.
  - apply list_elem_of_here.
Defined.

Lemma inherited_not_meal (name : string) :
  inherited name = true → mealOfString name = None.
Proof.
  unfold inherited, objectPrototypeNames. intros H%bool_decide_eq_true.
  repeat (apply elem_of_cons in H as [-> | H]; [reflexivity |]).
  by apply elem_of_nil in H.
Qed.

(** X22: in a minute not checked before, a scheduled reminder due at the
    current HH:MM is sent exactly when its meal is not marked today.  A
    reminder whose mealType is neither a meal nor a name inherited from
    Object.prototype (the daily summary) is sent whatever the attendance
    is; one whose mealType is an inherited name (such as constructor) is
    sent exactly when today has no record. *)
Theorem due_reminders_are_sent (now : Clock) (attendance : gmap string Day)
    (nm : t) (n : Scheduled) :
  lastCheckedMinute nm ≠ Some (currentTimeOf now) →
  n ∈ scheduledNotifications nm →
  time n = currentTimeOf now →
  (n ∈ (checkScheduledNotifications now attendance nm).2
   ↔ isMarked attendance (getTodayString (day now)) (mealType n) = false) ∧
  (mealOfString (mealType n) = None → inherited (mealType n) = false →
   n ∈ (checkScheduledNotifications now attendance nm).2) ∧
  (inherited (mealType n) = true →
   (n ∈ (checkScheduledNotifications now attendance nm).2
    ↔ attendance !! getTodayString (day now) = None)).
Proof.
  intros Hfresh Hn Htime.
  assert (Hiff : n ∈ (checkScheduledNotifications now attendance nm).2
                 ↔ isMarked attendance (getTodayString (day now)) (mealType n) = false).
  { unfold checkScheduledNotifications. rewrite decide_False by done. simpl.
    rewrite list_elem_of_In, filter_In, andb_true_iff, String.eqb_eq, negb_true_iff.
    rewrite <- list_elem_of_In. tauto. }
  split_and!; [done | |].
  - intros Hmeal Hinh. apply Hiff.
    unfold isMarked. rewrite Hmeal, Hinh. by destruct (attendance !! _).
  - intros Hinh. rewrite Hiff. unfold isMarked.
    rewrite (inherited_not_meal _ Hinh), Hinh.
    by destruct (attendance !! _).
Qed.

Definition dailySummary : Scheduled :=
  mkScheduled "daily_summary" "summary" "21:00" "Daily Attendance Summary"
    "Check your meal attendance for today".

Lemma due_reminders_are_sent_example :
  (dailySummary
   ∈ (checkScheduledNotifications (mkClock (mkDate 2024 0 1) 21 0)
        {[ "2024-01-01" := mkDay true true ]}
        (mk "granted" [dailySummary] (Some "20:59"))).2
   ↔ isMarked {[ "2024-01-01" := mkDay true true ]}
       (getTodayString (mkDate 2024 0 1)) "summary" = false) ∧
  (mealOfString "summary" = None → inherited "summary" = false →
   dailySummary
   ∈ (checkScheduledNotifications (mkClock (mkDate 2024 0 1) 21 0)
        {[ "2024-01-01" := mkDay true true ]}
        (mk "granted" [dailySummary] (Some "20:59"))).2) ∧
  (inherited "summary" = true →
   (dailySummary
    ∈ (checkScheduledNotifications (mkClock (mkDate 2024 0 1) 21 0)
         {[ "2024-01-01" := mkDay true true ]}
         (mk "granted" [dailySummary] (Some "20:59"))).2
    ↔ ({[ "2024-01-01" := mkDay true true ]} : gmap string Day)
        !! getTodayString (mkDate 2024 0 1) = None)).
Proof.
  apply (due_reminders_are_sent (mkClock (mkDate 2024 0 1) 21 0)
           {[ "2024-01-01" := mkDay true true ]}
           (mk "granted" [dailySummary] (Some "20:59")) dailySummary).
  - vm_compute. discriminate.
  - apply list_elem_of_here.
  - reflexivity.
Defined.

(** A reminder whose mealType names an inherited property. *)
Definition constructorReminder : Scheduled :=
  mkScheduled "odd" "constructor" "21:00" "Reminder" "".

(** At 21:00 with a record for today, the daily summary is sent and the
    reminder for "constructor" is held back as marked. *)
Example inherited_name_counts_as_marked :
  (checkScheduledNotifications (mkClock (mkDate 2024 0 1) 21 0)
     {[ "2024-01-01" := mkDay false false ]}
     (mk "granted" [dailySummary; constructorReminder] None)).2
  = [dailySummary].
Proof. vm_compute. reflexivity. Qed.

End TimeFacts.

(** ** ConflictResolver (notification-manager.js) *)

Module ConflictResolver.

Section Records.

(** The values kept under the keys of the two data sets, with their
    [timestamp] field, a number ([None] when the field is missing), and
    their truthiness. *)
Context {V : Type}.
Variable timestamp : V → option Z.
Variable truthy : V → bool.





End Records.

End ConflictResolver.

Module ConflictFacts.

Import ConflictResolver.

Section Records.

Context {V : Type}.
Variable timestamp : V → option Z.
Variable truthy : V → bool.









End Records.

End ConflictFacts.

(** ** The backup checksum (enhanced-module-improvements.js) *)

Module BackupManager.

(** [ToInt32]: the value modulo 2^32, read as a signed 32-bit integer. *)
Definition toInt32 (z : Z) : Z := (z + 2 ^ 31) mod 2 ^ 32 - 2 ^ 31.

(** One turn of the loop of [calculateChecksum]:
    [hash = ((hash << 5) - hash) + char; hash = hash & hash]. *)
Definition hashStep (hash char : Z) : Z :=
  let hash1 := toInt32 (Z.shiftl (toInt32 hash) 5) - hash + char in
  Z.land (toInt32 hash1) (toInt32 hash1).

(** The number [calculateChecksum] prints in base 36, from the code
    units of [JSON.stringify(data)]. *)
Definition checksumHash (codes : list Z) : Z := foldl hashStep 0 codes.

End BackupManager.

Module ChecksumFacts.

Import BackupManager.

(** The value of the code units as digits in base 31. *)
Definition base31 (codes : list Z) : Z := foldl (fun h c => 31 * h + c) 0 codes.

Lemma toInt32_range (z : Z) : - 2 ^ 31 ≤ toInt32 z < 2 ^ 31.
Proof.
  unfold toInt32. pose proof (Z.mod_pos_bound (z + 2 ^ 31) (2 ^ 32) ltac:(lia)). lia.
Qed.

Lemma toInt32_congr (a b k : Z) : a = b + k * 2 ^ 32 → toInt32 a = toInt32 b.
Proof.
  intros ->. unfold toInt32.
  replace (b + k * 2 ^ 32 + 2 ^ 31) with (b + 2 ^ 31 + k * 2 ^ 32) by lia.
  by rewrite Z.mod_add by lia.
Qed.

Lemma toInt32_unfold (z : Z) : ∃ k, toInt32 z = z + k * 2 ^ 32.
Proof.
  exists (- ((z + 2 ^ 31) / 2 ^ 32)). unfold toInt32.
  pose proof (Z.div_mod (z + 2 ^ 31) (2 ^ 32) ltac:(lia)). lia.
Qed.

Lemma hashStep_spec (hash char : Z) : hashStep hash char = toInt32 (31 * hash + char).
Proof.
  unfold hashStep. cbn zeta. rewrite Z.land_diag, Z.shiftl_mul_pow2 by lia.
  destruct (toInt32_unfold hash) as [k1 Hk1].
  destruct (toInt32_unfold (toInt32 hash * 2 ^ 5)) as [k2 Hk2].
  apply (toInt32_congr _ _ (k2 + 32 * k1)). rewrite Hk2, Hk1. lia.
Qed.

Lemma checksum_from (codes : list Z) : ∀ h g,
  toInt32 h = toInt32 g →
  toInt32 (foldl hashStep h codes) = toInt32 (foldl (fun h c => 31 * h + c) g codes).
Proof.
  induction codes as [| c rest IH]; intros h g Hhg; [done |].
  cbn [foldl]. apply IH. rewrite hashStep_spec.
  destruct (toInt32_unfold (31 * h + c)) as [k Hk].
  destruct (toInt32_unfold h) as [k1 Hk1]. destruct (toInt32_unfold g) as [k2 Hk2].
  rewrite Hk1, Hk2 in Hhg.
  rewrite Hk. symmetry. apply (toInt32_congr _ _ (31 * (k1 - k2) - k)).
  lia.
Qed.

Lemma toInt32_idem (z : Z) : toInt32 (toInt32 z) = toInt32 z.
Proof.
  destruct (toInt32_unfold z) as [k Hk]. by apply (toInt32_congr _ _ k).
Qed.

(** X24: the number behind calculateChecksum is the value of the code
    units read as digits in base 31, wrapped to a signed 32-bit integer
    (the shift-and-subtract of the loop, with its two 32-bit
    truncations, is multiplication by 31 modulo 2^32); it always lies
    between -2^31 and 2^31 - 1. *)
Theorem checksumHash_is_base31_wrapped (codes : list Z) :
  checksumHash codes = toInt32 (base31 codes) ∧
  - 2 ^ 31 ≤ checksumHash codes < 2 ^ 31.
Proof.
  assert (Hfix : toInt32 (checksumHash codes) = checksumHash codes).
  { unfold checksumHash. destruct (snoc_or_nil codes) as [-> | (l & c & ->)]; [done |].
    rewrite foldl_app. cbn [foldl]. rewrite hashStep_spec. apply toInt32_idem. }
  split.
  - rewrite <- Hfix. by apply checksum_from.
  - rewrite <- Hfix. apply toInt32_range.
Qed.

End ChecksumFacts.

(** ** The date format check (EnhancedValidation.validateAttendance,
       EnhancedAttendanceManager.markAttendance) *)

Module EnhancedValidation.

Import InputValidator.

(** [/^\d{4}-\d{2}-\d{2}$/.test(date)] *)
Definition isDateFormat (date : string) : bool :=
  match list_ascii_of_string date with
  | [y1; y2; y3; y4; s1; m1; m2; s2; d1; d2] =>
      inClass "0" "9" y1 && inClass "0" "9" y2 && inClass "0" "9" y3
      && inClass "0" "9" y4 && Ascii.eqb s1 "-"
      && inClass "0" "9" m1 && inClass "0" "9" m2 && Ascii.eqb s2 "-"
      && inClass "0" "9" d1 && inClass "0" "9" d2
  | _ => false
  end.

(** [validateAttendance(data)] on an attendance object whose records
    hold two booleans: what is left to check is the format of every
    date key. *)
Definition validateAttendance (data : gmap string Day) : bool :=
  forallb isDateFormat (Object_keys data).

End EnhancedValidation.

Module DateFormatFacts.

Import InputValidator EnhancedValidation TimeFacts UndoManager.

Lemma pretty_N_char_digit (k : N) : (k < 10)%N → pretty_N_char k = digit (Z.of_N k).
Proof.
  intros Hk.
  assert (H : (k = 0 ∨ k = 1 ∨ k = 2 ∨ k = 3 ∨ k = 4 ∨ k = 5 ∨ k = 6 ∨ k = 7
               ∨ k = 8 ∨ k = 9)%N) by lia.
  repeat destruct H as [-> | H]; try subst k; reflexivity.
Qed.

(** [String(year)] of a four-digit year. *)
Lemma year_spec (y : Z) :
  1000 ≤ y ≤ 9999 →
  String_of y
  = String (digit (y / 1000)) (String (digit (y / 100 mod 10))
      (String (digit (y / 10 mod 10)) (String (digit (y mod 10)) EmptyString))).
Proof.
  intros Hy. unfold String_of. destruct y as [| p | p]; try lia.
  change (pretty (Z.pos p)) with (pretty (N.pos p)).
  unfold pretty, pretty_N. rewrite decide_False by done.
  set (n := N.pos p). assert (Hn : Z.of_N n = Z.pos p) by done.
  rewrite <- Hn in *. clearbody n. clear Hn p.
  rewrite pretty_N_go_step by lia.
  rewrite pretty_N_go_step
    by (apply N2Z.inj_lt; rewrite N2Z.inj_div; simpl; Z.div_mod_to_equations; lia).
  rewrite pretty_N_go_step
    by (apply N2Z.inj_lt; rewrite !N2Z.inj_div; simpl; Z.div_mod_to_equations; lia).
  rewrite pretty_N_go_step
    by (apply N2Z.inj_lt; rewrite !N2Z.inj_div; simpl; Z.div_mod_to_equations; lia).
  assert (H0 : (n / 10 / 10 / 10 / 10 = 0)%N).
  { apply N2Z.inj. rewrite !N2Z.inj_div. simpl. Z.div_mod_to_equations; lia. }
  rewrite H0, pretty_N_go_0.
  rewrite !pretty_N_char_digit by (apply N.mod_lt; lia).
  rewrite !N2Z.inj_mod, !N2Z.inj_div. simpl Z.of_N.
  assert (E1 : Z.of_N n / 10 / 10 / 10 mod 10 = Z.of_N n / 1000)
    by (Z.div_mod_to_equations; lia).
  assert (E2 : Z.of_N n / 10 / 10 mod 10 = Z.of_N n / 100 mod 10)
    by (Z.div_mod_to_equations; lia).
  by rewrite E1, E2.
Qed.

Lemma isDigit_digit (z : Z) : 0 ≤ z ≤ 9 → inClass "0" "9" (digit z) = true.
Proof.
  intros Hz. unfold inClass, digit.
  rewrite nat_ascii_embedding by lia.
  apply andb_true_intro. split; apply Nat.leb_le.
  - change (nat_of_ascii "0") with 48%nat. lia.
  - change (nat_of_ascii "9") with 57%nat. lia.
Qed.

Lemma getTodayString_format (today : JsDate) :
  1000 ≤ getFullYear today ≤ 9999 → 0 ≤ getMonth today ≤ 11 →
  1 ≤ getDate today ≤ 31 →
  isDateFormat (getTodayString today) = true.
Proof.
  intros Hy Hm Hd. unfold getTodayString. cbn zeta.
  rewrite year_spec, !pad2_spec by lia.
  unfold isDateFormat. cbv [String.append list_ascii_of_string].
  rewrite !isDigit_digit by (Z.div_mod_to_equations; lia). done.
Qed.

Lemma validateAttendance_spec (data : gmap string Day) :
  validateAttendance data = true ↔
  ∀ date, is_Some (data !! date) → isDateFormat date = true.
Proof.
  unfold validateAttendance, Object_keys. rewrite forallb_forall. split.
  - intros Hall date [day Hday]. apply Hall, list_elem_of_In.
    apply list_elem_of_fmap. exists (date, day). split; [done |].
    by apply elem_of_map_to_list.
  - intros Hall date Hin. apply list_elem_of_In, list_elem_of_fmap in Hin
      as ([date' day] & -> & Hin).
    apply elem_of_map_to_list in Hin. apply Hall. by exists day.
Qed.

Lemma recordAction_app_data action now newId u :
  app_data (recordAction action now newId u) = app_data u.
Proof. unfold recordAction. by case_match. Qed.

(** X25: with the clock in the years 1000 to 9999, the key
    getTodayString builds passes the date format check that
    EnhancedAttendanceManager.markAttendance and validateAttendance
    apply, and an attendance object that validateAttendance accepts is
    still accepted after markAttendance. *)
Theorem markAttendance_keeps_attendance_valid (today : JsDate) (type : string)
    (now : Z) (newId : string) (u : UndoManager.t) :
  1000 ≤ getFullYear today ≤ 9999 → 0 ≤ getMonth today ≤ 11 →
  1 ≤ getDate today ≤ 31 →
  isDateFormat (getTodayString today) = true ∧
  (validateAttendance (attendance (app_data u)) = true →
   validateAttendance
     (attendance (app_data (MessTrack.markAttendance today type now newId u))) = true).
Proof.
  intros Hy Hm Hd.
  pose proof (getTodayString_format today Hy Hm Hd) as Hkey.
  split; [done |]. rewrite !validateAttendance_spec. intros Hvalid date.
  unfold MessTrack.markAttendance.
  destruct (mealOfString type) as [m |]; [| apply Hvalid].
  rewrite recordAction_app_data. cbn [app_data withAttendance attendance].
  rewrite lookup_alter.
  destruct (decide (getTodayString today = date)) as [<- | Hne]; [done |].
  destruct (attendance (app_data u) !! getTodayString today) eqn:Htoday.
  - apply Hvalid.
  - rewrite lookup_insert_ne by done. apply Hvalid.
Qed.

Lemma markAttendance_keeps_attendance_valid_example :
  isDateFormat (getTodayString (mkDate 2024 0 5)) = true ∧
  (validateAttendance (attendance (app_data (constructor MonthlyCheckFacts.aprilData None)))
   = true →
   validateAttendance
     (attendance (app_data (MessTrack.markAttendance (mkDate 2024 0 5) "lunch" 0 "a"
                              (constructor MonthlyCheckFacts.aprilData None)))) = true).
Proof.
  apply (markAttendance_keeps_attendance_valid (mkDate 2024 0 5) "lunch" 0 "a"
           (constructor MonthlyCheckFacts.aprilData None)); simpl; lia.
Defined.

End DateFormatFacts.

(** ** Comparison with last month and trends *)

Module StatisticsComparison.

Import StatisticsManager.

(** The fields of the object [compareWithLastMonth] returns when last
    month has records.  [percentageDiff] (a [toFixed] of a floating-point
    difference) is left out. *)
Record Comparison := mkComparison {
  lunchDiff : Z;
  dinnerDiff : Z;
  lastPercentage : string;
  improved : bool
}.

(** [lastMonthDates] of [compareWithLastMonth]. *)
Definition lastMonthDates (currentMonth : JsDate) (attendance : gmap string Day)
  : list string :=
  let lastMonth := setMonth currentMonth (getMonth currentMonth - 1) in
  let lastMonthKey := monthKeyOf lastMonth in
  List.filter (fun date => startsWith date lastMonthKey) (Object_keys attendance).

(** The counting [forEach] over [lastMonthDates]; a date without a
    record would be a [TypeError] ([None]). *)
Fixpoint lastCounts (attendance : gmap string Day) (dates : list string)
    (lastLunchCount lastDinnerCount : nat) : option (nat * nat) :=
  match dates with
  | [] => Some (lastLunchCount, lastDinnerCount)
  | date :: rest =>
      match attendance !! date with
      | None => None
      | Some day =>
          lastCounts attendance rest
            (if lunch day then S lastLunchCount else lastLunchCount)
            (if dinner day then S lastDinnerCount else lastDinnerCount)
      end
  end.

(** [a > b] where [a] is a percentage field and [b] the text of a
    [toFixed(1)]: two texts are compared as texts; a number (the field
    holds no other number than 0) is compared with the number the text
    stands for, which is not negative. *)
Definition greaterThanText (a : Percentage) (b : string) : bool :=
  match a with
  | PText s => str_lt b s
  | PNumber n => false
  end.

(** [compareWithLastMonth(currentStats)]: [None] is a thrown error,
    [Some None] is [{ available: false }]. *)
Definition compareWithLastMonth (currentMonth : JsDate)
    (attendance : gmap string Day) (currentStats : Stats)
  : option (option Comparison) :=
  let dates := lastMonthDates currentMonth attendance in
  if (length dates =? 0)%nat then Some None
  else
    '(lastLunchCount, lastDinnerCount) ← lastCounts attendance dates 0 0;
    let lastTotalMeals := (lastLunchCount + lastDinnerCount)%nat in
    let lastTotalPossible := (length dates * 2)%nat in
    let lastPercentage := percentFixed1 lastTotalMeals lastTotalPossible in
    Some (Some (mkComparison
                  (Z.of_nat (lunchCount currentStats) - Z.of_nat lastLunchCount)
                  (Z.of_nat (dinnerCount currentStats) - Z.of_nat lastDinnerCount)
                  lastPercentage
                  (greaterThanText (attendancePercentage currentStats) lastPercentage))).

(** The fields of the object [analyzeTrends] returns. *)
Record Trends := mkTrends {
  improving : bool;
  declining : bool;
  stable : bool;
  monthlyData : list (string * Z)
}.

Section Trends.

(** [parseFloat] of a percentage field, in tenths. *)
Variable parseFloat : Percentage → Z.

(** The [for] loop of [analyzeTrends]: the key is of the month [i]
    months before [today], the statistics are those of
    [calculateMonthlyStats()], that is of the month shown. *)
Fixpoint trendLoop (today currentMonth : JsDate) (attendance : gmap string Day)
    (i : Z) (turns : nat) : option (list (string * Z)) :=
  match turns with
  | O => Some []
  | S turns' =>
      let date := setMonth today (getMonth today - i) in
      let monthKey := monthKeyOf date in
      stats ← calculateMonthlyStats currentMonth attendance;
      rest ← trendLoop today currentMonth attendance (i + 1) turns';
      Some ((monthKey, parseFloat (attendancePercentage stats)) :: rest)
  end.

(** [analyzeTrends(months)]; the thresholds 5 and -5 are 50 and -50
    tenths. *)
Definition analyzeTrends (months : nat) (today currentMonth : JsDate)
    (attendance : gmap string Day) : option Trends :=
  monthlyData ← trendLoop today currentMonth attendance 0 months;
  if (2 <=? length monthlyData)%nat then
    let recent := default 0 (snd <$> head monthlyData) in
    let older := default 0 (snd <$> last monthlyData) in
    let diff := recent - older in
    if 50 <? diff then Some (mkTrends true false false monthlyData)
    else if diff <? -50 then Some (mkTrends false true false monthlyData)
    else Some (mkTrends false false true monthlyData)
  else Some (mkTrends false false false monthlyData).

End Trends.

End StatisticsComparison.

Module ComparisonFacts.

Import StatisticsManager StatisticsComparison StatisticsInvariants.

Lemma lastCounts_counts attendance dates : ∀ a b,
  Forall (fun d => is_Some (attendance !! d)) dates →
  lastCounts attendance dates a b
  = Some ((a + countDays hasLunch attendance dates)%nat,
          (b + countDays hasDinner attendance dates)%nat).
Proof.
  induction dates as [| date rest IH]; intros a b Hrec.
  - unfold countDays. simpl. do 2 f_equal; lia.
  - apply Forall_cons in Hrec as [[day Hday] Hrest].
    cbn [lastCounts]. rewrite Hday, IH by done.
    rewrite !countDays_cons, Hday. unfold hasLunch, hasDinner. simpl.
    destruct (lunch day), (dinner day); do 2 f_equal; lia.
Qed.

Lemma lastMonthDates_recorded currentMonth attendance :
  Forall (fun d => is_Some (attendance !! d)) (lastMonthDates currentMonth attendance).
Proof.
  apply Forall_forall. intros date Hin.
  apply list_elem_of_In, filter_In in Hin as [Hin _].
  apply list_elem_of_In, list_elem_of_fmap in Hin as ([date' day] & -> & Hin).
  apply elem_of_map_to_list in Hin. by exists day.
Qed.

Definition fixed1 (tenths : nat) : string :=
  pretty (tenths / 10)%nat +:+ "." +:+ pretty (tenths mod 10)%nat.

Definition not_below_full (tenths : nat) : bool :=
  negb (String.ltb (fixed1 tenths) "100.0").

Lemma not_below_full_all : forallb not_below_full (seq 200 801) = true.
Proof. vm_compute. reflexivity. Qed.

Lemma percentFixed1_full (a : nat) : (0 < a)%nat → percentFixed1 a a = "100.0".
Proof.
  intros Ha. unfold percentFixed1. cbn zeta.
  replace ((2000 * a + a) / (2 * a))%nat with 1000%nat; [done |].
  apply (Nat.div_unique _ _ _ a); lia.
Qed.

(** X26: compareWithLastMonth compares the two percentages as texts.
    When the month shown is fully attended (its percentage is the text
    100.0) and last month has records with at least 20 per cent of its
    meals attended, the comparison returns with improved false, also
    when last month was lower. *)
Theorem full_month_is_never_improved (currentMonth : JsDate)
    (attendance : gmap string Day) (stats : Stats) :
  calculateMonthlyStats currentMonth attendance = Some stats →
  (0 < totalDays stats)%nat →
  totalMealsAttended stats = totalPossibleMeals stats →
  lastMonthDates currentMonth attendance ≠ [] →
  (2 * length (lastMonthDates currentMonth attendance)
   ≤ 5 * (countDays hasLunch attendance (lastMonthDates currentMonth attendance)
          + countDays hasDinner attendance (lastMonthDates currentMonth attendance)))%nat →
  ∃ cmp,
    compareWithLastMonth currentMonth attendance stats = Some (Some cmp) ∧
    attendancePercentage stats = PText "100.0" ∧
    improved cmp = false.
Proof.
  intros Hstats Hdays Hfull Hlast Hshare.
  destruct (monthlyStats_returns currentMonth attendance)
    as (stats' & Hstats' & _ & _ & _ & _ & _ & _ & _ & _ & _ & Hposs & _ & _ & Hpct).
  rewrite Hstats in Hstats'. injection Hstats' as <-.
  destruct (Nat.eqb_spec (totalDays stats) 0) as [? | _]; [lia |].
  destruct Hpct as [Hpct _].
  rewrite Hfull, percentFixed1_full in Hpct by lia.
  unfold compareWithLastMonth.
  set (dates := lastMonthDates currentMonth attendance) in *.
  destruct (Nat.eqb_spec (length dates) 0) as [H0 | H0].
  { destruct dates; [done | discriminate H0]. }
  rewrite (lastCounts_counts attendance dates 0 0) by apply lastMonthDates_recorded.
  cbn [mbind option_bind Nat.add]. eexists. split; [reflexivity |].
  split; [done |]. cbn [improved]. rewrite Hpct. cbn [greaterThanText].
  set (a := (countDays hasLunch attendance dates
             + countDays hasDinner attendance dates)%nat) in *.
  set (p := length dates) in *.
  destruct (countDays_meals attendance dates) as (_ & _ & Hl & Hd). fold p in Hl, Hd.
  unfold percentFixed1. cbn zeta.
  set (tenths := ((2000 * a + p * 2) / (2 * (p * 2)))%nat).
  assert (Htenths : (200 ≤ tenths ≤ 1000)%nat).
  { unfold tenths. split.
    - apply Nat.div_le_lower_bound; lia.
    - apply Nat.lt_succ_r, Nat.Div0.div_lt_upper_bound. lia. }
  pose proof not_below_full_all as Hall. rewrite forallb_forall in Hall.
  specialize (Hall tenths). unfold not_below_full, fixed1 in Hall.
  apply negb_true_iff, Hall, in_seq. lia.
Qed.

Definition fullFebruary : gmap string Day :=
  <["2024-01-10" := mkDay true false]> (<["2024-02-10" := mkDay true true]> ∅).

Definition fullFebruaryStats : Stats :=
  Eval vm_compute in
    default (mkStats "" 0 0 0 0 0 0 0 0 0 (PNumber 0) (PNumber 0) (PNumber 0) 0 0)
            (calculateMonthlyStats (mkDate 2024 1 15) fullFebruary).

Lemma full_month_is_never_improved_example :
  ∃ cmp,
    compareWithLastMonth (mkDate 2024 1 15) fullFebruary fullFebruaryStats
    = Some (Some cmp) ∧
    attendancePercentage fullFebruaryStats = PText "100.0" ∧
    improved cmp = false.
Proof.
  apply (full_month_is_never_improved (mkDate 2024 1 15) fullFebruary fullFebruaryStats).
  - vm_compute. reflexivity.
  - vm_compute. lia.
  - reflexivity.
  - vm_compute. discriminate.
  - vm_compute. lia.
Defined.

Section Trends.

Variable parseFloat : Percentage → Z.

Lemma trendLoop_same today currentMonth attendance stats turns : ∀ i,
  calculateMonthlyStats currentMonth attendance = Some stats →
  ∃ data,
    trendLoop parseFloat today currentMonth attendance i turns = Some data ∧
    length data = turns ∧
    Forall (fun entry => entry.2 = parseFloat (attendancePercentage stats)) data.
Proof.
  induction turns as [| turns IH]; intros i Hstats.
  - by exists [].
  - destruct (IH (i + 1) Hstats) as (rest & Hrest & Hlen & Hall).
    cbn [trendLoop]. rewrite Hstats, Hrest. cbn [mbind option_bind].
    eexists. split; [reflexivity |]. split; [simpl; lia |].
    by apply Forall_cons.
Qed.

(** X27: analyzeTrends(months) returns, and it never reports a trend:
    improving and declining are always false, and stable is true exactly
    when months is at least 2.  Every entry of monthlyData carries the
    percentage of the month shown, whatever month its key names, so the
    first and the last entry never differ. *)
Theorem analyzeTrends_never_sees_a_trend (months : nat) (today currentMonth : JsDate)
    (attendance : gmap string Day) :
  ∃ trends stats,
    analyzeTrends parseFloat months today currentMonth attendance = Some trends ∧
    calculateMonthlyStats currentMonth attendance = Some stats ∧
    improving trends = false ∧ declining trends = false ∧
    stable trends = (2 <=? months)%nat ∧
    length (monthlyData trends) = months ∧
    Forall (fun entry => entry.2 = parseFloat (attendancePercentage stats))
           (monthlyData trends).
Proof.
  destruct (monthlyStats_returns currentMonth attendance) as (stats & Hstats & _).
  destruct (trendLoop_same today currentMonth attendance stats months 0 Hstats)
    as (data & Hdata & Hlen & Hall).
  unfold analyzeTrends. rewrite Hdata. cbn [mbind option_bind]. rewrite Hlen.
  destruct (2 <=? months)%nat eqn:Hmonths.
  - assert (Hhead : default 0 (snd <$> head data) = parseFloat (attendancePercentage stats)).
    { destruct data as [| e data]; [simpl in Hlen; subst; done |].
      apply Forall_cons in Hall as [He _]. done. }
    assert (Hlast : default 0 (snd <$> last data) = parseFloat (attendancePercentage stats)).
    { destruct (snoc_or_nil data) as [-> | (l & e & ->)]; [simpl in Hlen; subst; done |].
      rewrite last_snoc. apply Forall_app in Hall as [_ He].
      apply Forall_cons in He as [He _]. done. }
    rewrite Hhead, Hlast, Z.sub_diag. simpl.
    exists (mkTrends false false true data), stats. by split_and!.
  - exists (mkTrends false false false data), stats. by split_and!.
Qed.

End Trends.

End ComparisonFacts.
